(** * CMS SNF quality pipeline: a shallow embedding of
      [Code/snf_multi_year_runner.py]

    The Python program is a batch pipeline over pandas data frames.  The
    embedding keeps the shape of the code:

    - a [DataFrame] is a list of column labels and a list of rows, each
      row a list of cells aligned with the labels (pandas' labelled 2-d
      block); a [Series] is a list of cells;
    - a cell is missing ([NA], pandas' NaN), a string, a number or a
      tuple of two strings (the [county_state_key] column);
    - numbers are exact rationals ([Qc]); binary floating point rounding
      is not modelled;
    - row labels (the pandas index) are not modelled: no function of the
      program reads them;
    - Python exceptions are the [Raise] branch of [result];
    - the text-to-number parsers of Python and pandas and the rendering
      of a number as text are parameters of the development.

    Strings are byte strings; [upper], [lower] and [strip] act on the
    ASCII range, which is what county names, state codes and CMS column
    headers use. *)

From Stdlib Require Import Ascii QArith Qcanon Lqa.
From stdpp Require Import base numbers sorting strings gmap list.

Local Open Scope Z_scope.
Local Open Scope Qc_scope.
Local Open Scope nat_scope.
Local Open Scope stdpp_scope.

(** ** Python string methods *)

Module PyStr.

Definition upper_ascii (a : ascii) : ascii :=
  let n := nat_of_ascii a in
  if (97 <=? n) && (n <=? 122) then ascii_of_nat (n - 32) else a.

Definition lower_ascii (a : ascii) : ascii :=
  let n := nat_of_ascii a in
  if (65 <=? n) && (n <=? 90) then ascii_of_nat (n + 32) else a.

(** [str.isspace] on the ASCII range: TAB, LF, VT, FF, CR, the four
    separators FS GS RS US, and the space. *)
Definition is_space (a : ascii) : bool :=
  let n := nat_of_ascii a in
  ((9 <=? n) && (n <=? 13)) || ((28 <=? n) && (n <=? 32)).

Fixpoint upper (s : string) : string :=
  match s with
  | EmptyString => EmptyString
  | String a s' => String (upper_ascii a) (upper s')
  end.

Fixpoint lower (s : string) : string :=
  match s with
  | EmptyString => EmptyString
  | String a s' => String (lower_ascii a) (lower s')
  end.

Fixpoint lstrip (s : string) : string :=
  match s with
  | EmptyString => EmptyString
  | String a s' => if is_space a then lstrip s' else s
  end.

Definition rstrip (s : string) : string :=
  String.rev (lstrip (String.rev s)).

Definition strip (s : string) : string := rstrip (lstrip s).

Fixpoint startswith (s p : string) : bool :=
  match p, s with
  | EmptyString, _ => true
  | String b p', String a s' => if decide (a = b) then startswith s' p' else false
  | String _ _, EmptyString => false
  end.

Definition endswith (s suffix : string) : bool :=
  startswith (String.rev s) (String.rev suffix).

(** [s[: -n]] for [0 < n]: all but the last [n] characters. *)
Definition drop_last (n : nat) (s : string) : string :=
  Strings.String.substring 0 (Strings.String.length s - n) s.

(** [needle in hay]. *)
Fixpoint contains (needle hay : string) : bool :=
  startswith hay needle ||
  match hay with
  | EmptyString => false
  | String _ hay' => contains needle hay'
  end.

End PyStr.

(** ** Exceptions *)

Inductive exn : Type :=
  | KeyError (key : string)
  | TypeError (msg : string)
  | SystemExit (msg : string).

Inductive result (A : Type) : Type :=
  | Ok (a : A)
  | Raise (e : exn).
Arguments Ok {A} a.
Arguments Raise {A} e.

Global Instance result_ret : MRet result := λ A a, Ok a.
Global Instance result_bind : MBind result := λ A B f m,
  match m with
  | Ok a => f a
  | Raise e => Raise e
  end.

(** The exit status of the interpreter: an uncaught exception and a
    [SystemExit] carrying a message both end the process with status 1. *)
Definition exit_status {A} (r : result A) : Z :=
  match r with
  | Ok _ => 0%Z
  | Raise _ => 1%Z
  end.

(** ** Cells, series and data frames *)

Inductive cell : Type :=
  | NA
  | Str (s : string)
  | Num (q : Qc)
  | Tup (a b : string).

Global Instance cell_eq_dec : EqDecision cell.
Proof. solve_decision. Defined.

Global Instance cell_inhabited : Inhabited cell := populate NA.

Definition isna (c : cell) : bool :=
  match c with NA => true | _ => false end.

Definition notna (c : cell) : bool := negb (isna c).

Abbreviation Series := (list cell).

Record DataFrame : Type := mkDF {
  columns : list string;
  rows : list (list cell)
}.

(** [pd.DataFrame()] *)
Definition empty_frame : DataFrame := mkDF [] [].

(** [df.empty]: some axis has length zero. *)
Definition df_empty (df : DataFrame) : bool :=
  match columns df, rows df with
  | [], _ | _, [] => true
  | _, _ => false
  end.

(** Position of the first column with label [c]. *)
Definition col_index (c : string) (cols : list string) : option nat :=
  fst <$> list_find (λ x, x = c) cols.

Definition get_cell (cols : list string) (c : string) (r : list cell) : cell :=
  match col_index c cols with
  | Some i => default NA (r !! i)
  | None => NA
  end.

(** [df[c]] for a label known to be present. *)
Definition series (df : DataFrame) (c : string) : Series :=
  get_cell (columns df) c <$> rows df.

(** [df[c]], raising [KeyError] when the label is absent. *)
Definition getitem (df : DataFrame) (c : string) : result Series :=
  if decide (c ∈ columns df) then Ok (series df c) else Raise (KeyError c).

Definition set_cell (cols : list string) (c : string) (v : cell)
    (r : list cell) : list cell :=
  match col_index c cols with
  | Some i => <[i := v]> r
  | None => r ++ [v]
  end.

Definition add_label (c : string) (cols : list string) : list string :=
  match col_index c cols with
  | Some _ => cols
  | None => cols ++ [c]
  end.

(** [df[c] = vals]: overwrite the column in place when the label exists,
    append a new last column otherwise. *)
Definition set_column (c : string) (vals : Series) (df : DataFrame) : DataFrame :=
  mkDF (add_label c (columns df))
       (zip_with (λ r v, set_cell (columns df) c v r) (rows df) vals).

(** [df[mask]]: boolean row selection. *)
Fixpoint boolean_index {A} (mask : list bool) (l : list A) : list A :=
  match mask, l with
  | b :: mask', x :: l' =>
      if b then x :: boolean_index mask' l' else boolean_index mask' l'
  | _, _ => []
  end.

(** [s.fillna(other)]: element-wise, keep the value unless it is missing. *)
Definition fillna (s other : Series) : Series :=
  zip_with (λ a b, if isna a then b else a) s other.

(** A frame is rectangular when every row has one cell per label, and its
    labels are distinct. *)
Definition rectangular (df : DataFrame) : Prop :=
  Forall (λ r, length r = length (columns df)) (rows df).

Definition well_formed (df : DataFrame) : Prop :=
  NoDup (columns df) ∧ rectangular df.

(** ** Ordering of cells and keys

    pandas sorts group keys and pivoted labels; numbers come before
    strings, and missing values last. *)

Definition cell_class (c : cell) : nat :=
  match c with
  | Num _ => 0
  | Str _ => 1
  | Tup _ _ => 2
  | NA => 3
  end.

Definition cell_leb (a b : cell) : bool :=
  match a, b with
  | Num x, Num y => bool_decide (x ≤ y)%Qc
  | Str x, Str y => bool_decide (String.le x y)
  | Tup x1 x2, Tup y1 y2 =>
      if decide (x1 = y1) then bool_decide (String.le x2 y2)
      else bool_decide (String.le x1 y1)
  | _, _ => cell_class a <=? cell_class b
  end.

Fixpoint key_leb (k1 k2 : list cell) : bool :=
  match k1, k2 with
  | [], _ => true
  | _ :: _, [] => false
  | a :: k1', b :: k2' =>
      if decide (a = b) then key_leb k1' k2' else cell_leb a b
  end.

Definition cell_le (a b : cell) : Prop := cell_leb a b.
Definition key_le (k1 k2 : list cell) : Prop := key_leb k1 k2.

Global Instance cell_le_dec : RelDecision cell_le.
Proof. intros a b. unfold cell_le. apply _. Defined.
Global Instance key_le_dec : RelDecision key_le.
Proof. intros a b. unfold key_le. apply _. Defined.

(** ** pandas operations used by the program *)

Section Pipeline.

#[local] Set Default Proof Using "Type".

(** [str(x)] for a number [x]. *)
Variable repr_num : Qc → string.
(** [pd.to_numeric] on one text value: the number it denotes, if any. *)
Variable to_float : string → option Qc.
(** [int(s)], [None] standing for [ValueError]. *)
Variable py_int : string → option Z.

(** [str(val)]; a missing value prints as [nan]. *)
Definition py_str (val : cell) : string :=
  match val with
  | NA => "nan"
  | Str s => s
  | Num q => repr_num q
  | Tup a b => "('" +:+ a +:+ "', '" +:+ b +:+ "')"
  end.

Definition select_cells (cols cs : list string) (r : list cell) : list cell :=
  (λ c, get_cell cols c r) <$> cs.

(** [df[cs]] for a list of labels. *)
Definition select (df : DataFrame) (cs : list string) : DataFrame :=
  mkDF cs (select_cells (columns df) cs <$> rows df).

(** [df.rename(columns=m)] *)
Definition rename_columns (m : gmap string string) (df : DataFrame) : DataFrame :=
  mkDF ((λ c, default c (m !! c)) <$> columns df) (rows df).

(** [pd.concat(frames, ignore_index=True)]: the union of the labels in
    order of first appearance; a frame without a label contributes
    missing values. *)
Definition concat_frames (frames : list DataFrame) : DataFrame :=
  let cols := remove_dups (frames ≫= columns) in
  mkDF cols (frames ≫= (λ f, select_cells (columns f) cols <$> rows f)).

(** [df.drop_duplicates(subset=...)] on the rows, [key] reading the
    subset: a row is kept unless an earlier row has the same key. *)
Fixpoint drop_duplicates_from {K} `{EqDecision K} (key : list cell → K)
    (seen : list K) (l : list (list cell)) : list (list cell) :=
  match l with
  | [] => []
  | r :: l' =>
      if decide (key r ∈ seen) then drop_duplicates_from key seen l'
      else r :: drop_duplicates_from key (key r :: seen) l'
  end.

Definition drop_duplicates (subset : list string) (df : DataFrame) : result DataFrame :=
  match list_find (λ c, c ∉ columns df) subset with
  | Some (_, c) => Raise (KeyError c)
  | None =>
      Ok (mkDF (columns df)
               (drop_duplicates_from (select_cells (columns df) subset) [] (rows df)))
  end.

(** One record of the long table a pivot groups: index key, column key
    and value. *)
Definition long_rec : Type := list cell * cell * cell.

(** [GroupBy.first]: the first non-missing value of the group. *)
Definition group_first (recs : list long_rec) (g : list cell * cell) : cell :=
  hd NA (filter (λ v, notna v) (snd <$> filter (λ x, x.1 = g) recs)).

Definition lookup_agg (agged : list (list cell * cell * cell))
    (ik : list cell) (ck : cell) : cell :=
  default NA ((λ x, x.2.2) <$> list_find (λ x, x.1 = (ik, ck)) agged).

(** The stages of [df.pivot_table(index=index, columns=colkey,
    values=values, aggfunc='first')] with pandas' defaults [dropna=True]
    and [sort=True]. *)

(** The long records of the rows whose keys are all present: [groupby]
    leaves a row with a missing key out of every group. *)
Definition pivot_recs (df : DataFrame) (index : list string)
    (colkey values : string) : list long_rec :=
  filter (λ x, forallb notna x.1.1 && notna x.1.2)
    ((λ r, (select_cells (columns df) index r, get_cell (columns df) colkey r,
            get_cell (columns df) values r)) <$> rows df).

(** One aggregate per group; a group whose aggregate is missing is
    dropped ([agged.dropna(how="all")]). *)
Definition pivot_agged (recs : list long_rec) : list (list cell * cell * cell) :=
  filter (λ x, notna x.2)
    ((λ g, (g, group_first recs g)) <$> remove_dups (fst <$> recs)).

(** The index keys of the unstacked table: sorted, without repetition. *)
Definition pivot_index (agged : list (list cell * cell * cell)) : list (list cell) :=
  merge_sort key_le (remove_dups ((λ x, x.1.1) <$> agged)).

(** The pivoted labels: sorted, without repetition; a column without any
    value is dropped ([table.dropna(how="all", axis=1)]). *)
Definition pivot_labels (agged : list (list cell * cell * cell)) : list cell :=
  filter (λ ck, existsb (λ ik, notna (lookup_agg agged ik ck)) (pivot_index agged))
    (merge_sort cell_le (remove_dups ((λ x, x.1.2) <$> agged))).

(** [df.pivot_table(...).reset_index()] *)
Definition pivot_table_first (df : DataFrame) (index : list string)
    (colkey values : string) : result DataFrame :=
  match list_find (λ c, c ∉ columns df) (values :: index ++ [colkey]) with
  | Some (_, c) => Raise (KeyError c)
  | None =>
      let agged := pivot_agged (pivot_recs df index colkey values) in
      let cks := pivot_labels agged in
      Ok (mkDF (index ++ (py_str <$> cks))
               ((λ ik, ik ++ (lookup_agg agged ik <$> cks)) <$> pivot_index agged))
  end.

(** [pd.merge(left, right, how="left", on=on)]: every left row in
    order, once per right row with an equal key (missing keys equal each
    other), or once with missing right-hand values when there is none.
    A label the two sides share outside the key gets the suffixes [_x]
    and [_y]. *)
Definition merge_left (left right : DataFrame) (on : list string) : result DataFrame :=
  match list_find (λ c, c ∉ columns left) on, list_find (λ c, c ∉ columns right) on with
  | Some (_, c), _ | None, Some (_, c) => Raise (KeyError c)
  | None, None =>
      let rcols := filter (λ c, c ∉ on) (columns right) in
      let shared c := bool_decide ((c ∉ on) ∧ (c ∈ columns left) ∧ (c ∈ rcols)) in
      let lnames := (λ c, if shared c then c +:+ "_x" else c) <$> columns left in
      let rnames := (λ c, if shared c then c +:+ "_y" else c) <$> rcols in
      let key cols r := select_cells cols on r in
      Ok (mkDF (lnames ++ rnames)
               (rows left ≫= (λ l,
                  match filter (λ r, key (columns right) r = key (columns left) l)
                               (rows right) with
                  | [] => [l ++ replicate (length rcols) NA]
                  | ms => (λ r, l ++ select_cells (columns right) rcols r) <$> ms
                  end)))
  end.

(** Numbers are stored as canonical rationals ([Qc]); arithmetic is done
    on plain rationals ([Q]) and the result is stored with [Q2Qc]. *)
Definition Qn (n : nat) : Q := inject_Z (Z.of_nat n).

Definition Qc_of_nat (n : nat) : Qc := Q2Qc (Qn n).

Definition num_of (c : cell) : option Qc :=
  match c with Num q => Some q | _ => None end.

Definition sumQ (l : list Q) : Q := foldr Qplus 0%Q l.

(** The arithmetic mean of a non-empty list. *)
Definition meanQ (l : list Q) : Q := (sumQ l / Qn (length l))%Q.

(** [Series.rank(pct=True, na_option="bottom")] with the default
    [method="average"] and [ascending=True] on a numeric column: a value
    gets the average of the positions its tie group occupies in the
    ascending order; the missing values form the last tie group; the rank
    is divided by the number of rows. *)
Definition average_rank (s : Series) (v : cell) : Q :=
  let present := omap num_of s in
  match num_of v with
  | Some x =>
      let below := length (filter (λ y, (y < x)%Qc) present) in
      let ties := length (filter (λ y, y = x) present) in
      (Qn below + (Qn ties + 1) / 2)%Q
  | None =>
      let k := length present in
      (Qn k + (Qn (length s - k) + 1) / 2)%Q
  end.

Definition pct_rank (s : Series) (v : cell) : Q :=
  (average_rank s v / Qn (length s))%Q.

Definition rank_pct_bottom (s : Series) : list Q := pct_rank s <$> s.

(** [frame.mean(axis=1)] over columns given as lists of numbers: one
    mean per row position. *)
Definition mean_axis1 (cols : list (list Q)) (n : nat) : list Q :=
  (λ i, meanQ ((λ c, default 0%Q (c !! i)) <$> cols)) <$> seq 0 n.

(** [df.melt(id_vars, var_name, value_name)]: one block of rows per
    value column, in column order. *)
Definition melt (df : DataFrame) (id_vars : list string)
    (var_name value_name : string) : DataFrame :=
  let value_vars := filter (λ c, c ∉ id_vars) (columns df) in
  mkDF (id_vars ++ [var_name; value_name])
       (value_vars ≫= (λ v,
          (λ r, select_cells (columns df) id_vars r ++
                [Str v; get_cell (columns df) v r]) <$> rows df)).

(** [df.dropna()]: drop every row holding a missing value. *)
Definition dropna (df : DataFrame) : DataFrame :=
  mkDF (columns df) (filter (λ r, forallb notna r) (rows df)).

(** [Series.nunique()]: the number of distinct non-missing values. *)
Definition nunique (s : Series) : nat :=
  length (remove_dups (filter (λ v, notna v) s)).

Definition sort_Qc (l : list Qc) : list Qc := merge_sort Qcle l.

(** [Series.median()] of a non-empty list of numbers. *)
Definition median (l : list Qc) : Qc :=
  let s := sort_Qc l in
  let n := length s in
  let hi := default 0%Qc (s !! (n / 2)) in
  let lo := default 0%Qc (s !! (n / 2 - 1)) in
  if Nat.even n then Q2Qc ((lo + hi) / 2)%Q else hi.

(** [Series.mean()] of a non-empty list of numbers. *)
Definition mean (l : list Qc) : Qc := Q2Qc (meanQ (this <$> l)).

(** ** The program *)

Definition normalize_county (val : cell) : string :=
  foldl (λ s suffix,
           if PyStr.endswith s suffix
           then PyStr.drop_last (Strings.String.length suffix) s
           else s)
        (PyStr.strip (PyStr.upper (py_str val)))
        [" COUNTY"; " PARISH"].

(** [.astype(str).str.strip().str.upper()] on one value. *)
Definition strip_upper (val : cell) : string :=
  PyStr.upper (PyStr.strip (py_str val)).

Definition county_headers : list string :=
  ["county name"; "county/parish"; "county"].
Definition state_headers : list string :=
  ["provider state"; "state"].

Definition county_cols (df : DataFrame) : list string :=
  filter (λ c, PyStr.lower c ∈ county_headers) (columns df).
Definition state_cols (df : DataFrame) : list string :=
  filter (λ c, PyStr.lower c ∈ state_headers) (columns df).

(** [s = df[cs[0]].copy(); for c in cs[1:]: s = s.fillna(df[c])] *)
Definition coalesce (df : DataFrame) (cs : list string) : Series :=
  match cs with
  | [] => []
  | c0 :: cs' => foldl (λ s c, fillna s (series df c)) (series df c0) cs'
  end.

(** [list(zip(a, b))] as a column of tuples. *)
Definition zip_tuples (a b : Series) : Series :=
  zip_with (λ x y, Tup (py_str x) (py_str y)) a b.

(** [set(zip(a, b))] *)
Definition zip_set (a b : Series) : gset (string * string) :=
  list_to_set (zip (py_str <$> a) (py_str <$> b)).

(** [s.isin(allowed)] on one value. *)
Definition isin (allowed : gset (string * string)) (v : cell) : bool :=
  match v with
  | Tup a b => bool_decide ((a, b) ∈ allowed)
  | _ => false
  end.

Definition filter_to_counties (df counties : DataFrame) : result DataFrame :=
  if decide (county_cols df = [] ∨ state_cols df = []) then Ok df else
  let county_std := coalesce df (county_cols df) in
  let state_std := coalesce df (state_cols df) in
  let df1 := set_column "county_std" (Str ∘ normalize_county <$> county_std) df in
  let df2 := set_column "state_std" (Str ∘ strip_upper <$> state_std) df1 in
  c ← getitem counties "County";
  let cn1 := set_column "County" (Str ∘ normalize_county <$> c) counties in
  s ← getitem cn1 "StateCode";
  let cn2 := set_column "StateCode" (Str ∘ strip_upper <$> s) cn1 in
  let allowed := zip_set (series cn2 "County") (series cn2 "StateCode") in
  let df3 := set_column "county_state_key"
               (zip_tuples (series df2 "county_std") (series df2 "state_std")) df2 in
  Ok (mkDF (columns df3)
           (boolean_index (isin allowed <$> series df3 "county_state_key") (rows df3))).

(** *** Constants *)

Definition MEASURE_MAP : list (string * string) :=
  [ ("S_038_02_ADJ_RATE", "Pressure Ulcer Rate");
    ("S_013_02_OBS_RATE", "Fall with Major Injury Rate");
    ("S_004_01_PPR_PD_RSRR", "Preventable Readmission Rate");
    ("S_006_01_MSPB_SCORE", "Medicare Spending Per Beneficiary (MSPB)");
    ("S_005_02_DTC_RS_RATE", "Discharge to Community Rate");
    ("S_039_01_HAI_RS_RATE", "Healthcare-Associated Infection Rate");
    ("S_007_02_OBS_RATE", "Medication Review Rate");
    ("S_024_05_OBS_RATE", "Self-Care at Discharge");
    ("S_025_05_OBS_RATE", "Mobility at Discharge") ].

Definition measure_codes : list string := fst <$> MEASURE_MAP.
Definition measure_labels : list string := snd <$> MEASURE_MAP.

Definition join_key : list string :=
  ["provider_id"; "snapshot_year"; "snapshot_label"].

(** *** Loading *)

(** [s.str.upper()] on one value of an object column: a value that is
    not text becomes missing. *)
Definition str_upper (v : cell) : cell :=
  match v with Str s => Str (PyStr.upper s) | _ => NA end.

(** [load_counties], from the table [pd.read_csv] returns. *)
Definition load_counties (csv : DataFrame) : result DataFrame :=
  let df := mkDF (PyStr.strip <$> columns csv) (rows csv) in
  let df := mkDF (columns df)
              ((λ r : list cell,
                  (λ x, match x with Str s => Str (PyStr.strip s) | _ => x end) <$> r)
                 <$> rows df) in
  c ← getitem df "County";
  let df := set_column "County" (str_upper <$> c) df in
  s ← getitem df "StateCode";
  Ok (set_column "StateCode" (str_upper <$> s) df).

(** [df[c] = v] for a scalar [v]. *)
Definition set_scalar (c : string) (v : cell) (df : DataFrame) : DataFrame :=
  set_column c (replicate (length (rows df)) v) df.

Definition tag_snapshot (year : cell) (label : string) (df : DataFrame) : DataFrame :=
  set_scalar "snapshot_label" (Str label) (set_scalar "snapshot_year" year df).

(** [s.split("_")[-1]] *)
Fixpoint last_token (acc s : string) : string :=
  match s with
  | EmptyString => String.rev acc
  | String a s' =>
      if decide (a = "_"%char) then last_token "" s'
      else last_token (String a acc) s'
  end.

(** [s[-4:]] *)
Definition last4 (s : string) : string :=
  let n := Strings.String.length s in
  Strings.String.substring (n - 4) 4 s.

(** [load_archives], from the files the glob matches, in sorted path
    order, each with the table [pd.read_csv] returns.  The pattern ends
    in [.csv], so the stem is the name without its last four
    characters. *)
Definition load_archives (files : list (string * DataFrame)) : list DataFrame :=
  (λ f, let year_token := last_token "" (PyStr.drop_last 4 f.1) in
        let snap_year := match py_int (last4 year_token) with
                         | Some y => Num (Qc_of_Z y)
                         | None => NA
                         end in
        tag_snapshot snap_year f.1 f.2) <$> files.

(** [fetch_current_snapshot]: [live] is the outcome of the two network
    requests, [None] when either of them raised. *)
Definition fetch_current_snapshot (live : option DataFrame) (now_year : Z)
    : option DataFrame :=
  tag_snapshot (Num (Qc_of_Z now_year)) "current_api" <$> live.

(** *** Measure Pivot *)

(** [exact if exact in cols else next((c for c in cols if fallback c), None)] *)
Definition locate (exact : string) (fallback : string → bool)
    (cols : list string) : option string :=
  if decide (exact ∈ cols) then Some exact
  else snd <$> list_find (λ c, fallback c = true) cols.

Definition measure_fallback (c : string) : bool :=
  PyStr.contains "measure" (PyStr.lower c) && PyStr.contains "code" (PyStr.lower c).
Definition provider_fallback (c : string) : bool :=
  PyStr.contains "provider" (PyStr.lower c) && PyStr.contains "number" (PyStr.lower c).
Definition score_fallback (c : string) : bool :=
  bool_decide (PyStr.lower c = "score").

Definition CCN : string := "CMS Certification Number (CCN)".

(** [pd.to_numeric(s, errors='coerce')] on one value. *)
Definition to_numeric (v : cell) : cell :=
  match v with
  | Num q => Num q
  | Str s => from_option Num NA (to_float s)
  | _ => NA
  end.

Definition is_measure_code (v : cell) : bool :=
  match v with
  | Str s => bool_decide (s ∈ measure_codes)
  | _ => false
  end.

(** The rows of the known measures, with the coerced score:
    [subset = df[df[measure_col].isin(MEASURE_MAP.keys())].copy();
     subset['score_numeric'] = pd.to_numeric(subset[score_col], errors='coerce')] *)
Definition measure_subset (df : DataFrame) (measure_col score_col : string)
    : DataFrame :=
  let subset := mkDF (columns df)
                  (boolean_index (is_measure_code <$> series df measure_col)
                                 (rows df)) in
  set_column "score_numeric" (to_numeric <$> series subset score_col) subset.

Definition pivot_index_cols (provider_col : string) : list string :=
  [provider_col; "snapshot_year"; "snapshot_label"].

Definition pivot_measures (df : DataFrame) : result DataFrame :=
  match locate "Measure Code" measure_fallback (columns df),
        locate CCN provider_fallback (columns df),
        locate "Score" score_fallback (columns df) with
  | Some measure_col, Some provider_col, Some score_col =>
      let subset := measure_subset df measure_col score_col in
      pivot ← pivot_table_first subset (pivot_index_cols provider_col)
                measure_col "score_numeric";
      let pivot := rename_columns (list_to_map MEASURE_MAP) pivot in
      Ok (rename_columns {[ provider_col := "provider_id" ]} pivot)
  | _, _, _ => Ok empty_frame
  end.

(** *** Facility Attribute Extractor *)

Definition mapping : list (string * list string) :=
  [ ("provider_id", [CCN; "Federal Provider Number"; "Provider Number"; "provider_number"]);
    ("facility_name", ["Provider Name"; "Facility Name"; "facility_name"; "provider_name"]);
    ("address", ["Address Line 1"; "Address"; "address"; "Street Address"]);
    ("city", ["City/Town"; "City"; "city"]);
    ("state", ["State"; "state"; "Provider State"]);
    ("zip_code", ["ZIP Code"; "zip_code"; "Zip Code"; "zip"]);
    ("county_name", ["County/Parish"; "County Name"; "county_name"; "County"; "county"]);
    ("phone_number", ["Telephone Number"; "Phone Number"; "phone_number"; "Phone"; "phone"]) ].

(** The dictionary [col_map], as its items in insertion order. *)
Definition col_map (df : DataFrame) : list (string * string) :=
  omap (λ tc, (λ x, (tc.1, x.2)) <$> list_find (λ c, c ∈ columns df) tc.2) mapping.

Definition assoc (k : string) (m : list (string * string)) : option string :=
  (λ x, x.2.2) <$> list_find (λ kv, kv.1 = k) m.

Definition build_facility_table (df : DataFrame) : result DataFrame :=
  let cm := col_map df in
  match assoc "provider_id" cm with
  | None => Ok empty_frame
  | Some pcol =>
      let keep := (snd <$> cm) ++ ["snapshot_year"; "snapshot_label"] in
      let keep := filter (λ c, c ∈ columns df) keep in
      facilities ← drop_duplicates [pcol; "snapshot_year"] (select df keep);
      Ok (rename_columns (list_to_map ((λ kv, (kv.2, kv.1)) <$> reverse cm)) facilities)
  end.

(** *** Trend Aggregator *)

Definition trend_key (cols : list string) (r : list cell) : list cell :=
  select_cells cols ["measure"; "snapshot_year"] r.

(** The [groupby(...).agg(...).reset_index()] of [summarize_trends]:
    one row per group key in sorted order. *)
Definition agg_trends (long_df : DataFrame) : result DataFrame :=
  match list_find (λ c, c ∉ columns long_df)
                  ["measure"; "snapshot_year"; "provider_id"; "score"] with
  | Some (_, c) => Raise (KeyError c)
  | None =>
      let cols := columns long_df in
      let keyed := filter (λ r, forallb notna (trend_key cols r)) (rows long_df) in
      let groups := merge_sort key_le (remove_dups (trend_key cols <$> keyed)) in
      if forallb (λ r, bool_decide (is_Some (num_of (get_cell cols "score" r)))
                       || isna (get_cell cols "score" r)) keyed
      then
        Ok (mkDF ["measure"; "snapshot_year"; "facilities"; "avg_score"; "median_score"]
              ((λ g,
                  let members := filter (λ r, trend_key cols r = g) keyed in
                  let scores := omap (λ r, num_of (get_cell cols "score" r)) members in
                  g ++ [Num (Qc_of_nat (nunique (get_cell cols "provider_id" <$> members)));
                        if decide (scores = []) then NA else Num (mean scores);
                        if decide (scores = []) then NA else Num (median scores)])
               <$> groups))
      else Raise (TypeError "agg function failed")
  end.

(** [df.sort_values(by)] *)
Definition sort_values (by_ : list string) (df : DataFrame) : DataFrame :=
  mkDF (columns df)
       (merge_sort (λ r1 r2, key_le (select_cells (columns df) by_ r1)
                                    (select_cells (columns df) by_ r2))
                   (rows df)).

Definition summarize_trends (quality_wide : DataFrame) : result DataFrame :=
  if df_empty quality_wide then Ok quality_wide else
  let id_cols := filter (λ c, c ∈ columns quality_wide) join_key in
  let long_df := dropna (melt quality_wide id_cols "measure" "score") in
  trend ← agg_trends long_df;
  Ok (sort_values ["measure"; "snapshot_year"] trend).

(** *** Composite Scorer *)

Definition measure_cols (merged : DataFrame) : list string :=
  filter (λ m, m ∈ columns merged) measure_labels.

(** [merged[measure_cols].rank(pct=True, na_option="bottom", axis=0)
    .mean(axis=1)] *)
Definition composite (merged : DataFrame) (mcols : list string) : list Q :=
  mean_axis1 ((λ c, rank_pct_bottom (series merged c)) <$> mcols)
             (length (rows merged)).

Definition add_composite (merged : DataFrame) : DataFrame :=
  match measure_cols merged with
  | [] => merged
  | mcols => set_column "composite_raw"
               (Num ∘ Q2Qc <$> composite merged mcols) merged
  end.

(** *** Orchestrator *)

(** The output directory: file path to the table written there. *)
Definition file_system : Type := gmap string DataFrame.

Definition to_csv (path : string) (df : DataFrame) (fs : file_system) : file_system :=
  <[path := df]> fs.

Definition quality_csv (output_dir : string) : string :=
  output_dir +:+ "/snf_multi_year_quality.csv".
Definition trend_csv (output_dir : string) : string :=
  output_dir +:+ "/snf_trend_summary.csv".

Definition no_data : string := "No data loaded. Add archives or enable live API.".

(** The list [frames] of [run]: the archives, then the live snapshot when
    it is asked for and the fetch did not raise. *)
Definition load_frames (archive : list (string * DataFrame))
    (include_live : bool) (live : option DataFrame) (now_year : Z)
    : list DataFrame :=
  let archive_frames := load_archives archive in
  if include_live
  then match fetch_current_snapshot live now_year with
       | Some f => archive_frames ++ [f]
       | None => archive_frames
       end
  else archive_frames.

(** The tables [run] computes before it writes anything. *)
Definition run_tables (county_csv : DataFrame) (archive : list (string * DataFrame))
    (include_live : bool) (live : option DataFrame) (now_year : Z)
    : result (DataFrame * DataFrame) :=
  counties ← load_counties county_csv;
  let frames := load_frames archive include_live live now_year in
  if decide (frames = []) then Raise (SystemExit no_data) else
  let snf_raw := concat_frames frames in
  _ ← getitem snf_raw "snapshot_year";
  snf_filtered ← filter_to_counties snf_raw counties;
  _ ← getitem snf_filtered "snapshot_year";
  facilities ← build_facility_table snf_filtered;
  quality ← pivot_measures snf_filtered;
  merged ← merge_left quality facilities join_key;
  let merged := add_composite merged in
  trend_summary ← summarize_trends quality;
  Ok (merged, trend_summary).

(** [run]: the exit outcome and the files of the output directory. *)
Definition run (county_csv : DataFrame) (archive : list (string * DataFrame))
    (output_dir : string) (include_live : bool) (live : option DataFrame)
    (now_year : Z) (fs : file_system) : result () * file_system :=
  match run_tables county_csv archive include_live live now_year with
  | Raise e => (Raise e, fs)
  | Ok (merged, trend_summary) =>
      let fs := to_csv (quality_csv output_dir) merged fs in
      let fs := to_csv (trend_csv output_dir) trend_summary fs in
      (Ok (), fs)
  end.

(** *** Row-wise reading of the Geographic Filter *)

(** The unified county (state) value of a row: the first non-missing
    value among the candidate columns, left to right. *)
Definition unified (cols cs : list string) (r : list cell) : cell :=
  hd NA (filter (λ v, notna v) ((λ c, get_cell cols c r) <$> cs)).

Definition normalized_pair (df : DataFrame) (r : list cell) : string * string :=
  (normalize_county (unified (columns df) (county_cols df) r),
   strip_upper (unified (columns df) (state_cols df) r)).

Definition normalized_allow_list (counties : DataFrame) : gset (string * string) :=
  list_to_set ((λ p, (normalize_county p.1, strip_upper p.2)) <$>
               zip (series counties "County") (series counties "StateCode")).

Definition std_labels : list string :=
  ["county_std"; "state_std"; "county_state_key"].

(** The three helper cells the filter writes into a row. *)
Definition with_std (df : DataFrame) (r : list cell) : list cell :=
  let cols := columns df in
  let county := normalize_county (unified cols (county_cols df) r) in
  let state := strip_upper (unified cols (state_cols df) r) in
  let cols1 := add_label "county_std" cols in
  let cols2 := add_label "state_std" cols1 in
  set_cell cols2 "county_state_key" (Tup county state)
    (set_cell cols1 "state_std" (Str state)
       (set_cell cols "county_std" (Str county) r)).

(** An input row survives when some output row carries its values on
    every input column other than the three helper columns. *)
Definition survives (df out : DataFrame) (r : list cell) : Prop :=
  ∃ r', r' ∈ rows out ∧
    ∀ c, c ∈ columns df → c ∉ std_labels →
      get_cell (columns out) c r' = get_cell (columns df) c r.

(** The reading of the filter under which membership of the normalized
    pair decides survival on every table, whatever its columns. *)
Definition membership_decides_survival (df counties : DataFrame) : Prop :=
  ∀ out r, filter_to_counties df counties = Ok out → r ∈ rows df →
    (survives df out r ↔ normalized_pair df r ∈ normalized_allow_list counties).

(** *** Derived notions used in the statements *)

(** The labels of the filtered table. *)
Definition filtered_columns (df : DataFrame) : list string :=
  add_label "county_state_key"
    (add_label "state_std" (add_label "county_std" (columns df))).

(** All three pivot columns can be located. *)
Definition pivot_located (cols : list string) : bool :=
  bool_decide (is_Some (locate "Measure Code" measure_fallback cols) ∧
               is_Some (locate CCN provider_fallback cols) ∧
               is_Some (locate "Score" score_fallback cols)).

(** The reading of the missing-value policy under which the rows whose value in a measure column is
    missing have the smallest percentile rank of the column. *)
Definition missing_ranked_most_favorable (merged : DataFrame) : Prop :=
  ∀ c r r', c ∈ measure_cols merged → r ∈ rows merged → r' ∈ rows merged →
    get_cell (columns merged) c r = NA →
    (pct_rank (series merged c) (get_cell (columns merged) c r)
     <= pct_rank (series merged c) (get_cell (columns merged) c r'))%Q.

(** The renaming [{v: k for k, v in col_map.items()}] applied to one
    label. *)
Definition facility_rename (df : DataFrame) (c : string) : string :=
  default c ((list_to_map ((λ kv, (kv.2, kv.1)) <$> reverse (col_map df))
              : gmap string string) !! c).

(** The right-hand cells the join appends to a left row. *)
Definition joined_cells (left right : DataFrame) (on : list string)
    (l : list cell) : list cell :=
  let rcols := filter (λ c, c ∉ on) (columns right) in
  match filter (λ r, select_cells (columns right) on r
                     = select_cells (columns left) on l) (rows right) with
  | [] => replicate (length rcols) NA
  | r :: _ => select_cells (columns right) rcols r
  end.

(** The two renamings of [pivot_measures] applied to one label. *)
Definition pivot_rename (provider_col c : string) : string :=
  let c1 := default c ((list_to_map MEASURE_MAP : gmap string string) !! c) in
  default c1 (({[ provider_col := "provider_id" ]} : gmap string string) !! c1).

(** The first non-missing coerced score, in input order, among the
    source rows of one (provider, year, label, measure code) group. *)
Definition first_score (df : DataFrame) (provider_col measure_col score_col : string)
    (k : list cell) (code : string) : cell :=
  hd NA (filter (λ v, notna v)
    ((λ r, to_numeric (get_cell (columns df) score_col r)) <$>
     filter (λ r, select_cells (columns df) (pivot_index_cols provider_col) r = k ∧
                  get_cell (columns df) measure_col r = Str code)
            (rows df))).

(** Labels the program itself introduces. *)
Definition reserved_labels : list string :=
  measure_codes ++ measure_labels ++
  ["snapshot_year"; "snapshot_label"; "score_numeric"].

(** The long records of the pivot, read off the input table. *)
Definition source_recs (df : DataFrame) (pcol mcol scol : string) : list long_rec :=
  filter (λ x, forallb notna x.1.1 && notna x.1.2)
    ((λ r, (select_cells (columns df) (pivot_index_cols pcol) r,
            get_cell (columns df) mcol r,
            to_numeric (get_cell (columns df) scol r)))
     <$> filter (λ r, is_measure_code (get_cell (columns df) mcol r)) (rows df)).

(** A wide quality table: the three key labels, then distinct measure
    columns. *)
Definition wide_quality (qw : DataFrame) (mcols : list string) : Prop :=
  columns qw = join_key ++ mcols ∧ NoDup mcols ∧ Forall (λ c, c ∉ join_key) mcols.

(** A row takes part in the trend of a measure when its value for the
    measure is present (and its key cells are, as they are in every wide
    quality row). *)
Definition has_score (qw : DataFrame) (m : string) (r : list cell) : bool :=
  forallb notna (select_cells (columns qw) join_key r) &&
  notna (get_cell (columns qw) m r).




(** One row of the long table [melt] builds. *)
Definition long_row (qw : DataFrame) (m : string) (r : list cell) : list cell :=
  select_cells (columns qw) join_key r ++ [Str m; get_cell (columns qw) m r].

Definition long_columns : list string := join_key ++ ["measure"; "score"].

(** The long table after [dropna]. *)
Definition long_rows (qw : DataFrame) (mcols : list string) : list (list cell) :=
  mcols ≫= (λ m, long_row qw m <$> filter (λ r, has_score qw m r) (rows qw)).


Definition numeric_scores (cols : list string) (keyed : list (list cell)) : bool :=
  forallb (λ r, bool_decide (is_Some (num_of (get_cell cols "score" r)))
                || isna (get_cell cols "score" r)) keyed.

(** *** Worked inputs

    Concrete parameters and tables for the worked examples that follow
    the properties. *)

(** Unsigned decimal numerals. *)
Fixpoint digits_value (acc : Z) (s : string) : option Z :=
  match s with
  | EmptyString => Some acc
  | String a s' =>
      match Ascii.is_nat a with
      | Some d => digits_value (10 * acc + Z.of_nat d)%Z s'
      | None => None
      end
  end.

Definition decimal (s : string) : option Z :=
  match s with
  | EmptyString => None
  | _ => digits_value 0%Z s
  end.

Definition example_int : string → option Z := decimal.
Definition example_float (s : string) : option Qc := Qc_of_Z <$> decimal s.
(** The worked examples hold no number where text is read. *)
Definition example_repr (q : Qc) : string := "0".

Definition example_counties : DataFrame :=
  mkDF ["County"; "StateCode"] [[Str "SULLIVAN"; Str "TN"]].

Definition example_file : string :=
  "Skilled_Nursing_Facility_Quality_Reporting_Program_Provider_Data_Oct2023.csv".

(** Provider A1 has two rows for the pressure ulcer measure (scores 2
    and 9) and one unusable score for the fall measure; provider B2 has
    one row for each measure; provider C3 is in another county. *)
Definition example_raw : DataFrame :=
  mkDF ["CMS Certification Number (CCN)"; "Provider Name"; "County Name";
        "Provider State"; "Measure Code"; "Score"]
    [ [Str "A1"; Str "Alpha"; Str "Sullivan County"; Str "TN";
       Str "S_038_02_ADJ_RATE"; Str "2"];
      [Str "B2"; Str "Beta"; Str "Sullivan County"; Str "TN";
       Str "S_038_02_ADJ_RATE"; Str "4"];
      [Str "B2"; Str "Beta"; Str "Sullivan County"; Str "TN";
       Str "S_013_02_OBS_RATE"; Str "7"];
      [Str "A1"; Str "Alpha"; Str "Sullivan County"; Str "TN";
       Str "S_038_02_ADJ_RATE"; Str "9"];
      [Str "A1"; Str "Alpha"; Str "Sullivan County"; Str "TN";
       Str "S_013_02_OBS_RATE"; Str "Not Available"];
      [Str "C3"; Str "Gamma"; Str "Knox County"; Str "TN";
       Str "S_038_02_ADJ_RATE"; Str "1"] ].

(** The extract as [load_archives] tags it. *)
Definition example_tagged : DataFrame :=
  tag_snapshot (Num (Qc_of_Z 2023)) example_file example_raw.

(** The same extract without its [Score] column. *)
Definition example_raw_no_score : DataFrame :=
  mkDF ["CMS Certification Number (CCN)"; "Provider Name"; "County Name";
        "Provider State"; "Measure Code"]
    [ [Str "A1"; Str "Alpha"; Str "Sullivan County"; Str "TN";
       Str "S_038_02_ADJ_RATE"] ].

(** The scenario of the specification: one row of Sullivan County, TN. *)
Definition sullivan_row : list cell :=
  [Str "445001"; Str "Sullivan County"; Str "TN"].

Definition sullivan_table : DataFrame :=
  mkDF ["CMS Certification Number (CCN)"; "County Name"; "Provider State"]
    [ sullivan_row; [Str "445002"; Str "Knox County"; Str "TN"] ].

(** A table with a county column and no state column. *)
Definition knox_row : list cell := [Str "445002"; Str "Knox County"].

Definition knox_stateless : DataFrame :=
  mkDF ["CMS Certification Number (CCN)"; "County Name"] [ knox_row ].

(** A joined table with one measure column: a value and a missing value. *)
Definition example_merged : DataFrame :=
  mkDF ["provider_id"; "snapshot_year"; "snapshot_label"; "Pressure Ulcer Rate"]
    [ [Str "A1"; Num (Qc_of_Z 2023); Str "f"; Num (Qc_of_Z 1)];
      [Str "B2"; Num (Qc_of_Z 2023); Str "f"; NA] ].



(** *** Auxiliary notions for the further properties *)

(** A string transformed character by character. *)
Fixpoint map_chars (f : ascii → ascii) (s : string) : string :=
  match s with
  | EmptyString => EmptyString
  | String a s' => String (f a) (map_chars f s')
  end.

(** Every cell of column [c] is text. *)
Definition text_column (df : DataFrame) (c : string) : Prop :=
  ∀ r, r ∈ rows df → ∃ s, get_cell (columns df) c r = Str s.

(** The county file as [pd.read_csv] returns it, with its headers
    stripped. *)
Definition stripped_headers (csv : DataFrame) : DataFrame :=
  mkDF (PyStr.strip <$> columns csv) (rows csv).

(** The year cell [load_archives] derives from the text of the year. *)
Definition year_cell (y : string) : cell :=
  match py_int y with
  | Some v => Num (Qc_of_Z v)
  | None => NA
  end.

(** The headers [build_facility_table] accepts as the provider column. *)
Definition provider_candidates : list string :=
  [CCN; "Federal Provider Number"; "Provider Number"; "provider_number"].

(** The labels [build_facility_table] keeps, before they are renamed. *)
Definition facility_keep (df : DataFrame) : list string :=
  filter (λ c, c ∈ columns df)
         ((snd <$> col_map df) ++ ["snapshot_year"; "snapshot_label"]).

(** The (provider, year) pair [build_facility_table] deduplicates on. *)
Definition facility_key (df : DataFrame) (pcol : string) (r : list cell) : list cell :=
  [get_cell (columns df) pcol r; get_cell (columns df) "snapshot_year" r].

(** Row [i] is the first row of the table with its (provider, year)
    pair. *)
Definition first_of_key (df : DataFrame) (pcol : string) (i : nat) (r : list cell)
    : Prop :=
  rows df !! i = Some r ∧
  ∀ j r', j < i → rows df !! j = Some r' → facility_key df pcol r' ≠ facility_key df pcol r.

(** A number or a missing value: what a score column may hold. *)
Definition numeric_cell (c : cell) : bool :=
  bool_decide (is_Some (num_of c)) || isna c.

(** [rank_le a b]: the value [a] is at least as favourable as [b] under
    the ascending ranking, where a missing value comes after every
    number. *)
Definition rank_le (a b : cell) : bool :=
  match num_of a, num_of b with
  | Some x, Some y => bool_decide (x ≤ y)%Qc
  | _, None => true
  | None, Some _ => false
  end.

(** A county file with padded headers and values in mixed case. *)
Definition example_county_csv : DataFrame :=
  mkDF [" County"; "StateCode "] [[Str " Sullivan "; Str "tn"]].

(** An allow-list of two counties. *)
Definition example_counties_two : DataFrame :=
  mkDF ["County"; "StateCode"] [[Str "SULLIVAN"; Str "TN"]; [Str "KNOX"; Str "TN"]].

(** An extract whose provider column only the pivot's fallback finds. *)
Definition example_raw_fallback : DataFrame :=
  mkDF ["Provider Number ID"; "County Name"; "Provider State"; "Measure Code"; "Score"]
    [ [Str "A1"; Str "Sullivan County"; Str "TN"; Str "S_038_02_ADJ_RATE"; Str "2"] ].

(** [example_merged] with its two rows exchanged. *)
Definition example_merged_swapped : DataFrame :=
  mkDF ["provider_id"; "snapshot_year"; "snapshot_label"; "Pressure Ulcer Rate"]
    [ [Str "B2"; Num (Qc_of_Z 2023); Str "f"; NA];
      [Str "A1"; Num (Qc_of_Z 2023); Str "f"; Num (Qc_of_Z 1)] ].


(** * Properties *)

(** ** The exception monad *)

Lemma bind_Ok {A B} (m : result A) (f : A → result B) (b : B) :
  m ≫= f = Ok b ↔ ∃ a, m = Ok a ∧ f a = Ok b.
Proof.
  destruct m as [a|e]; cbn; split; try done; eauto.
  - by intros (a' & [= <-] & ?).
  - by intros (a' & [=] & ?).
Qed.

Lemma Ok_inj {A} (a b : A) : Ok a = Ok b → a = b.
Proof. congruence. Qed.

Lemma bind_Ok_l {A B} (m : result A) (f : A → result B) (a : A) :
  m = Ok a → m ≫= f = f a.
Proof. by intros ->. Qed.

(** ** Labels and cells *)

Lemma col_index_Some c cols i :
  col_index c cols = Some i →
  cols !! i = Some c ∧ ∀ j x, cols !! j = Some x → j < i → x ≠ c.
Proof.
  unfold col_index. destruct (list_find _ cols) as [[j y]|] eqn:E; [|done].
  intros [= <-]. apply list_find_Some in E as (Hl & -> & Hmin). eauto.
Qed.

Lemma col_index_None c cols : col_index c cols = None ↔ c ∉ cols.
Proof.
  unfold col_index. rewrite fmap_None, list_find_None, Forall_forall. split.
  - intros H Hc. by apply (H c).
  - by intros H x Hx ->.
Qed.

Lemma col_index_is_Some c cols : is_Some (col_index c cols) ↔ c ∈ cols.
Proof.
  rewrite <-not_eq_None_Some, col_index_None.
  destruct (decide (c ∈ cols)) as [Hin|Hout]; split; try done.
  intros _ H. by apply H.
Qed.

Lemma col_index_lt c cols i : col_index c cols = Some i → i < length cols.
Proof. intros [H _]%col_index_Some. by eapply lookup_lt_Some. Qed.

Lemma col_index_app_l c cols more :
  c ∈ cols → col_index c (cols ++ more) = col_index c cols.
Proof.
  intros Hc. apply col_index_is_Some in Hc as [i Hi]. rewrite Hi.
  unfold col_index in *.
  destruct (list_find _ cols) as [[j y]|] eqn:E; simplify_eq/=.
  by erewrite list_find_app_l.
Qed.

Lemma col_index_app_r c cols more :
  c ∉ cols → col_index c (cols ++ more) = (λ i, length cols + i) <$> col_index c more.
Proof.
  intros Hc. apply col_index_None in Hc. unfold col_index in *.
  apply fmap_None in Hc. rewrite list_find_app_r by done.
  destruct (list_find _ more) as [[j y]|]; simpl; [f_equal; lia|done].
Qed.

Lemma col_index_cons_eq c cols : col_index c (c :: cols) = Some 0.
Proof. unfold col_index. simpl. by rewrite decide_True. Qed.

Lemma col_index_cons_ne c d cols :
  d ≠ c → col_index c (d :: cols) = S <$> col_index c cols.
Proof.
  intros. unfold col_index. simpl. rewrite decide_False by done.
  destruct (list_find _ cols) as [[j y]|]; done.
Qed.

Lemma add_label_elem c cols : c ∈ add_label c cols.
Proof.
  unfold add_label. destruct (col_index c cols) eqn:E.
  - apply col_index_is_Some; eauto.
  - apply elem_of_app. right. by left.
Qed.

Lemma add_label_subseteq c cols : cols ⊆ add_label c cols.
Proof.
  unfold add_label. destruct (col_index c cols); [done|].
  intros x Hx. apply elem_of_app. by left.
Qed.

Lemma add_label_present c cols : c ∈ cols → add_label c cols = cols.
Proof.
  intros [i Hi]%col_index_is_Some. unfold add_label. by rewrite Hi.
Qed.

Lemma elem_of_add_label d c cols : d ∈ add_label c cols ↔ d ∈ cols ∨ d = c.
Proof.
  unfold add_label. destruct (col_index c cols) eqn:E.
  - assert (c ∈ cols) by (apply col_index_is_Some; eauto).
    split; [auto|]. by intros [?| ->].
  - rewrite elem_of_app, list_elem_of_singleton. done.
Qed.

Lemma set_cell_length cols c v r :
  length r = length cols →
  length (set_cell cols c v r) = length (add_label c cols).
Proof.
  intros Hr. unfold set_cell, add_label. destruct (col_index c cols).
  - by rewrite length_insert.
  - rewrite !length_app. simpl. lia.
Qed.

Lemma get_set_eq cols c v r :
  length r = length cols →
  get_cell (add_label c cols) c (set_cell cols c v r) = v.
Proof.
  intros Hr. unfold get_cell, set_cell, add_label.
  destruct (col_index c cols) as [i|] eqn:E.
  - rewrite E. rewrite list_lookup_insert_eq; [done|].
    apply col_index_lt in E. lia.
  - rewrite col_index_app_r by (by apply col_index_None).
    rewrite col_index_cons_eq. simpl.
    rewrite lookup_app_r by lia.
    replace (length cols + 0 - length r) with 0 by lia. done.
Qed.

Lemma get_set_ne cols c d v r :
  d ≠ c → length r = length cols →
  get_cell (add_label c cols) d (set_cell cols c v r) = get_cell cols d r.
Proof.
  intros Hd Hr. unfold get_cell, set_cell, add_label.
  destruct (col_index c cols) as [i|] eqn:E.
  - destruct (col_index d cols) as [j|] eqn:F; [|done].
    rewrite list_lookup_insert_ne; [done|].
    intros ->. apply col_index_Some in E as [E _].
    apply col_index_Some in F as [F _]. congruence.
  - destruct (decide (d ∈ cols)) as [Hin|Hout].
    + rewrite col_index_app_l by done.
      destruct (col_index d cols) as [j|] eqn:F; [|done].
      apply col_index_lt in F. rewrite lookup_app_l by lia. done.
    + rewrite col_index_app_r by done.
      rewrite col_index_cons_ne by done. simpl.
      apply col_index_None in Hout. by rewrite Hout.
Qed.

Lemma set_cell_same cols c v r :
  c ∈ cols → length r = length cols → get_cell cols c r = v →
  set_cell cols c v r = r.
Proof.
  intros [i Hi]%col_index_is_Some Hr. unfold get_cell, set_cell.
  rewrite Hi. intros Hv.
  apply list_insert_id. apply col_index_lt in Hi.
  destruct (r !! i) eqn:E; simpl in *; [by subst|].
  apply lookup_ge_None in E. lia.
Qed.

Lemma get_cell_absent cols c r : c ∉ cols → get_cell cols c r = NA.
Proof. intros H%col_index_None. unfold get_cell. by rewrite H. Qed.

Lemma zip_with_fmap_same {A B C D} (f : B → C → D) (g : A → B) (h : A → C) l :
  zip_with f (g <$> l) (h <$> l) = (λ x, f (g x) (h x)) <$> l.
Proof. induction l; simpl; f_equal; done. Qed.

Lemma zip_with_fmap_same_l {A C D} (f : A → C → D) (h : A → C) (l : list A) :
  zip_with f l (h <$> l) = (λ x, f x (h x)) <$> l.
Proof. induction l; simpl; f_equal; done. Qed.

Lemma boolean_index_fmap {A} (p : A → bool) (l : list A) :
  boolean_index (p <$> l) l = filter (λ x, p x) l.
Proof.
  induction l as [|x l IH]; [done|].
  rewrite fmap_cons. cbn [boolean_index]. rewrite IH, filter_cons.
  destruct (p x); simpl; by repeat case_decide.
Qed.

Lemma boolean_index_fmap2 {A B} (p : B → bool) (g : A → B) (l : list A) :
  boolean_index (p ∘ g <$> l) l = filter (λ x, p (g x)) l.
Proof. apply (boolean_index_fmap (p ∘ g)). Qed.

Lemma set_column_rows_fmap c (g : list cell → cell) df :
  rows (set_column c (g <$> rows df) df)
  = (λ r, set_cell (columns df) c (g r) r) <$> rows df.
Proof. unfold set_column. simpl. apply zip_with_fmap_same_l. Qed.

Lemma set_column_rectangular c vals df :
  rectangular df → rectangular (set_column c vals df).
Proof.
  unfold rectangular, set_column. simpl. intros H.
  revert vals. induction H as [|r rs Hr _ IH]; intros [|v vals]; simpl;
    try constructor; auto using set_cell_length.
Qed.

(** ** Rational arithmetic of ranks and means *)

Ltac half_lra :=
  unfold Qdiv in *; change (/ 2)%Q with (1 # 2)%Q in *; lra.

Lemma Qn_nonneg n : (0 <= Qn n)%Q.
Proof. unfold Qn. rewrite <-(Zle_Qle 0). lia. Qed.

Lemma Qn_pos n : 0 < n → (0 < Qn n)%Q.
Proof. intros. unfold Qn. rewrite <-(Zlt_Qlt 0). lia. Qed.

Lemma Qn_le a b : a ≤ b → (Qn a <= Qn b)%Q.
Proof. intros. unfold Qn. rewrite <-Zle_Qle. lia. Qed.

Lemma Qn_plus a b : (Qn (a + b) == Qn a + Qn b)%Q.
Proof. unfold Qn. rewrite Nat2Z.inj_add, inject_Z_plus. reflexivity. Qed.


Lemma Qn_minus a b : b ≤ a → (Qn (a - b) == Qn a - Qn b)%Q.
Proof.
  intros. unfold Qn. rewrite Nat2Z.inj_sub by done.
  unfold Zminus. rewrite inject_Z_plus, inject_Z_opp. reflexivity.
Qed.

Lemma length_filter_disjoint {A} (P Q : A → Prop)
    `{!∀ x, Decision (P x)} `{!∀ x, Decision (Q x)} (l : list A) :
  (∀ x, P x → Q x → False) →
  length (filter P l) + length (filter Q l) ≤ length l.
Proof.
  intros HPQ. induction l as [|x l IH]; [done|].
  rewrite !filter_cons. destruct (decide (P x)), (decide (Q x)); simpl; try lia.
  exfalso; eauto.
Qed.

Lemma omap_cons {A B} (f : A → option B) x (l : list A) :
  omap f (x :: l)
  = match f x with Some y => y :: omap f l | None => omap f l end.
Proof. done. Qed.

Lemma length_omap_le {A B} (f : A → option B) (l : list A) :
  length (omap f l) ≤ length l.
Proof.
  induction l as [|x l IH]; [done|].
  rewrite omap_cons. destruct (f x); simpl; lia.
Qed.

Lemma length_omap_lt {A B} (f : A → option B) (l : list A) x :
  x ∈ l → f x = None → length (omap f l) < length l.
Proof.
  induction 1 as [x l|x y l _ IH]; intros Hx; rewrite omap_cons.
  - rewrite Hx. pose proof (length_omap_le f l). simpl. lia.
  - specialize (IH Hx). destruct (f y); simpl; lia.
Qed.

Lemma length_filter_pos {A} (P : A → Prop) `{!∀ x, Decision (P x)} (l : list A) x :
  x ∈ l → P x → 0 < length (filter P l).
Proof.
  intros Hx HP. assert (x ∈ filter P l) as Hf by (by apply list_elem_of_filter).
  destruct (filter P l); [by apply elem_of_nil in Hf|simpl; lia].
Qed.

(** The average rank of a value of the column lies between 1 and the
    number of rows. *)
Lemma average_rank_bounds s v :
  v ∈ s → (1 <= average_rank s v <= Qn (length s))%Q.
Proof.
  intros Hv. unfold average_rank.
  pose proof (length_omap_le num_of s) as Hk.
  destruct (num_of v) as [x|] eqn:Ex.
  - set (present := omap num_of s) in *.
    assert (x ∈ present) as Hx by (apply list_elem_of_omap; eauto).
    pose proof (length_filter_pos (λ y, y = x) present x Hx eq_refl) as Ht.
    pose proof (length_filter_disjoint (λ y, (y < x)%Qc) (λ y, y = x) present) as Hd.
    assert (∀ y : Qc, (y < x)%Qc → y = x → False) as Hex.
    { intros y Hlt ->. by apply Qclt_not_eq in Hlt. }
    specialize (Hd Hex).
    set (below := length (filter (λ y, (y < x)%Qc) present)) in *.
    set (ties := length (filter (λ y, y = x) present)) in *.
    pose proof (Qn_nonneg below). pose proof (Qn_le 1 ties Ht) as H1.
    pose proof (Qn_le (below + ties) (length s) ltac:(lia)) as H2.
    rewrite Qn_plus in H2. change (Qn 1) with 1%Q in H1.
    split; half_lra.
  - pose proof (length_omap_lt num_of s v Hv Ex) as Hlt.
    set (k := length (omap num_of s)) in *.
    pose proof (Qn_minus (length s) k ltac:(lia)) as Hm.
    pose proof (Qn_le 1 (length s - k) ltac:(lia)) as H1.
    change (Qn 1) with 1%Q in H1. pose proof (Qn_nonneg k).
    split; half_lra.
Qed.

(** A missing value ranks after every present value of its column. *)
Lemma average_rank_missing_last s v w x :
  v ∈ s → num_of v = None → num_of w = Some x →
  (average_rank s w < average_rank s v)%Q.
Proof.
  intros Hv Ev Ew. unfold average_rank. rewrite Ev, Ew.
  pose proof (length_omap_lt num_of s v Hv Ev) as Hlt.
  set (present := omap num_of s) in *.
  pose proof (length_filter_disjoint (λ y, (y < x)%Qc) (λ y, y = x) present) as Hd.
  assert (∀ y : Qc, (y < x)%Qc → y = x → False) as Hex.
  { intros y Hl ->. by apply Qclt_not_eq in Hl. }
  specialize (Hd Hex).
  set (below := length (filter (λ y, (y < x)%Qc) present)) in *.
  set (ties := length (filter (λ y, y = x) present)) in *.
  pose proof (Qn_le (below + ties) (length present) Hd) as H2.
  rewrite Qn_plus in H2.
  pose proof (Qn_minus (length s) (length present) ltac:(lia)) as Hm.
  pose proof (Qn_le 1 (length s - length present) ltac:(lia)) as H1.
  change (Qn 1) with 1%Q in H1.
  pose proof (Qn_nonneg below). pose proof (Qn_nonneg ties).
  half_lra.
Qed.

Lemma average_rank_missing_eq s v w :
  num_of v = None → num_of w = None → average_rank s v = average_rank s w.
Proof. intros Ev Ew. unfold average_rank. by rewrite Ev, Ew. Qed.

Lemma length_pos_elem {A} (l : list A) x : x ∈ l → 0 < length l.
Proof. destruct 1; simpl; lia. Qed.

Lemma pct_rank_bounds s v : v ∈ s → (0 < pct_rank s v <= 1)%Q.
Proof.
  intros Hv. pose proof (average_rank_bounds s v Hv) as [H1 H2].
  pose proof (Qn_pos (length s) (length_pos_elem s v Hv)) as Hn.
  unfold pct_rank. split.
  - apply Qlt_shift_div_l; [done|]. lra.
  - apply Qle_shift_div_r; [done|]. lra.
Qed.

Lemma pct_rank_missing_last s v w x :
  v ∈ s → num_of v = None → num_of w = Some x →
  (pct_rank s w < pct_rank s v)%Q.
Proof.
  intros Hv Ev Ew.
  pose proof (average_rank_missing_last s v w x Hv Ev Ew) as Hlt.
  pose proof (Qn_pos (length s) (length_pos_elem s v Hv)) as Hn.
  unfold pct_rank, Qdiv. apply Qmult_lt_compat_r; [|done].
  by apply Qinv_lt_0_compat.
Qed.

Lemma pct_rank_missing_max s v w :
  v ∈ s → num_of v = None → (pct_rank s w <= pct_rank s v)%Q.
Proof.
  intros Hv Ev. destruct (num_of w) as [x|] eqn:Ew.
  - apply Qlt_le_weak. by eapply pct_rank_missing_last.
  - unfold pct_rank. rewrite (average_rank_missing_eq s w v Ew Ev). apply Qle_refl.
Qed.




(** ** Labels along the pipeline *)

Lemma tag_snapshot_columns year label df :
  "snapshot_year" ∈ columns (tag_snapshot year label df) ∧
  "snapshot_label" ∈ columns (tag_snapshot year label df).
Proof.
  unfold tag_snapshot, set_scalar, set_column. simpl. split.
  - apply add_label_subseteq, add_label_elem.
  - apply add_label_elem.
Qed.

Lemma load_frames_tagged archive include_live live now_year f :
  f ∈ load_frames archive include_live live now_year →
  "snapshot_year" ∈ columns f ∧ "snapshot_label" ∈ columns f.
Proof.
  assert (∀ g, g ∈ load_archives archive →
            "snapshot_year" ∈ columns g ∧ "snapshot_label" ∈ columns g) as Ha.
  { intros g (x & -> & _)%list_elem_of_fmap. apply tag_snapshot_columns. }
  unfold load_frames, fetch_current_snapshot.
  destruct include_live; [|by auto].
  destruct live as [d|]; simpl; [|by auto].
  intros [?| ->%list_elem_of_singleton]%elem_of_app;
    [by auto|apply tag_snapshot_columns].
Qed.

Lemma concat_frames_columns frames f c :
  f ∈ frames → c ∈ columns f → c ∈ columns (concat_frames frames).
Proof.
  intros Hf Hc. unfold concat_frames. simpl.
  apply elem_of_remove_dups, list_elem_of_bind. eauto.
Qed.

Lemma concat_frames_snapshot_year archive include_live live now_year :
  load_frames archive include_live live now_year ≠ [] →
  "snapshot_year" ∈ columns (concat_frames (load_frames archive include_live live now_year)).
Proof.
  destruct (load_frames _ _ _ _) as [|f fs] eqn:E; [done|]. intros _.
  apply (concat_frames_columns _ f); [by left|].
  eapply (load_frames_tagged archive include_live live now_year). rewrite E. by left.
Qed.

Lemma getitem_Ok df c : c ∈ columns df → getitem df c = Ok (series df c).
Proof. intros. unfold getitem. by rewrite decide_True. Qed.

Lemma getitem_inv df c s : getitem df c = Ok s → c ∈ columns df ∧ s = series df c.
Proof. unfold getitem. case_decide; [|done]. by intros <-%Ok_inj. Qed.

Lemma load_counties_columns csv counties :
  load_counties csv = Ok counties →
  "County" ∈ columns counties ∧ "StateCode" ∈ columns counties.
Proof.
  unfold load_counties.
  intros (c & _ & (s & [H2 _]%getitem_inv & [= <-])%bind_Ok)%bind_Ok.
  unfold set_column in *; simpl in *. split.
  - apply add_label_subseteq, add_label_elem.
  - apply add_label_elem.
Qed.

Lemma filter_to_counties_columns df counties out :
  filter_to_counties df counties = Ok out →
  columns out = columns df ∨ columns out = filtered_columns df.
Proof.
  unfold filter_to_counties. case_decide; [intros [= <-]; by left|].
  intros (c & _ & (s & _ & [= <-])%bind_Ok)%bind_Ok. by right.
Qed.

Lemma filter_to_counties_keeps_labels df counties out c :
  filter_to_counties df counties = Ok out → c ∈ columns df → c ∈ columns out.
Proof.
  intros [->| ->]%filter_to_counties_columns; [done|].
  intros. unfold filtered_columns. by do 3 apply add_label_subseteq.
Qed.

Lemma filter_to_counties_Ok df counties :
  "County" ∈ columns counties → "StateCode" ∈ columns counties →
  ∃ out, filter_to_counties df counties = Ok out.
Proof.
  intros Hc Hs. unfold filter_to_counties. case_decide; [eauto|].
  rewrite getitem_Ok by done. cbn [mbind result_bind].
  rewrite getitem_Ok; [cbn; eauto|].
  unfold set_column. simpl. by apply add_label_subseteq.
Qed.

Lemma assoc_Some k m v : assoc k m = Some v → (k, v) ∈ m.
Proof.
  unfold assoc. destruct (list_find _ m) as [[i [k' v']]|] eqn:E; [|done].
  intros [= <-]. apply list_find_Some in E as (E & Hk & _). simpl in Hk. subst.
  by eapply list_elem_of_lookup_2.
Qed.

Lemma col_map_elem df t c :
  (t, c) ∈ col_map df →
  c ∈ columns df ∧ ∃ cands, (t, cands) ∈ mapping ∧ c ∈ cands.
Proof.
  unfold col_map. intros ([t' cands] & Hin & Hf)%list_elem_of_omap.
  simpl in Hf. destruct (list_find _ cands) as [[i x]|] eqn:E; simplify_eq/=.
  apply list_find_Some in E as (E & Hx & _).
  split; [done|]. exists cands. split; [done|]. by eapply list_elem_of_lookup_2.
Qed.

Lemma drop_duplicates_Ok subset df :
  subset ⊆ columns df →
  drop_duplicates subset df
  = Ok (mkDF (columns df)
          (drop_duplicates_from (select_cells (columns df) subset) [] (rows df))).
Proof.
  intros Hs. unfold drop_duplicates.
  destruct (list_find _ subset) as [[i c]|] eqn:E; [|done].
  apply list_find_Some in E as (E & Hc & _).
  exfalso. apply Hc, Hs. by eapply list_elem_of_lookup_2.
Qed.

(** The attribute extraction cannot raise on a table that carries the
    snapshot year. *)
Lemma build_facility_table_Ok df :
  "snapshot_year" ∈ columns df → ∃ f, build_facility_table df = Ok f.
Proof.
  intros Hy. unfold build_facility_table.
  destruct (assoc "provider_id" (col_map df)) as [pcol|] eqn:E; [|eauto].
  apply assoc_Some in E. pose proof (col_map_elem _ _ _ E) as [Hp _].
  rewrite drop_duplicates_Ok; [cbn; eauto|].
  simpl. intros c [->|[->|[]%elem_of_nil]%elem_of_cons]%elem_of_cons.
  - apply list_elem_of_filter. split; [done|]. apply elem_of_app. left.
    apply list_elem_of_fmap. by exists ("provider_id", pcol).
  - apply list_elem_of_filter. split; [done|]. apply elem_of_app. right. by left.
Qed.

(** ** The composite scorer *)

Lemma rank_pct_bottom_lookup s i v :
  s !! i = Some v → rank_pct_bottom s !! i = Some (pct_rank s v).
Proof. intros H. unfold rank_pct_bottom. by rewrite list_lookup_fmap, H. Qed.

Lemma series_lookup df c i r :
  rows df !! i = Some r → series df c !! i = Some (get_cell (columns df) c r).
Proof. intros H. unfold series. by rewrite list_lookup_fmap, H. Qed.

Lemma mean_axis1_lookup cols n i :
  i < n →
  mean_axis1 cols n !! i = Some (meanQ ((λ c, default 0%Q (c !! i)) <$> cols)).
Proof.
  intros Hi. unfold mean_axis1. rewrite list_lookup_fmap.
  by rewrite lookup_seq_lt.
Qed.

(** The composite of a row is the mean, over the measure columns, of the
    percentile rank of the row's value in the column. *)
Lemma composite_lookup merged mcols i r :
  rows merged !! i = Some r →
  composite merged mcols !! i
  = Some (meanQ ((λ c, pct_rank (series merged c) (get_cell (columns merged) c r))
                   <$> mcols)).
Proof.
  intros Hr. unfold composite.
  rewrite mean_axis1_lookup by (by eapply lookup_lt_Some).
  f_equal. f_equal. rewrite <-list_fmap_compose. apply list_fmap_ext.
  intros j c _. simpl.
  by rewrite (rank_pct_bottom_lookup _ _ _ (series_lookup _ c _ _ Hr)).
Qed.

Lemma composite_length merged mcols :
  length (composite merged mcols) = length (rows merged).
Proof. unfold composite, mean_axis1. by rewrite length_fmap, length_seq. Qed.


(** C1, as the code has it.  With [na_option="bottom"] a row whose value
    in a measure column is missing is assigned the rank of the last tie
    group: its percentile rank is positive, at most 1, at least that of
    every row of the column and strictly above that of every row with a
    value, so under the ascending lower-is-better ranking it is the least
    favourable one.  The composite of the row is the mean of these
    percentile ranks over the measure columns. *)
Theorem missing_measure_ranked_last merged c i r :
  c ∈ measure_cols merged →
  rows merged !! i = Some r →
  get_cell (columns merged) c r = NA →
  let s := series merged c in
  rank_pct_bottom s !! i = Some (pct_rank s NA) ∧
  (0 < pct_rank s NA <= 1)%Q ∧
  (∀ r', r' ∈ rows merged →
     (pct_rank s (get_cell (columns merged) c r') <= pct_rank s NA)%Q) ∧
  (∀ r' x, r' ∈ rows merged → get_cell (columns merged) c r' = Num x →
     (pct_rank s (Num x) < pct_rank s NA)%Q) ∧
  composite merged (measure_cols merged) !! i
  = Some (meanQ ((λ c', pct_rank (series merged c') (get_cell (columns merged) c' r))
                   <$> measure_cols merged)).
Proof.
  intros Hc Hr Hna s.
  pose proof (series_lookup _ c _ _ Hr) as Hs. rewrite Hna in Hs. fold s in Hs.
  assert (NA ∈ s) as Hin by (by eapply list_elem_of_lookup_2).
  pose proof (pct_rank_bounds s NA Hin) as [Hpos Hle].
  split_and!; [|done|done|..].
  - by apply rank_pct_bottom_lookup.
  - intros r' _. by apply pct_rank_missing_max.
  - intros r' x _ _. by eapply pct_rank_missing_last.
  - by apply composite_lookup.
Qed.


(** ** The Geographic Filter, row by row *)

Lemma list_filter_fmap_comm {A B} (P : B → Prop) `{!∀ x, Decision (P x)}
    (f : A → B) (l : list A) :
  filter P (f <$> l) = f <$> filter (λ x, P (f x)) l.
Proof.
  induction l as [|x l IH]; [done|].
  rewrite fmap_cons, !filter_cons. simpl.
  destruct (decide (P (f x))); by rewrite IH.
Qed.

Lemma unified_step cols cs r a :
  foldl (λ acc c, if isna acc then get_cell cols c r else acc) a cs
  = if isna a then unified cols cs r else a.
Proof.
  unfold unified. revert a. induction cs as [|c cs IH]; intros a; simpl.
  - by destruct a.
  - rewrite IH. rewrite filter_cons. unfold notna.
    destruct a; simpl; try done.
    destruct (get_cell cols c r); simpl; done.
Qed.

Lemma foldl_fillna df (g : list cell → cell) cs :
  foldl (λ s c, fillna s (series df c)) (g <$> rows df) cs
  = (λ r, foldl (λ acc c, if isna acc then get_cell (columns df) c r else acc)
            (g r) cs) <$> rows df.
Proof.
  revert g. induction cs as [|c cs IH]; intros g; simpl; [done|].
  unfold fillna at 2, series. rewrite zip_with_fmap_same. apply IH.
Qed.

(** The unified column the code builds by successive [fillna] holds, in
    each row, the first non-missing value of the candidate columns. *)
Lemma coalesce_unified df cs :
  cs ≠ [] → coalesce df cs = unified (columns df) cs <$> rows df.
Proof.
  destruct cs as [|c0 cs]; [done|]. intros _. unfold coalesce.
  change (series df c0) with (get_cell (columns df) c0 <$> rows df).
  rewrite foldl_fillna. apply list_fmap_ext.
  intros _ r _. simpl. rewrite unified_step. unfold unified. simpl.
  rewrite filter_cons. unfold notna. by destruct (get_cell (columns df) c0 r).
Qed.

Lemma with_std_cells df r :
  length r = length (columns df) →
  length (with_std df r) = length (filtered_columns df) ∧
  get_cell (filtered_columns df) "county_std" (with_std df r)
  = Str (normalize_county (unified (columns df) (county_cols df) r)) ∧
  get_cell (filtered_columns df) "state_std" (with_std df r)
  = Str (strip_upper (unified (columns df) (state_cols df) r)) ∧
  get_cell (filtered_columns df) "county_state_key" (with_std df r)
  = Tup (normalize_county (unified (columns df) (county_cols df) r))
        (strip_upper (unified (columns df) (state_cols df) r)) ∧
  ∀ c, c ∉ std_labels →
    get_cell (filtered_columns df) c (with_std df r) = get_cell (columns df) c r.
Proof.
  intros Hr. unfold with_std, filtered_columns.
  set (cols := columns df) in *.
  set (county := normalize_county _). set (state := strip_upper _).
  set (r1 := set_cell cols "county_std" (Str county) r).
  set (cols1 := add_label "county_std" cols).
  assert (length r1 = length cols1) as Hr1 by (by apply set_cell_length).
  set (r2 := set_cell cols1 "state_std" (Str state) r1).
  set (cols2 := add_label "state_std" cols1).
  assert (length r2 = length cols2) as Hr2 by (by apply set_cell_length).
  split_and!.
  - by apply set_cell_length.
  - rewrite get_set_ne by done. unfold r2, cols2. rewrite get_set_ne by done.
    by apply get_set_eq.
  - rewrite get_set_ne by done. by apply get_set_eq.
  - by apply get_set_eq.
  - intros c Hc. unfold std_labels in Hc.
    assert (c ≠ "county_std" ∧ c ≠ "state_std" ∧ c ≠ "county_state_key")
      as (N1 & N2 & N3).
    { split_and!; intros ->; apply Hc; [by left|right; by left|do 2 right; by left]. }
    rewrite get_set_ne by done. unfold r2, cols2.
    rewrite get_set_ne by done. by apply get_set_ne.
Qed.

Lemma std_rows df :
  rectangular df → county_cols df ≠ [] → state_cols df ≠ [] →
  let df1 := set_column "county_std"
               (Str ∘ normalize_county <$> coalesce df (county_cols df)) df in
  let df2 := set_column "state_std"
               (Str ∘ strip_upper <$> coalesce df (state_cols df)) df1 in
  let df3 := set_column "county_state_key"
               (zip_tuples (series df2 "county_std") (series df2 "state_std")) df2 in
  rows df3 = with_std df <$> rows df.
Proof.
  intros Hrect Hc Hs df1 df2 df3.
  set (cols := columns df).
  set (nc := λ r, normalize_county (unified cols (county_cols df) r)).
  set (su := λ r, strip_upper (unified cols (state_cols df) r)).
  set (f1 := λ r, set_cell cols "county_std" (Str (nc r)) r).
  set (f2 := λ r, set_cell (add_label "county_std" cols) "state_std" (Str (su r)) (f1 r)).
  assert (rows df1 = f1 <$> rows df) as H1.
  { unfold df1. rewrite (coalesce_unified _ _ Hc), <-list_fmap_compose.
    apply (set_column_rows_fmap "county_std" (λ r, Str (nc r))). }
  assert (rows df2 = f2 <$> rows df) as H2.
  { unfold df2, set_column. cbn [rows columns]. rewrite H1.
    rewrite (coalesce_unified _ _ Hs), <-list_fmap_compose.
    apply zip_with_fmap_same. }
  assert (∀ r, r ∈ rows df → length (f1 r) = length (add_label "county_std" cols)) as L1.
  { intros r Hr. apply set_cell_length. by eapply (proj1 (Forall_forall _ _) Hrect). }
  assert (series df2 "county_std" = (λ r, Str (nc r)) <$> rows df) as S1.
  { unfold series. rewrite H2, <-list_fmap_compose. apply list_fmap_ext.
    intros _ r Hr%list_elem_of_lookup_2. simpl. unfold df2, df1, f2. cbn [columns set_column].
    fold cols. rewrite get_set_ne; [|done|by apply L1].
    apply get_set_eq. by eapply (proj1 (Forall_forall _ _) Hrect). }
  assert (series df2 "state_std" = (λ r, Str (su r)) <$> rows df) as S2.
  { unfold series. rewrite H2, <-list_fmap_compose. apply list_fmap_ext.
    intros _ r Hr%list_elem_of_lookup_2. simpl. unfold df2, df1, f2. cbn [columns set_column].
    apply get_set_eq. by apply L1. }
  unfold df3, set_column. cbn [rows]. rewrite H2, S1, S2.
  unfold zip_tuples. rewrite zip_with_fmap_same, zip_with_fmap_same.
  apply list_fmap_ext. intros _ r _. done.
Qed.

Lemma zip_fmap_same {A B C} (g : A → B) (h : A → C) (l : list A) :
  zip (g <$> l) (h <$> l) = (λ x, (g x, h x)) <$> l.
Proof. apply zip_with_fmap_same. Qed.

(** The allow-list the code builds from the normalized copy of the
    county table is the set of normalized pairs of its rows. *)
Lemma allowed_normalized counties :
  rectangular counties →
  "County" ∈ columns counties → "StateCode" ∈ columns counties →
  let cn1 := set_column "County"
               (Str ∘ normalize_county <$> series counties "County") counties in
  let cn2 := set_column "StateCode"
               (Str ∘ strip_upper <$> series cn1 "StateCode") cn1 in
  zip_set (series cn2 "County") (series cn2 "StateCode")
  = normalized_allow_list counties.
Proof.
  intros Hrect HC HS cn1 cn2.
  set (cols := columns counties).
  set (g1 := λ r, set_cell cols "County"
                    (Str (normalize_county (get_cell cols "County" r))) r).
  set (g2 := λ r, set_cell cols "StateCode"
                    (Str (strip_upper (get_cell cols "StateCode" r))) (g1 r)).
  assert (columns cn1 = cols) as C1 by (by apply add_label_present).
  assert (columns cn2 = cols) as C2.
  { unfold cn2, set_column. cbn [columns]. rewrite C1. by apply add_label_present. }
  assert (∀ r, r ∈ rows counties → length r = length cols) as L0.
  { intros r Hr. by eapply (proj1 (Forall_forall _ _) Hrect). }
  assert (∀ r, r ∈ rows counties → length (g1 r) = length cols) as L1.
  { intros r Hr. unfold g1. rewrite set_cell_length by auto.
    by rewrite add_label_present. }
  assert (rows cn1 = g1 <$> rows counties) as H1.
  { unfold cn1, series. rewrite <-list_fmap_compose.
    apply (set_column_rows_fmap "County"
             (λ r, Str (normalize_county (get_cell cols "County" r)))). }
  assert (rows cn2 = g2 <$> rows counties) as H2.
  { unfold cn2, set_column, series. cbn [rows]. rewrite C1, H1.
    rewrite <-!list_fmap_compose, zip_with_fmap_same.
    apply list_fmap_ext. intros _ r Hr%list_elem_of_lookup_2. simpl. unfold g2.
    do 3 f_equal. unfold g1.
    rewrite <-(add_label_present "County" cols HC) at 1.
    apply get_set_ne; [done|auto]. }
  unfold zip_set, normalized_allow_list. f_equal.
  unfold series. rewrite C2, H2, <-!list_fmap_compose.
  rewrite !zip_fmap_same, <-list_fmap_compose.
  apply list_fmap_ext. intros _ r Hr%list_elem_of_lookup_2. simpl. unfold g2.
  f_equal.
  - rewrite <-(add_label_present "StateCode" cols HS) at 1.
    rewrite get_set_ne by (done || auto). unfold g1.
    rewrite <-(add_label_present "County" cols HC) at 1.
    rewrite get_set_eq by auto. done.
  - rewrite <-(add_label_present "StateCode" cols HS) at 1.
    rewrite get_set_eq by auto. done.
Qed.

Lemma with_std_key df r allowed :
  length r = length (columns df) →
  isin allowed (get_cell (filtered_columns df) "county_state_key" (with_std df r))
  = bool_decide (normalized_pair df r ∈ allowed).
Proof.
  intros Hr.
  destruct (with_std_cells df r Hr) as (_ & _ & _ & -> & _). done.
Qed.

(** The filter, read row by row: the output holds, in input order, the
    rows whose normalized pair is in the normalized allow-list, each with
    its three helper cells. *)
Lemma filter_to_counties_rows df counties out :
  rectangular df → rectangular counties →
  county_cols df ≠ [] → state_cols df ≠ [] →
  filter_to_counties df counties = Ok out →
  columns out = filtered_columns df ∧
  rows out = with_std df <$>
             filter (λ r, normalized_pair df r ∈ normalized_allow_list counties)
                    (rows df).
Proof.
  intros Hrect Hcrect Hc Hs. unfold filter_to_counties.
  rewrite decide_False by (intros [?|?]; done).
  intros (c & [HC ->]%getitem_inv & (s & [HS ->]%getitem_inv & Heq)%bind_Ok)%bind_Ok.
  apply Ok_inj in Heq. subst out.
  split; [done|].
  assert ("StateCode" ∈ columns counties) as HS'.
  { unfold set_column in HS. cbn [columns] in HS.
    by rewrite add_label_present in HS. }
  rewrite (allowed_normalized counties Hcrect HC HS').
  match goal with
  | |- context [boolean_index (_ <$> series ?d _) _] => set (df3 := d)
  end.
  assert (rows df3 = with_std df <$> rows df) as R by (by apply std_rows).
  assert (columns df3 = filtered_columns df) as C by done.
  cbn [rows]. unfold series. rewrite R, C. clearbody df3.
  rewrite <-!list_fmap_compose.
  rewrite (list_fmap_ext _
             (λ r, bool_decide (normalized_pair df r ∈ normalized_allow_list counties))
             (rows df)).
  2:{ intros _ r Hr%list_elem_of_lookup_2. simpl.
      apply (with_std_key df r).
      by eapply (proj1 (Forall_forall _ _) Hrect). }
  generalize (rows df). intros l.
  induction l as [|r l IH]; [done|].
  rewrite !fmap_cons, filter_cons. cbn [boolean_index].
  rewrite IH. case_bool_decide.
  - by rewrite decide_True.
  - by rewrite decide_False.
Qed.


Lemma std_label_not_header c :
  c ∈ std_labels →
  (PyStr.lower c ∉ county_headers) ∧ (PyStr.lower c ∉ state_headers).
Proof.
  unfold std_labels.
  intros [->|[->|[->|[]%elem_of_nil]%elem_of_cons]%elem_of_cons]%elem_of_cons;
    split; apply (bool_decide_unpack _); by vm_compute.
Qed.

Lemma filter_add_label (P : string → Prop) `{!∀ x, Decision (P x)} c cols :
  ¬ P c → filter P (add_label c cols) = filter P cols.
Proof.
  intros Hc. unfold add_label. destruct (col_index c cols); [done|].
  rewrite filter_app, filter_cons, decide_False by done.
  by rewrite filter_nil, app_nil_r.
Qed.

Lemma county_cols_filtered df rs :
  county_cols (mkDF (filtered_columns df) rs) = county_cols df ∧
  state_cols (mkDF (filtered_columns df) rs) = state_cols df.
Proof.
  unfold county_cols, state_cols, filtered_columns. cbn [columns].
  split; rewrite !filter_add_label; try done;
    apply std_label_not_header; apply (bool_decide_unpack _); by vm_compute.
Qed.

Lemma county_cols_not_std df c :
  c ∈ county_cols df ∨ c ∈ state_cols df → c ∈ columns df ∧ c ∉ std_labels.
Proof.
  unfold county_cols, state_cols.
  intros [[H ?]%list_elem_of_filter|[H ?]%list_elem_of_filter];
    (split; [done|]); intros [??]%std_label_not_header; done.
Qed.

Lemma unified_ext cols cols' cs r r' :
  (∀ c, c ∈ cs → get_cell cols c r = get_cell cols' c r') →
  unified cols cs r = unified cols' cs r'.
Proof.
  intros H. unfold unified. do 2 f_equal. apply list_fmap_ext.
  intros i c Hc. apply H. by eapply list_elem_of_lookup_2.
Qed.

Lemma filtered_columns_idem df rs :
  filtered_columns (mkDF (filtered_columns df) rs) = filtered_columns df.
Proof.
  unfold filtered_columns at 1. cbn [columns].
  assert ("county_std" ∈ filtered_columns df) as H1.
  { unfold filtered_columns. do 2 apply add_label_subseteq. apply add_label_elem. }
  assert ("state_std" ∈ filtered_columns df) as H2.
  { unfold filtered_columns. apply add_label_subseteq. apply add_label_elem. }
  assert ("county_state_key" ∈ filtered_columns df) as H3.
  { unfold filtered_columns. apply add_label_elem. }
  rewrite (add_label_present "county_std") by done.
  rewrite (add_label_present "state_std") by done.
  by apply add_label_present.
Qed.

(** Writing the helper cells into a row that already carries them
    changes nothing. *)
Lemma with_std_idem df rs r :
  length r = length (columns df) →
  normalized_pair (mkDF (filtered_columns df) rs) (with_std df r)
  = normalized_pair df r ∧
  with_std (mkDF (filtered_columns df) rs) (with_std df r) = with_std df r.
Proof.
  intros Hr.
  destruct (with_std_cells df r Hr) as (Hlen & Hk1 & Hk2 & Hk3 & Hother).
  destruct (county_cols_filtered df rs) as [Ec Es].
  assert (unified (filtered_columns df) (county_cols df) (with_std df r)
          = unified (columns df) (county_cols df) r) as Uc.
  { apply unified_ext. intros c Hc. apply Hother.
    apply (county_cols_not_std df c). by left. }
  assert (unified (filtered_columns df) (state_cols df) (with_std df r)
          = unified (columns df) (state_cols df) r) as Us.
  { apply unified_ext. intros c Hc. apply Hother.
    apply (county_cols_not_std df c). by right. }
  split.
  - unfold normalized_pair. cbn [columns]. by rewrite Ec, Es, Uc, Us.
  - unfold with_std at 1. cbn [columns]. rewrite Ec, Es, Uc, Us.
    assert ("county_std" ∈ filtered_columns df) as H1.
    { unfold filtered_columns. do 2 apply add_label_subseteq. apply add_label_elem. }
    assert ("state_std" ∈ filtered_columns df) as H2.
    { unfold filtered_columns. apply add_label_subseteq. apply add_label_elem. }
    assert ("county_state_key" ∈ filtered_columns df) as H3.
    { unfold filtered_columns. apply add_label_elem. }
    rewrite (add_label_present "county_std") by done.
    rewrite (add_label_present "state_std") by done.
    rewrite (set_cell_same _ "county_std") by done.
    rewrite (set_cell_same _ "state_std") by done.
    by rewrite (set_cell_same _ "county_state_key").
Qed.

Lemma filter_to_counties_allow_list_labels df counties out :
  county_cols df ≠ [] → state_cols df ≠ [] →
  filter_to_counties df counties = Ok out →
  "County" ∈ columns counties ∧ "StateCode" ∈ columns counties.
Proof.
  intros Hc Hs. unfold filter_to_counties.
  rewrite decide_False by (intros [?|?]; done).
  intros (c & [HC ->]%getitem_inv & (s & [HS ->]%getitem_inv & _)%bind_Ok)%bind_Ok.
  split; [done|]. unfold set_column in HS. cbn [columns] in HS.
  by rewrite add_label_present in HS.
Qed.

Lemma fmap_filter_fixed {A} (f : A → A) (Q : A → Prop)
    `{!∀ x, Decision (Q x)} (l : list A) :
  Forall (λ x, Q x ∧ f x = x) l → f <$> filter Q l = l.
Proof.
  induction 1 as [|x l [HQ Hf] _ IH]; [done|].
  rewrite filter_cons, decide_True by done. rewrite fmap_cons.
  by rewrite Hf, IH.
Qed.

(** C3.  On a table that has a county-like and a state-like column, the
    output of the Geographic Filter holds, in input order, exactly the
    rows whose normalized (county, state) pair belongs to the normalized
    allow-list: a row survives if and only if its pair is a member.  Both
    sides are normalized by the same two functions, [normalize_county]
    (upper case, trim, drop a trailing COUNTY or PARISH word) and
    [strip_upper]. *)
Theorem geographic_filter_membership df counties out :
  rectangular df → rectangular counties →
  county_cols df ≠ [] → state_cols df ≠ [] →
  filter_to_counties df counties = Ok out →
  rows out = with_std df <$>
             filter (λ r, normalized_pair df r ∈ normalized_allow_list counties)
                    (rows df) ∧
  ∀ r, r ∈ rows df →
    (survives df out r ↔ normalized_pair df r ∈ normalized_allow_list counties).
Proof.
  intros Hrect Hcrect Hc Hs Hout.
  destruct (filter_to_counties_rows _ _ _ Hrect Hcrect Hc Hs Hout) as [Hcols Hrows].
  split; [done|]. intros r Hr.
  assert (∀ x, x ∈ rows df → length x = length (columns df)) as Hlen.
  { intros x Hx. by eapply (proj1 (Forall_forall _ _) Hrect). }
  unfold survives. rewrite Hcols, Hrows. split.
  - intros (r' & (r0 & -> & [Hp Hr0]%list_elem_of_filter)%list_elem_of_fmap & Hagree).
    destruct (with_std_cells df r0 (Hlen _ Hr0)) as (_ & _ & _ & _ & Hother).
    assert (normalized_pair df r = normalized_pair df r0) as ->; [|done].
    unfold normalized_pair. f_equal; f_equal; apply unified_ext; intros c Hin.
    + destruct (county_cols_not_std df c (or_introl Hin)) as [H1 H2].
      by rewrite <-(Hagree c H1 H2), Hother.
    + destruct (county_cols_not_std df c (or_intror Hin)) as [H1 H2].
      by rewrite <-(Hagree c H1 H2), Hother.
  - intros Hp. exists (with_std df r). split.
    + apply list_elem_of_fmap. exists r. split; [done|].
      by apply list_elem_of_filter.
    + intros c _ Hstd.
      by destruct (with_std_cells df r (Hlen _ Hr)) as (_ & _ & _ & _ & ->).
Qed.

(** C8.  Filtering the output of the Geographic Filter again with the
    same allow-list returns that output unchanged: same labels, same
    rows, same values. *)
Theorem geographic_filter_idempotent df counties out :
  rectangular df → rectangular counties →
  filter_to_counties df counties = Ok out →
  filter_to_counties out counties = Ok out.
Proof.
  intros Hrect Hcrect Hout.
  destruct (decide (county_cols df = [] ∨ state_cols df = [])) as [Hskip|Hrun].
  { unfold filter_to_counties in Hout. rewrite decide_True in Hout by done.
    apply Ok_inj in Hout. subst out.
    unfold filter_to_counties. by rewrite decide_True. }
  assert (county_cols df ≠ [] ∧ state_cols df ≠ []) as [Hc Hs].
  { split; intros E; apply Hrun; auto. }
  destruct (filter_to_counties_rows _ _ _ Hrect Hcrect Hc Hs Hout) as [Hcols Hrows].
  destruct (filter_to_counties_allow_list_labels _ _ _ Hc Hs Hout) as [HC HS].
  destruct out as [ocols orows]. cbn [columns rows] in Hcols, Hrows. subst ocols.
  destruct (county_cols_filtered df orows) as [Ec Es].
  assert (∀ x, x ∈ rows df → length x = length (columns df)) as Hlen.
  { intros x Hx. by eapply (proj1 (Forall_forall _ _) Hrect). }
  assert (rectangular (mkDF (filtered_columns df) orows)) as Hrect'.
  { unfold rectangular. cbn [columns rows]. rewrite Hrows.
    apply Forall_fmap, Forall_forall. intros x [_ Hx]%list_elem_of_filter. simpl.
    by destruct (with_std_cells df x (Hlen _ Hx)) as (-> & _). }
  destruct (filter_to_counties_Ok (mkDF (filtered_columns df) orows) counties HC HS)
    as [out2 Hout2].
  rewrite Hout2. f_equal.
  destruct (filter_to_counties_rows _ _ _ Hrect' Hcrect
              ltac:(by rewrite Ec) ltac:(by rewrite Es) Hout2) as [Hcols2 Hrows2].
  destruct out2 as [c2 r2]. cbn [columns rows] in Hcols2, Hrows2.
  rewrite filtered_columns_idem in Hcols2. subst c2. f_equal.
  rewrite Hrows2. rewrite Hrows at 2 3.
  apply fmap_filter_fixed, Forall_fmap, Forall_forall.
  intros x [Hp Hx]%list_elem_of_filter. simpl.
  destruct (with_std_idem df orows x (Hlen _ Hx)) as [-> ->]. done.
Qed.

(** ** Keys of the facility attributes *)

Lemma mapping_targets_unique :
  Forall (λ x, Forall (λ y, x.1 = y.1 → x.2 = y.2) mapping) mapping.
Proof. apply (bool_decide_unpack _). by vm_compute. Qed.

Lemma mapping_candidates_disjoint :
  Forall (λ x, Forall (λ y, Forall (λ c, c ∈ y.2 → x.1 = y.1) x.2) mapping) mapping.
Proof. apply (bool_decide_unpack _). by vm_compute. Qed.

Lemma mapping_avoids_keys :
  Forall (λ x, (x.1 ∉ ["snapshot_year"; "snapshot_label"]) ∧
               Forall (λ c, c ∉ join_key) x.2) mapping.
Proof. apply (bool_decide_unpack _). by vm_compute. Qed.

Lemma col_map_spec df t c :
  (t, c) ∈ col_map df ↔
  ∃ cands i, (t, cands) ∈ mapping ∧ list_find (λ c, c ∈ columns df) cands = Some (i, c).
Proof.
  unfold col_map. rewrite list_elem_of_omap. split.
  - intros ([t' cands] & Hin & Hf). simpl in Hf.
    destruct (list_find _ cands) as [[i x]|] eqn:E; simplify_eq/=. eauto.
  - intros (cands & i & Hin & Hf). exists (t, cands). split; [done|].
    simpl. by rewrite Hf.
Qed.

Lemma col_map_target_unique df t c1 c2 :
  (t, c1) ∈ col_map df → (t, c2) ∈ col_map df → c1 = c2.
Proof.
  intros (cs1 & i1 & H1 & F1)%col_map_spec (cs2 & i2 & H2 & F2)%col_map_spec.
  pose proof mapping_targets_unique as U.
  rewrite Forall_forall in U. specialize (U _ H1).
  rewrite Forall_forall in U. specialize (U _ H2 eq_refl). simpl in U.
  subst cs2. congruence.
Qed.

Lemma col_map_source_unique df t1 t2 c :
  (t1, c) ∈ col_map df → (t2, c) ∈ col_map df → t1 = t2.
Proof.
  intros (cs1 & i1 & H1 & F1)%col_map_spec (cs2 & i2 & H2 & F2)%col_map_spec.
  apply list_find_Some in F1 as (L1%list_elem_of_lookup_2 & _).
  apply list_find_Some in F2 as (L2%list_elem_of_lookup_2 & _).
  pose proof mapping_candidates_disjoint as U.
  rewrite Forall_forall in U. specialize (U _ H1).
  rewrite Forall_forall in U. specialize (U _ H2).
  rewrite Forall_forall in U. by apply (U c).
Qed.

Lemma col_map_avoids_keys df t c :
  (t, c) ∈ col_map df →
  (t ∉ ["snapshot_year"; "snapshot_label"]) ∧ (c ∉ join_key).
Proof.
  intros (cs & i & H & F)%col_map_spec.
  apply list_find_Some in F as (L%list_elem_of_lookup_2 & _).
  pose proof mapping_avoids_keys as U.
  rewrite Forall_forall in U. destruct (U _ H) as [U1 U2]. simpl in *.
  split; [done|]. rewrite Forall_forall in U2. by apply U2.
Qed.

Lemma facility_rename_Some df c t :
  (t, c) ∈ col_map df → facility_rename df c = t.
Proof.
  intros Hin. unfold facility_rename.
  destruct (list_to_map _ !! c) as [t'|] eqn:E; simpl.
  - apply elem_of_list_to_map_2 in E.
    apply list_elem_of_fmap in E as ([t'' c'] & [= -> ->] & E).
    rewrite elem_of_reverse in E. by eapply col_map_source_unique.
  - apply not_elem_of_list_to_map_2 in E. destruct E.
    apply list_elem_of_fmap. exists (c, t). split; [done|].
    apply list_elem_of_fmap. exists (t, c). split; [done|].
    by apply elem_of_reverse.
Qed.

Lemma facility_rename_None df c :
  (∀ t, (t, c) ∉ col_map df) → facility_rename df c = c.
Proof.
  intros Hout. unfold facility_rename.
  destruct (list_to_map _ !! c) as [t'|] eqn:E; [|done].
  apply elem_of_list_to_map_2 in E.
  apply list_elem_of_fmap in E as ([t'' c'] & [= -> ->] & E).
  rewrite elem_of_reverse in E. by destruct (Hout _ E).
Qed.

Lemma facility_rename_cases df c :
  ((facility_rename df c, c) ∈ col_map df) ∨
  (facility_rename df c = c ∧ ∀ t, (t, c) ∉ col_map df).
Proof.
  destruct (decide (c ∈ (col_map df).*2)) as [Hin|Hout].
  - left. apply list_elem_of_fmap in Hin as ([t c'] & -> & Hin). simpl.
    by rewrite (facility_rename_Some _ _ _ Hin).
  - right. assert (∀ t, (t, c) ∉ col_map df) as H.
    { intros t Hin. apply Hout. apply list_elem_of_fmap. by exists (t, c). }
    split; [|done]. by apply facility_rename_None.
Qed.

Lemma col_index_rename (ren : string → string) k cols :
  (∀ c, c ∈ cols → ren c = ren k → c = k) →
  col_index (ren k) (ren <$> cols) = col_index k cols.
Proof.
  induction cols as [|d cols IH]; intros Hinj; [done|].
  rewrite fmap_cons. destruct (decide (d = k)) as [->|Hne].
  - by rewrite !col_index_cons_eq.
  - rewrite !col_index_cons_ne; [|done|].
    + rewrite IH; [done|]. intros c Hc. apply Hinj. by right.
    + intros E. apply Hne, Hinj; [by left|done].
Qed.

Lemma get_cell_rename (ren : string → string) k cols r :
  (∀ c, c ∈ cols → ren c = ren k → c = k) →
  get_cell (ren <$> cols) (ren k) r = get_cell cols k r.
Proof. intros H. unfold get_cell. by rewrite col_index_rename. Qed.

Lemma drop_duplicates_from_NoDup {K} `{EqDecision K} (key : list cell → K) seen l :
  NoDup (key <$> drop_duplicates_from key seen l) ∧
  ∀ r, r ∈ drop_duplicates_from key seen l → (key r ∉ seen) ∧ (r ∈ l).
Proof.
  revert seen. induction l as [|x l IH]; intros seen; simpl.
  - split; [constructor|]. by intros r ?%elem_of_nil.
  - case_decide as Hx.
    + destruct (IH seen) as [IH1 IH2]. split; [done|].
      intros r Hr. destruct (IH2 r Hr). split; [done|by right].
    + destruct (IH (key x :: seen)) as [IH1 IH2]. split.
      * rewrite fmap_cons. constructor; [|done].
        intros (r & Hk & Hr)%list_elem_of_fmap.
        destruct (IH2 r Hr) as [Hn _]. apply Hn. rewrite Hk. by left.
      * intros r [->|Hr]%elem_of_cons; [split; [done|by left]|].
        destruct (IH2 r Hr) as [Hn ?]. split; [|by right].
        intros ?. apply Hn. by right.
Qed.

Lemma drop_duplicates_inv subset df d :
  drop_duplicates subset df = Ok d →
  d = mkDF (columns df)
        (drop_duplicates_from (select_cells (columns df) subset) [] (rows df)).
Proof.
  unfold drop_duplicates. destruct (list_find _ subset) as [[i c]|]; [done|].
  by intros ?%Ok_inj.
Qed.

(** The facility table has one row per (provider, year), hence one row
    per join key. *)
Lemma build_facility_table_keys df f :
  build_facility_table df = Ok f →
  NoDup (select_cells (columns f) join_key <$> rows f).
Proof.
  unfold build_facility_table.
  destruct (assoc "provider_id" (col_map df)) as [pcol|] eqn:E.
  2:{ intros <-%Ok_inj. constructor. }
  intros (fac & Hd%drop_duplicates_inv & Hf%Ok_inj)%bind_Ok. subst f fac.
  apply assoc_Some in E.
  unfold rename_columns. cbn [columns rows select].
  set (keep := filter _ _).
  set (rs := select_cells (columns df) keep <$> rows df).
  destruct (drop_duplicates_from_NoDup
              (select_cells keep [pcol; "snapshot_year"]) [] rs) as [Hnd _].
  set (kept := drop_duplicates_from _ [] rs) in *.
  fold (facility_rename df).
  assert (∀ c, c ∈ keep → (∃ t, (t, c) ∈ col_map df) ∨
                          c ∈ ["snapshot_year"; "snapshot_label"]) as Hkeep.
  { intros c [_ [Hc|Hc]%elem_of_app]%list_elem_of_filter; [left|by right].
    apply list_elem_of_fmap in Hc as ([t c'] & -> & Hc). eauto. }
  assert (facility_rename df pcol = "provider_id") as Rp
    by (by apply facility_rename_Some).
  assert (facility_rename df "snapshot_year" = "snapshot_year") as Ry.
  { apply facility_rename_None. intros t [_ Hk]%col_map_avoids_keys.
    apply Hk. unfold join_key. right. by left. }
  assert (∀ r, get_cell (facility_rename df <$> keep) "provider_id" r
               = get_cell keep pcol r) as Gp.
  { intros r. rewrite <-Rp. apply get_cell_rename. intros c Hc Hren.
    rewrite Rp in Hren.
    destruct (facility_rename_cases df c) as [Hin|[Hid Hout]].
    - rewrite Hren in Hin. by eapply col_map_target_unique.
    - rewrite Hid in Hren. subst c.
      destruct (Hkeep _ Hc) as [[t Ht]|Hk]; [by destruct (Hout t)|].
      exfalso. revert Hk. apply (bool_decide_unpack _). by vm_compute. }
  assert (∀ r, get_cell (facility_rename df <$> keep) "snapshot_year" r
               = get_cell keep "snapshot_year" r) as Gy.
  { intros r. rewrite <-Ry at 1. apply get_cell_rename. intros c Hc Hren.
    rewrite Ry in Hren.
    destruct (facility_rename_cases df c) as [Hin|[Hid Hout]].
    - rewrite Hren in Hin. apply col_map_avoids_keys in Hin as [Ht _].
      destruct Ht. by left.
    - by rewrite Hid in Hren. }
  apply (NoDup_fmap_1 (take 2)). rewrite <-list_fmap_compose.
  erewrite list_fmap_ext; [exact Hnd|].
  intros i r _. unfold select_cells, join_key. simpl. by rewrite Gp, Gy.
Qed.

(** ** The left join *)

Lemma filter_key_unique {A K} `{EqDecision K} (f : A → K) (l : list A) k :
  NoDup (f <$> l) → length (filter (λ x, f x = k) l) ≤ 1.
Proof.
  induction l as [|x l IH]; [simpl; lia|].
  rewrite fmap_cons. intros [Hx Hl]%NoDup_cons. specialize (IH Hl).
  rewrite filter_cons. case_decide as Hk; [|lia].
  assert (filter (λ y, f y = k) l = []) as ->; [|simpl; lia].
  destruct (filter _ l) as [|y ys] eqn:E; [done|].
  assert (y ∈ filter (λ y, f y = k) l) as [Hy Hin]%list_elem_of_filter
    by (rewrite E; by left).
  destruct Hx. apply list_elem_of_fmap. exists y. split; [congruence|done].
Qed.

Lemma merge_left_rows left right on merged :
  NoDup (select_cells (columns right) on <$> rows right) →
  merge_left left right on = Ok merged →
  rows merged = (λ l, l ++ joined_cells left right on l) <$> rows left.
Proof.
  intros Hnd. unfold merge_left.
  destruct (list_find _ on) as [[??]|]; [done|].
  destruct (list_find _ on) as [[??]|]; [done|].
  intros <-%Ok_inj. cbn [rows].
  induction (rows left) as [|l ls IH]; [done|].
  rewrite fmap_cons. cbn [mbind list_bind]. rewrite IH. clear IH.
  unfold joined_cells.
  pose proof (filter_key_unique (select_cells (columns right) on) (rows right)
                (select_cells (columns left) on l) Hnd) as Hlen.
  destruct (filter (λ r, select_cells (columns right) on r
                         = select_cells (columns left) on l) (rows right))
    as [|r [|r' rs]]; simpl in *; [done|done|lia].
Qed.

(** C10.  The right side of the join, the facility attributes, has one
    row per join key (it is deduplicated on provider and year), so the
    left join yields exactly one row per row of its left side, the pivot
    output, in the same order, each left row followed by the attribute
    cells. *)
Theorem left_join_one_row_per_pivot_row df quality facilities merged :
  build_facility_table df = Ok facilities →
  merge_left quality facilities join_key = Ok merged →
  NoDup (select_cells (columns facilities) join_key <$> rows facilities) ∧
  length (rows merged) = length (rows quality) ∧
  Forall2 (λ q m, q `prefix_of` m) (rows quality) (rows merged).
Proof.
  intros Hfac Hmerge.
  pose proof (build_facility_table_keys _ _ Hfac) as Hnd.
  rewrite (merge_left_rows _ _ _ _ Hnd Hmerge).
  split_and!; [done|by rewrite length_fmap|].
  apply Forall2_fmap_r, Forall_Forall2_diag, Forall_forall.
  intros q _. by apply prefix_app_r.
Qed.

(** ** The pivot *)

Lemma hd_filter_notna_elem (l : list cell) :
  notna (hd NA (filter (λ v, notna v) l)) → hd NA (filter (λ v, notna v) l) ∈ l.
Proof.
  destruct (filter _ l) as [|v vs] eqn:E; [done|]. intros _. simpl.
  assert (v ∈ filter (λ v, notna v) l) as [_ ?]%list_elem_of_filter
    by (rewrite E; by left).
  done.
Qed.

Lemma group_first_in recs g :
  notna (group_first recs g) → g ∈ fst <$> recs.
Proof.
  unfold group_first. intros H%hd_filter_notna_elem.
  apply list_elem_of_fmap in H as (x & _ & [Hx Hin]%list_elem_of_filter).
  apply list_elem_of_fmap. by exists x.
Qed.

Lemma elem_of_pivot_agged recs g v :
  (g, v) ∈ pivot_agged recs ↔ v = group_first recs g ∧ notna v.
Proof.
  unfold pivot_agged. rewrite list_elem_of_filter, list_elem_of_fmap. simpl. split.
  - intros [Hv (g' & [= -> ->] & _)]. done.
  - intros [-> Hv]. split; [done|]. exists g. split; [done|].
    apply elem_of_remove_dups. by apply group_first_in.
Qed.

Lemma lookup_agg_first recs ik ck :
  lookup_agg (pivot_agged recs) ik ck = group_first recs (ik, ck).
Proof.
  unfold lookup_agg.
  destruct (list_find _ (pivot_agged recs)) as [[i [g v]]|] eqn:E; simpl.
  - apply list_find_Some in E as (Hin%list_elem_of_lookup_2 & Hg & _).
    simpl in Hg. subst g. by apply elem_of_pivot_agged in Hin as [-> _].
  - destruct (group_first recs (ik, ck)) eqn:F; [done|..];
      apply list_find_None in E; rewrite Forall_forall in E;
      (exfalso; apply (E ((ik, ck), group_first recs (ik, ck))); [|done]);
      apply elem_of_pivot_agged; by rewrite F.
Qed.

Lemma elem_of_pivot_index recs ik :
  ik ∈ pivot_index (pivot_agged recs) ↔ ∃ ck, notna (group_first recs (ik, ck)).
Proof.
  unfold pivot_index. rewrite merge_sort_Permutation, elem_of_remove_dups.
  rewrite list_elem_of_fmap. split.
  - intros ([[ik' ck] v] & -> & [-> Hv]%elem_of_pivot_agged). by exists ck.
  - intros [ck Hv]. exists ((ik, ck), group_first recs (ik, ck)).
    split; [done|]. by apply elem_of_pivot_agged.
Qed.

Lemma elem_of_pivot_labels recs ck :
  ck ∈ pivot_labels (pivot_agged recs) ↔ ∃ ik, notna (group_first recs (ik, ck)).
Proof.
  unfold pivot_labels. rewrite list_elem_of_filter.
  rewrite merge_sort_Permutation, elem_of_remove_dups, list_elem_of_fmap. split.
  - intros [(ik & Hik & Hv)%Is_true_true%existsb_exists _].
    exists ik. rewrite lookup_agg_first in Hv. by apply Is_true_true.
  - intros [ik Hv]. split.
    + apply Is_true_true, existsb_exists. exists ik. split.
      * apply list_elem_of_In, elem_of_pivot_index. by exists ck.
      * rewrite lookup_agg_first. by apply Is_true_true.
    + exists ((ik, ck), group_first recs (ik, ck)).
      split; [done|]. by apply elem_of_pivot_agged.
Qed.

Lemma NoDup_pivot_index agged : NoDup (pivot_index agged).
Proof.
  unfold pivot_index. rewrite merge_sort_Permutation. apply NoDup_remove_dups.
Qed.

Lemma NoDup_pivot_labels agged : NoDup (pivot_labels agged).
Proof.
  unfold pivot_labels. apply NoDup_filter.
  rewrite merge_sort_Permutation. apply NoDup_remove_dups.
Qed.

Lemma elem_of_pivot_recs df index colkey values x :
  x ∈ pivot_recs df index colkey values ↔
  (forallb notna x.1.1 && notna x.1.2) ∧
  ∃ r, r ∈ rows df ∧
       x = (select_cells (columns df) index r, get_cell (columns df) colkey r,
            get_cell (columns df) values r).
Proof.
  unfold pivot_recs. rewrite list_elem_of_filter, list_elem_of_fmap. split.
  - intros [H (r & -> & Hr)]. eauto.
  - intros [H (r & Hr & ->)]. eauto.
Qed.

Lemma pivot_index_key df index colkey values ik :
  ik ∈ pivot_index (pivot_agged (pivot_recs df index colkey values)) →
  length ik = length index ∧ Forall (λ v, notna v) ik.
Proof.
  intros [ck Hv%group_first_in]%elem_of_pivot_index.
  apply list_elem_of_fmap in Hv as (x & Hx & [Hk (r & _ & ->)]%elem_of_pivot_recs).
  simpl in *. injection Hx as -> ->. split.
  - unfold select_cells. by rewrite length_fmap.
  - apply andb_prop_elim in Hk as [Hk _]. apply Is_true_true in Hk.
    rewrite forallb_forall in Hk. apply Forall_forall.
    intros v Hin%list_elem_of_In. apply Is_true_true. by apply Hk.
Qed.

Lemma pivot_table_first_inv df index colkey values pt :
  pivot_table_first df index colkey values = Ok pt →
  let agged := pivot_agged (pivot_recs df index colkey values) in
  (values :: index ++ [colkey]) ⊆ columns df ∧
  columns pt = index ++ (py_str <$> pivot_labels agged) ∧
  rows pt = (λ ik, ik ++ (lookup_agg agged ik <$> pivot_labels agged))
            <$> pivot_index agged.
Proof.
  unfold pivot_table_first.
  destruct (list_find _ _) as [[??]|] eqn:E; [done|].
  intros <-%Ok_inj. split; [|done].
  apply list_find_None in E. rewrite Forall_forall in E.
  intros c Hc. specialize (E c Hc). by apply dec_stable in E.
Qed.

Lemma locate_inv exact fb cols c :
  locate exact fb cols = Some c → c ∈ cols ∧ (c = exact ∨ fb c = true).
Proof.
  unfold locate. case_decide.
  - intros [= <-]. auto.
  - destruct (list_find _ cols) as [[i x]|] eqn:E; [|done]. intros [= <-].
    apply list_find_Some in E as (E%list_elem_of_lookup_2 & Hfb & _). auto.
Qed.

Lemma reserved_not_provider :
  Forall (λ x, x ≠ CCN ∧ provider_fallback x = false) reserved_labels.
Proof. apply (bool_decide_unpack _). by vm_compute. Qed.

Lemma provider_col_fresh cols pcol :
  locate CCN provider_fallback cols = Some pcol → pcol ∉ reserved_labels.
Proof.
  intros [_ H]%locate_inv Hin.
  pose proof reserved_not_provider as F. rewrite Forall_forall in F.
  destruct (F _ Hin) as [F1 F2]. destruct H; congruence.
Qed.

Lemma measure_col_fresh cols mcol :
  locate "Measure Code" measure_fallback cols = Some mcol → mcol ≠ "score_numeric".
Proof. intros [_ [->|H]]%locate_inv; [done|]. by intros ->. Qed.

Lemma NoDup_measure_codes : NoDup measure_codes.
Proof. apply (bool_decide_unpack _). by vm_compute. Qed.

Lemma NoDup_measure_labels : NoDup measure_labels.
Proof. apply (bool_decide_unpack _). by vm_compute. Qed.

Lemma measure_labels_not_keys : Forall (λ l, l ∉ join_key) measure_labels.
Proof. apply (bool_decide_unpack _). by vm_compute. Qed.

Lemma measure_codes_not_keys :
  Forall (λ c, c ∉ ["snapshot_year"; "snapshot_label"]) measure_codes.
Proof. apply (bool_decide_unpack _). by vm_compute. Qed.

Lemma MEASURE_MAP_lookup code label :
  (code, label) ∈ MEASURE_MAP →
  (list_to_map MEASURE_MAP : gmap string string) !! code = Some label.
Proof. apply elem_of_list_to_map_1, NoDup_measure_codes. Qed.

Lemma MEASURE_MAP_lookup_None c :
  c ∉ measure_codes → (list_to_map MEASURE_MAP : gmap string string) !! c = None.
Proof. apply not_elem_of_list_to_map_1. Qed.

Lemma MEASURE_MAP_label_inj code1 code2 label :
  (code1, label) ∈ MEASURE_MAP → (code2, label) ∈ MEASURE_MAP → code1 = code2.
Proof.
  revert code1 code2 label.
  assert (Forall (λ x, Forall (λ y, x.2 = y.2 → x.1 = y.1) MEASURE_MAP) MEASURE_MAP) as F.
  { apply (bool_decide_unpack _). by vm_compute. }
  intros c1 c2 l H1 H2. rewrite Forall_forall in F. specialize (F _ H1).
  rewrite Forall_forall in F. by apply (F _ H2).
Qed.

Lemma pivot_rename_code pcol code label :
  pcol ∉ reserved_labels → (code, label) ∈ MEASURE_MAP →
  pivot_rename pcol code = label.
Proof.
  intros Hp Hin. unfold pivot_rename. rewrite (MEASURE_MAP_lookup _ _ Hin). simpl.
  rewrite lookup_singleton_ne; [done|].
  intros ->. apply Hp. unfold reserved_labels.
  apply elem_of_app. right. apply elem_of_app. left.
  apply list_elem_of_fmap. by exists (code, label).
Qed.

Lemma pivot_rename_other pcol c :
  c ∉ measure_codes → c ≠ pcol → pivot_rename pcol c = c.
Proof.
  intros Hc Hp. unfold pivot_rename. rewrite MEASURE_MAP_lookup_None by done.
  simpl. by rewrite lookup_singleton_ne.
Qed.

Lemma pivot_rename_provider pcol :
  pcol ∉ reserved_labels → pivot_rename pcol pcol = "provider_id".
Proof.
  intros Hp. unfold pivot_rename. rewrite MEASURE_MAP_lookup_None.
  - simpl. by rewrite lookup_singleton_eq.
  - intros Hin. apply Hp. unfold reserved_labels. apply elem_of_app. by left.
Qed.

Lemma pivot_rename_index pcol :
  pcol ∉ reserved_labels →
  pivot_rename pcol <$> pivot_index_cols pcol = join_key.
Proof.
  intros Hp. unfold pivot_index_cols, join_key. simpl.
  rewrite (pivot_rename_provider _ Hp).
  pose proof measure_codes_not_keys as F. rewrite Forall_forall in F.
  assert (∀ c, c ∈ ["snapshot_year"; "snapshot_label"] → pivot_rename pcol c = c) as H.
  { intros c Hc. apply pivot_rename_other.
    - intros Hin. by apply (F _ Hin).
    - intros ->. apply Hp. unfold reserved_labels.
      do 2 (apply elem_of_app; right).
      apply elem_of_cons in Hc as [->|Hc]; [by left|].
      apply list_elem_of_singleton in Hc as ->. right. by left. }
  rewrite !H; [done|right; by left|by left].
Qed.

Lemma pivot_measures_inv df mcol pcol scol out :
  locate "Measure Code" measure_fallback (columns df) = Some mcol →
  locate CCN provider_fallback (columns df) = Some pcol →
  locate "Score" score_fallback (columns df) = Some scol →
  pivot_measures df = Ok out →
  let agged := pivot_agged (pivot_recs (measure_subset df mcol scol)
                              (pivot_index_cols pcol) mcol "score_numeric") in
  columns out = join_key ++ (pivot_rename pcol ∘ py_str <$> pivot_labels agged) ∧
  rows out = (λ ik, ik ++ (lookup_agg agged ik <$> pivot_labels agged))
             <$> pivot_index agged.
Proof.
  intros Hm Hp Hs. unfold pivot_measures. rewrite Hm, Hp, Hs.
  intros (pt & (_ & Hc & Hr)%pivot_table_first_inv & Hout%Ok_inj)%bind_Ok.
  subst out. unfold rename_columns. cbn [columns rows]. split; [|done].
  rewrite Hc, <-list_fmap_compose, fmap_app.
  rewrite <-(pivot_rename_index pcol) by (by eapply provider_col_fresh).
  by rewrite <-list_fmap_compose.
Qed.

Lemma select_join_key_prefix more a b c rest :
  select_cells (join_key ++ more) join_key ([a; b; c] ++ rest) = [a; b; c].
Proof. done. Qed.

(** The pivot output has one row per (provider, year, label). *)
Lemma pivot_measures_keys df out :
  pivot_measures df = Ok out →
  NoDup (select_cells (columns out) join_key <$> rows out).
Proof.
  intros Hout.
  destruct (locate "Measure Code" measure_fallback (columns df)) as [mcol|] eqn:Hm;
    [|unfold pivot_measures in Hout; rewrite Hm in Hout;
      apply Ok_inj in Hout; subst out; constructor].
  destruct (locate CCN provider_fallback (columns df)) as [pcol|] eqn:Hp;
    [|unfold pivot_measures in Hout; rewrite Hm, Hp in Hout;
      apply Ok_inj in Hout; subst out; constructor].
  destruct (locate "Score" score_fallback (columns df)) as [scol|] eqn:Hs;
    [|unfold pivot_measures in Hout; rewrite Hm, Hp, Hs in Hout;
      apply Ok_inj in Hout; subst out; constructor].
  destruct (pivot_measures_inv _ _ _ _ _ Hm Hp Hs Hout) as [-> ->].
  rewrite <-list_fmap_compose.
  erewrite list_fmap_ext; [|intros i ik Hik%list_elem_of_lookup_2].
  - rewrite list_fmap_id. apply NoDup_pivot_index.
  - apply pivot_index_key in Hik as [Hlen _]. simpl.
    destruct ik as [|a [|b [|c [|]]]]; try done.
Qed.

(** C7.  The join key (provider_id, snapshot_year, snapshot_label) is
    carried by at most one row of the output of [pivot_measures] and by
    at most one row of the output of [build_facility_table]. *)
Theorem join_key_unique_before_join df quality facilities :
  pivot_measures df = Ok quality →
  build_facility_table df = Ok facilities →
  NoDup (select_cells (columns quality) join_key <$> rows quality) ∧
  NoDup (select_cells (columns facilities) join_key <$> rows facilities).
Proof.
  intros Hq Hf. split.
  - by eapply pivot_measures_keys.
  - by eapply build_facility_table_keys.
Qed.

Lemma measure_subset_rows df mcol scol :
  rows (measure_subset df mcol scol)
  = (λ r, set_cell (columns df) "score_numeric"
            (to_numeric (get_cell (columns df) scol r)) r)
    <$> filter (λ r, is_measure_code (get_cell (columns df) mcol r)) (rows df).
Proof.
  unfold measure_subset, set_column, series. cbn [rows columns].
  rewrite <-list_fmap_compose.
  rewrite (boolean_index_fmap2 is_measure_code (get_cell (columns df) mcol)).
  rewrite <-list_fmap_compose. apply zip_with_fmap_same_l.
Qed.

Lemma pivot_recs_source df mcol pcol scol :
  rectangular df →
  pcol ∉ reserved_labels → mcol ≠ "score_numeric" →
  pivot_recs (measure_subset df mcol scol) (pivot_index_cols pcol) mcol "score_numeric"
  = source_recs df pcol mcol scol.
Proof.
  intros Hrect Hp Hm. unfold pivot_recs, source_recs. f_equal.
  rewrite measure_subset_rows, <-list_fmap_compose.
  apply list_fmap_ext. intros i r [_ Hr]%list_elem_of_lookup_2%list_elem_of_filter.
  assert (length r = length (columns df)) as Hlen
    by (by eapply (proj1 (Forall_forall _ _) Hrect)).
  assert (pcol ≠ "score_numeric") as Hp'.
  { intros ->. apply Hp. unfold reserved_labels.
    do 2 (apply elem_of_app; right). right. right. by left. }
  simpl. unfold measure_subset, set_column. cbn [columns].
  unfold select_cells, pivot_index_cols. simpl.
  rewrite !get_set_ne by done. by rewrite get_set_eq.
Qed.

Lemma filter_filter_fmap {A B} (P Q : B → Prop) (R : A → Prop)
    `{!∀ x, Decision (P x)} `{!∀ x, Decision (Q x)} `{!∀ x, Decision (R x)}
    (f : A → B) (l : list A) :
  filter P (filter Q (f <$> filter R l))
  = f <$> filter (λ r, P (f r) ∧ Q (f r) ∧ R r) l.
Proof.
  induction l as [|x l IH]; [done|].
  rewrite !(filter_cons _ x). destruct (decide (R x)) as [HR|HR].
  - rewrite fmap_cons, (filter_cons Q). destruct (decide (Q (f x))) as [HQ|HQ].
    + rewrite (filter_cons P). destruct (decide (P (f x))) as [HP|HP].
      * rewrite decide_True by done. by rewrite fmap_cons, IH.
      * rewrite decide_False by tauto. done.
    + rewrite decide_False by tauto. done.
  - rewrite decide_False by tauto. done.
Qed.

(** The aggregate of a group is the first non-missing coerced score of
    its source rows. *)
Lemma group_first_source df pcol mcol scol ik code :
  Forall (λ v, notna v) ik → code ∈ measure_codes →
  group_first (source_recs df pcol mcol scol) (ik, Str code)
  = first_score df pcol mcol scol ik code.
Proof.
  intros Hik Hcode. unfold group_first, source_recs, first_score.
  rewrite filter_filter_fmap, <-list_fmap_compose.
  rewrite (list_filter_iff _
             (λ r, select_cells (columns df) (pivot_index_cols pcol) r = ik ∧
                   get_cell (columns df) mcol r = Str code)); [done|].
  intros r. cbn [fst snd]. split.
  - intros ([= <- E] & _ & _). done.
  - intros [<- E]. rewrite E. split; [done|]. split.
    + apply andb_prop_intro. split; [|done].
      apply Is_true_true, forallb_forall. intros v Hv%list_elem_of_In.
      apply Is_true_true. rewrite Forall_forall in Hik. by apply Hik.
    + simpl. by apply bool_decide_pack.
Qed.

Lemma get_cell_app_r a b c ra rb :
  c ∉ a → length ra = length a →
  get_cell (a ++ b) c (ra ++ rb) = get_cell b c rb.
Proof.
  intros Hc Hlen. unfold get_cell. rewrite col_index_app_r by done.
  destruct (col_index c b) as [i|]; [|done]. simpl.
  rewrite lookup_app_r by lia. do 2 f_equal. lia.
Qed.

Lemma get_cell_fmap {A} (f : A → string) (g : A → cell) (xs : list A) x :
  x ∈ xs → (∀ y, y ∈ xs → f y = f x → y = x) →
  get_cell (f <$> xs) (f x) (g <$> xs) = g x.
Proof.
  induction xs as [|y xs IH]; intros Hx Hinj; [by apply elem_of_nil in Hx|].
  unfold get_cell. rewrite !fmap_cons.
  destruct (decide (f y = f x)) as [E|Hne].
  - assert (y = x) as -> by (apply Hinj; [by left|done]).
    by rewrite col_index_cons_eq.
  - rewrite col_index_cons_ne by done.
    apply elem_of_cons in Hx as [->|Hx]; [done|].
    specialize (IH Hx (λ z Hz, Hinj z (list_elem_of_further _ _ _ Hz))).
    unfold get_cell in IH.
    destruct (col_index (f x) (f <$> xs)) as [i|]; simpl in *; done.
Qed.

(** Every pivoted label is one of the nine measure codes. *)
Lemma pivot_labels_codes df pcol mcol scol ck :
  ck ∈ pivot_labels (pivot_agged (source_recs df pcol mcol scol)) →
  ∃ code, ck = Str code ∧ code ∈ measure_codes.
Proof.
  intros [ik Hv%group_first_in]%elem_of_pivot_labels.
  apply list_elem_of_fmap in Hv as (x & Hx & [_ Hin]%list_elem_of_filter).
  apply list_elem_of_fmap in Hin as (r & -> & [Hcode _]%list_elem_of_filter).
  simpl in Hx. injection Hx as _ ->.
  destruct (get_cell (columns df) mcol r) as [|s| |]; try done.
  exists s. split; [done|]. simpl in Hcode. by apply bool_decide_unpack in Hcode.
Qed.

Lemma pivot_label_of_code df pcol mcol scol ck :
  pcol ∉ reserved_labels →
  ck ∈ pivot_labels (pivot_agged (source_recs df pcol mcol scol)) →
  ∃ code label, ck = Str code ∧ (code, label) ∈ MEASURE_MAP ∧
                pivot_rename pcol (py_str ck) = label.
Proof.
  intros Hp (code & -> & Hcode)%pivot_labels_codes.
  apply list_elem_of_fmap in Hcode as ([code' label] & -> & Hin). simpl.
  exists code', label. split_and!; [done|done|]. by apply pivot_rename_code.
Qed.

Lemma source_index_key df pcol mcol scol ik :
  ik ∈ pivot_index (pivot_agged (source_recs df pcol mcol scol)) →
  length ik = 3 ∧ Forall (λ v, notna v) ik.
Proof.
  intros [ck Hv%group_first_in]%elem_of_pivot_index.
  apply list_elem_of_fmap in Hv as (x & Hx & [Hk Hin]%list_elem_of_filter).
  apply list_elem_of_fmap in Hin as (r & -> & _).
  cbn [fst snd] in *. injection Hx as -> ->. split; [done|].
  apply andb_prop_elim in Hk as [Hk _]. apply Is_true_true in Hk.
  rewrite forallb_forall in Hk. apply Forall_forall.
  intros v Hin%list_elem_of_In. apply Is_true_true. by apply Hk.
Qed.

Lemma select_join_key_row more ik rest :
  length ik = 3 → select_cells (join_key ++ more) join_key (ik ++ rest) = ik.
Proof. intros H. by destruct ik as [|a [|b [|c [|]]]]. Qed.

(** C4.  In the output of [pivot_measures], the cell of a row in the
    column of a measure holds the first non-missing coerced score, in
    input order, of the source rows of that (provider, year, label,
    measure) group, however many rows the group has; every group with a
    score has its row and its column; and each key has one row, so a
    group has one cell. *)
Theorem pivot_cell_is_first_score df out mcol pcol scol :
  rectangular df →
  locate "Measure Code" measure_fallback (columns df) = Some mcol →
  locate CCN provider_fallback (columns df) = Some pcol →
  locate "Score" score_fallback (columns df) = Some scol →
  pivot_measures df = Ok out →
  (∀ r code label,
     r ∈ rows out → (code, label) ∈ MEASURE_MAP → label ∈ columns out →
     get_cell (columns out) label r
     = first_score df pcol mcol scol (select_cells (columns out) join_key r) code) ∧
  (∀ k code label,
     (code, label) ∈ MEASURE_MAP → Forall (λ v, notna v) k →
     notna (first_score df pcol mcol scol k code) →
     (label ∈ columns out) ∧
     ∃ r, r ∈ rows out ∧ select_cells (columns out) join_key r = k) ∧
  NoDup (select_cells (columns out) join_key <$> rows out).
Proof.
  intros Hrect Hm Hp Hs Hout.
  pose proof (provider_col_fresh _ _ Hp) as Hfresh.
  pose proof (measure_col_fresh _ _ Hm) as Hmne.
  destruct (pivot_measures_inv _ _ _ _ _ Hm Hp Hs Hout) as [Hcols Hrows].
  rewrite (pivot_recs_source df mcol pcol scol Hrect Hfresh Hmne) in Hcols, Hrows.
  set (recs := source_recs df pcol mcol scol) in *.
  set (cks := pivot_labels (pivot_agged recs)) in *.
  assert (∀ code label, (code, label) ∈ MEASURE_MAP → label ∉ join_key) as Hlab.
  { intros code label Hin. pose proof measure_labels_not_keys as F.
    rewrite Forall_forall in F. apply F, list_elem_of_fmap. by exists (code, label). }
  assert (∀ code label ck, (code, label) ∈ MEASURE_MAP → ck ∈ cks →
            (pivot_rename pcol ∘ py_str) ck = label → ck = Str code) as Hinj.
  { intros code label ck Hin Hck Hren.
    destruct (pivot_label_of_code _ _ _ _ _ Hfresh Hck) as (c2 & l2 & -> & Hin2 & E).
    change (pivot_rename pcol (py_str (Str c2)) = label) in Hren.
    rewrite Hren in E. subst l2. f_equal.
    by eapply MEASURE_MAP_label_inj. }
  split_and!.
  - intros r code label Hr Hin Hlabel. rewrite Hcols, Hrows in *.
    apply list_elem_of_fmap in Hr as (ik & -> & Hik).
    destruct (source_index_key _ _ _ _ _ Hik) as [Hlen Hna].
    rewrite select_join_key_row by done.
    apply elem_of_app in Hlabel as [Hk|Hlabel]; [by destruct (Hlab _ _ Hin)|].
    apply list_elem_of_fmap in Hlabel as (ck & E & Hck).
    pose proof (Hinj _ _ _ Hin Hck (eq_sym E)) as ->.
    rewrite get_cell_app_r; [|by eapply Hlab|done].
    rewrite E, (get_cell_fmap (pivot_rename pcol ∘ py_str)); [|done|].
    + rewrite lookup_agg_first. apply group_first_source; [done|].
      apply list_elem_of_fmap. by exists (code, label).
    + intros y Hy Ey. eapply Hinj; [done..|]. by rewrite Ey, <-E.
  - intros k code label Hin Hk Hv.
    assert (code ∈ measure_codes) as Hcode
      by (apply list_elem_of_fmap; by exists (code, label)).
    rewrite <-(group_first_source df pcol mcol scol k code Hk Hcode) in Hv.
    fold recs in Hv.
    assert (Str code ∈ cks) as Hck by (apply elem_of_pivot_labels; eauto).
    assert (k ∈ pivot_index (pivot_agged recs)) as Hidx
      by (apply elem_of_pivot_index; eauto).
    rewrite Hcols, Hrows. split.
    + apply elem_of_app. right. apply list_elem_of_fmap. exists (Str code).
      split; [|done]. simpl. symmetry. by apply pivot_rename_code.
    + exists (k ++ (lookup_agg (pivot_agged recs) k <$> cks)). split.
      * apply list_elem_of_fmap. by exists k.
      * apply select_join_key_row.
        by destruct (source_index_key _ _ _ _ _ Hidx) as [Hlen _].
  - by eapply pivot_measures_keys.
Qed.

(** The pivot output is a wide quality table whose measure columns
    carry labels of [MEASURE_MAP], and each of its rows holds a score in
    at least one of them: a (provider, year, label) group without any
    score does not make a row. *)
Lemma pivot_measures_wide_quality df out mcol pcol scol :
  rectangular df →
  locate "Measure Code" measure_fallback (columns df) = Some mcol →
  locate CCN provider_fallback (columns df) = Some pcol →
  locate "Score" score_fallback (columns df) = Some scol →
  pivot_measures df = Ok out →
  ∃ mcols, wide_quality out mcols ∧
    (∀ c, c ∈ mcols → c ∈ measure_labels) ∧
    (∀ r, r ∈ rows out → ∃ c, c ∈ mcols ∧ notna (get_cell (columns out) c r)).
Proof.
  intros Hrect Hm Hp Hs Hout.
  pose proof (provider_col_fresh _ _ Hp) as Hfresh.
  pose proof (measure_col_fresh _ _ Hm) as Hmne.
  destruct (pivot_measures_inv _ _ _ _ _ Hm Hp Hs Hout) as [Hcols Hrows].
  rewrite (pivot_recs_source df mcol pcol scol Hrect Hfresh Hmne) in Hcols, Hrows.
  set (recs := source_recs df pcol mcol scol) in *.
  set (cks := pivot_labels (pivot_agged recs)) in *.
  assert (∀ ck, ck ∈ cks → (pivot_rename pcol ∘ py_str) ck ∈ measure_labels) as Hlab.
  { intros ck Hck.
    destruct (pivot_label_of_code _ _ _ _ _ Hfresh Hck) as (code & label & -> & Hin & E).
    apply list_elem_of_fmap. exists (code, label). split; [|done].
    simpl. by rewrite <-E. }
  assert (∀ ck1 ck2, ck1 ∈ cks → ck2 ∈ cks →
            (pivot_rename pcol ∘ py_str) ck1 = (pivot_rename pcol ∘ py_str) ck2 →
            ck1 = ck2) as Hinj.
  { intros ck1 ck2 H1 H2 E.
    destruct (pivot_label_of_code _ _ _ _ _ Hfresh H1) as (c1 & l1 & -> & Hin1 & E1).
    destruct (pivot_label_of_code _ _ _ _ _ Hfresh H2) as (c2 & l2 & -> & Hin2 & E2).
    change (pivot_rename pcol (py_str (Str c1)) = pivot_rename pcol (py_str (Str c2))) in E.
    rewrite E1, E2 in E. subst l2. f_equal.
    by eapply MEASURE_MAP_label_inj. }
  pose proof measure_labels_not_keys as Hkeys. rewrite Forall_forall in Hkeys.
  exists (pivot_rename pcol ∘ py_str <$> cks). split_and!.
  - split_and!; [done| |].
    + apply NoDup_fmap_2_strong; [|apply NoDup_pivot_labels].
      intros x y Hx Hy. by apply Hinj.
    + apply Forall_forall. intros c (ck & -> & Hck)%list_elem_of_fmap.
      by apply Hkeys, Hlab.
  - intros c (ck & -> & Hck)%list_elem_of_fmap. by apply Hlab.
  - intros r Hr. rewrite Hrows in Hr.
    apply list_elem_of_fmap in Hr as (ik & -> & Hik).
    destruct (source_index_key _ _ _ _ _ Hik) as [Hlen _].
    pose proof Hik as [ck Hv]%elem_of_pivot_index.
    assert (ck ∈ cks) as Hck by (apply elem_of_pivot_labels; eauto).
    exists ((pivot_rename pcol ∘ py_str) ck). split.
    + apply list_elem_of_fmap. by exists ck.
    + rewrite Hcols, get_cell_app_r; [|by apply Hkeys, Hlab|done].
      rewrite (get_cell_fmap (pivot_rename pcol ∘ py_str)); [|done|].
      * by rewrite lookup_agg_first.
      * intros y Hy Ey. by apply Hinj.
Qed.

(** ** The order on keys is total *)

Lemma cell_leb_total a b : a ≠ b → cell_leb a b = false → cell_leb b a = true.
Proof.
  destruct a as [|x|x|x1 x2], b as [|y|y|y1 y2]; simpl; try done.
  - intros _ H%bool_decide_eq_false. apply bool_decide_eq_true.
    by destruct (total String.le x y).
  - intros _ H%bool_decide_eq_false. apply bool_decide_eq_true.
    by destruct (total Qcle x y).
  - intros Hne. destruct (decide (x1 = y1)) as [->|H1].
    + rewrite decide_True by done.
      intros H%bool_decide_eq_false. apply bool_decide_eq_true.
      by destruct (total String.le x2 y2).
    + rewrite (decide_False (P := y1 = x1)) by done.
      intros H%bool_decide_eq_false. apply bool_decide_eq_true.
      by destruct (total String.le x1 y1).
Qed.

Global Instance key_le_total : Total key_le.
Proof.
  intros k1. unfold key_le. induction k1 as [|a k1 IH]; intros [|b k2]; simpl; auto.
  destruct (decide (a = b)) as [->|Hne].
  - rewrite decide_True by done. apply IH.
  - rewrite (decide_False (P := b = a)) by done.
    destruct (cell_leb a b) eqn:E; [by left|right].
    by rewrite (cell_leb_total a b).
Qed.


(** ** The trend aggregation *)

Lemma filter_Forall_id {A} (P : A → Prop) `{!∀ x, Decision (P x)} (l : list A) :
  Forall P l → filter P l = l.
Proof.
  induction 1 as [|x l Hx _ IH]; [done|].
  by rewrite filter_cons, decide_True, IH.
Qed.

Lemma filter_Forall_nil {A} (P : A → Prop) `{!∀ x, Decision (P x)} (l : list A) :
  Forall (λ x, ¬ P x) l → filter P l = [].
Proof.
  induction 1 as [|x l Hx _ IH]; [done|].
  by rewrite filter_cons, decide_False, IH.
Qed.

Lemma filter_bind {A B} (P : B → Prop) `{!∀ x, Decision (P x)}
    (f : A → list B) (l : list A) :
  filter P (l ≫= f) = l ≫= (λ x, filter P (f x)).
Proof.
  induction l as [|x l IH]; [done|].
  cbn [mbind list_bind]. by rewrite filter_app, IH.
Qed.

Lemma bind_ext {A B} (f g : A → list B) (l : list A) :
  (∀ x, f x = g x) → l ≫= f = l ≫= g.
Proof.
  intros H. induction l as [|x l IH]; [done|].
  cbn [mbind list_bind]. by rewrite H, IH.
Qed.



Lemma wide_quality_melt qw mcols :
  wide_quality qw mcols →
  dropna (melt qw (filter (λ c, c ∈ columns qw) join_key) "measure" "score")
  = mkDF long_columns (long_rows qw mcols).
Proof.
  intros (Hcols & _ & Hfresh).
  assert (filter (λ c, c ∈ columns qw) join_key = join_key) as ->.
  { apply filter_Forall_id, Forall_forall. intros c Hc. rewrite Hcols.
    apply elem_of_app. by left. }
  unfold dropna, melt, long_rows. cbn [columns rows]. f_equal.
  assert (filter (λ c, c ∉ join_key) (columns qw) = mcols) as ->.
  { rewrite Hcols, filter_app, (filter_Forall_id _ mcols) by done.
    rewrite filter_Forall_nil; [done|].
    apply Forall_forall. intros c Hc Hn. done. }
  rewrite filter_bind. apply bind_ext. intros m.
  rewrite list_filter_fmap_comm. f_equal. apply list_filter_iff. intros r.
  unfold has_score. rewrite forallb_app.
  replace (forallb notna [Str m; get_cell (columns qw) m r])
    with (notna (get_cell (columns qw) m r)); [done|].
  simpl. by rewrite andb_true_r.
Qed.

Lemma long_row_cells qw m r :
  trend_key long_columns (long_row qw m r)
  = [Str m; get_cell (columns qw) "snapshot_year" r] ∧
  get_cell long_columns "provider_id" (long_row qw m r)
  = get_cell (columns qw) "provider_id" r ∧
  get_cell long_columns "score" (long_row qw m r) = get_cell (columns qw) m r.
Proof. done. Qed.

Lemma elem_of_long_rows qw mcols lr :
  lr ∈ long_rows qw mcols ↔
  ∃ m r, m ∈ mcols ∧ r ∈ rows qw ∧ has_score qw m r ∧ lr = long_row qw m r.
Proof.
  unfold long_rows. rewrite list_elem_of_bind. split.
  - intros (m & (r & -> & [H Hr]%list_elem_of_filter)%list_elem_of_fmap & Hm).
    by exists m, r.
  - intros (m & r & Hm & Hr & H & ->). exists m. split; [|done].
    apply list_elem_of_fmap. exists r. split; [done|].
    by apply list_elem_of_filter.
Qed.

Lemma has_score_year qw m r :
  has_score qw m r → notna (get_cell (columns qw) "snapshot_year" r).
Proof.
  unfold has_score, select_cells, join_key. simpl.
  intros [(_ & (H & _)%andb_prop_elim)%andb_prop_elim _]%andb_prop_elim. done.
Qed.

Lemma long_rows_keyed qw mcols :
  filter (λ r, forallb notna (trend_key long_columns r)) (long_rows qw mcols)
  = long_rows qw mcols.
Proof.
  apply filter_Forall_id, Forall_forall.
  intros lr (m & r & _ & _ & Hs & ->)%elem_of_long_rows.
  destruct (long_row_cells qw m r) as (-> & _). simpl.
  apply has_score_year in Hs. by destruct (get_cell _ _ r).
Qed.








(** ** The orchestrator *)

Lemma run_raises county_csv archive output_dir include_live live now_year fs e :
  run_tables county_csv archive include_live live now_year = Raise e →
  run county_csv archive output_dir include_live live now_year fs = (Raise e, fs).
Proof. intros H. unfold run. by rewrite H. Qed.

Lemma load_frames_none include_live live now_year :
  include_live = false ∨ live = None →
  load_frames [] include_live live now_year = [].
Proof.
  unfold load_frames. intros [-> | ->]; [done|]. by destruct include_live.
Qed.

(** C9.  With no archive file and the live snapshot disabled or failed,
    the run ends with a non-zero exit status and leaves the output
    directory as it found it: neither CSV file is written.  When the
    county list loads, the exception is the [SystemExit] of the guard on
    the empty frame list. *)
Theorem run_without_sources_aborts county_csv output_dir include_live live
    now_year (fs : file_system) :
  include_live = false ∨ live = None →
  let out := run county_csv [] output_dir include_live live now_year fs in
  exit_status out.1 ≠ 0%Z ∧ out.2 = fs ∧
  (is_Some (fs !! quality_csv output_dir) ∨ out.2 !! quality_csv output_dir = None) ∧
  (is_Some (fs !! trend_csv output_dir) ∨ out.2 !! trend_csv output_dir = None) ∧
  (∀ counties, load_counties county_csv = Ok counties →
     out.1 = Raise (SystemExit no_data)).
Proof.
  intros Hsrc.
  assert (∃ e, run_tables county_csv [] include_live live now_year = Raise e ∧
               (∀ counties, load_counties county_csv = Ok counties →
                  e = SystemExit no_data)) as (e & He & Hmsg).
  { unfold run_tables. destruct (load_counties county_csv) as [cn|e0]; cbn.
    - rewrite load_frames_none by done. rewrite decide_True by done. eauto.
    - exists e0. split; [done|]. congruence. }
  cbv zeta. rewrite (run_raises _ _ _ _ _ _ _ _ He). simpl.
  split_and!; [done|done| | |].
  - destruct (fs !! quality_csv output_dir); eauto.
  - destruct (fs !! trend_csv output_dir); eauto.
  - intros cn Hcn. by rewrite (Hmsg cn Hcn).
Qed.

Lemma pivot_measures_unlocated df :
  pivot_located (columns df) = false → pivot_measures df = Ok empty_frame.
Proof.
  unfold pivot_located, pivot_measures. intros H%bool_decide_eq_false.
  destruct (locate "Measure Code" _ _); [|done].
  destruct (locate CCN _ _); [|done].
  destruct (locate "Score" _ _); [|done].
  destruct H. eauto.
Qed.

Lemma merge_left_empty_frame right :
  merge_left empty_frame right join_key = Raise (KeyError "provider_id").
Proof. done. Qed.

(** C2.  When one of the three pivot columns cannot be located,
    [pivot_measures] returns the empty frame; the join on the three key
    labels that follows then raises [KeyError] on [provider_id], the run
    ends with a non-zero status and nothing is written. *)
Theorem unlocated_pivot_aborts_run county_csv archive output_dir include_live
    live now_year (fs : file_system) counties filtered :
  load_counties county_csv = Ok counties →
  load_frames archive include_live live now_year ≠ [] →
  filter_to_counties
    (concat_frames (load_frames archive include_live live now_year)) counties
    = Ok filtered →
  pivot_located (columns filtered) = false →
  pivot_measures filtered = Ok empty_frame ∧
  run county_csv archive output_dir include_live live now_year fs
  = (Raise (KeyError "provider_id"), fs).
Proof.
  intros Hcn Hfr Hfilt Hloc.
  pose proof (pivot_measures_unlocated _ Hloc) as Hp. split; [done|].
  apply run_raises. unfold run_tables. rewrite Hcn. cbn [mbind result_bind].
  rewrite decide_False by done.
  pose proof (concat_frames_snapshot_year _ _ _ _ Hfr) as Hy.
  rewrite (getitem_Ok _ _ Hy). cbn [mbind result_bind].
  rewrite Hfilt. cbn [mbind result_bind].
  pose proof (filter_to_counties_keeps_labels _ _ _ _ Hfilt Hy) as Hy'.
  rewrite (getitem_Ok _ _ Hy'). cbn [mbind result_bind].
  destruct (build_facility_table_Ok _ Hy') as [fac ->]. cbn [mbind result_bind].
  rewrite Hp. cbn [mbind result_bind]. by rewrite merge_left_empty_frame.
Qed.

(** * Further properties *)

(** ** Python string methods *)

Lemma string_app_cons (x : ascii) (a b : string) :
  String x a +:+ b = String x (a +:+ b).
Proof. done. Qed.

Lemma string_app_nil_l (s : string) : "" +:+ s = s.
Proof. done. Qed.

Lemma string_app_assoc (a b c : string) : (a +:+ b) +:+ c = a +:+ b +:+ c.
Proof.
  induction a as [|x a IH]; [done|]. by rewrite !string_app_cons, IH.
Qed.

Lemma string_app_nil_r (s : string) : s +:+ "" = s.
Proof. induction s as [|x s IH]; [done|]. by rewrite string_app_cons, IH. Qed.

Lemma string_app_length (a b : string) :
  Strings.String.length (a +:+ b) = Strings.String.length a + Strings.String.length b.
Proof.
  induction a as [|x a IH]; [done|]. rewrite string_app_cons. simpl. by rewrite IH.
Qed.

Lemma rev_app_append (s1 s2 : string) : String.rev_app s1 s2 = String.rev s1 +:+ s2.
Proof.
  unfold String.rev. revert s2.
  induction s1 as [|a s1 IH]; intros s2; simpl; [done|].
  rewrite (IH (String a s2)), (IH (String a "")).
  by rewrite string_app_assoc, string_app_cons, string_app_nil_l.
Qed.

Lemma rev_cons (a : ascii) (s : string) :
  String.rev (String a s) = String.rev s +:+ String a "".
Proof. unfold String.rev at 1. simpl. apply rev_app_append. Qed.

Lemma rev_append (a b : string) : String.rev (a +:+ b) = String.rev b +:+ String.rev a.
Proof.
  induction a as [|x a IH].
  - by rewrite string_app_nil_l, string_app_nil_r.
  - by rewrite string_app_cons, !rev_cons, IH, string_app_assoc.
Qed.

Lemma rev_involutive (s : string) : String.rev (String.rev s) = s.
Proof.
  induction s as [|x s IH]; [done|].
  by rewrite rev_cons, rev_append, IH.
Qed.

Lemma rev_length (s : string) :
  Strings.String.length (String.rev s) = Strings.String.length s.
Proof.
  induction s as [|x s IH]; [done|].
  rewrite rev_cons, string_app_length, IH. simpl. lia.
Qed.

Lemma map_chars_append f (a b : string) :
  map_chars f (a +:+ b) = map_chars f a +:+ map_chars f b.
Proof.
  induction a as [|x a IH]; [done|].
  rewrite string_app_cons. simpl. by rewrite string_app_cons, IH.
Qed.

Lemma map_chars_rev f (s : string) :
  map_chars f (String.rev s) = String.rev (map_chars f s).
Proof.
  induction s as [|x s IH]; [done|].
  simpl. by rewrite !rev_cons, map_chars_append, IH.
Qed.

Lemma map_chars_compose f g (s : string) :
  map_chars f (map_chars g s) = map_chars (f ∘ g) s.
Proof. induction s as [|x s IH]; simpl; [done|]. by rewrite IH. Qed.

Lemma map_chars_ext f g (s : string) :
  (∀ a, f a = g a) → map_chars f s = map_chars g s.
Proof. intros H. induction s as [|x s IH]; simpl; [done|]. by rewrite H, IH. Qed.

Lemma upper_map_chars (s : string) : PyStr.upper s = map_chars PyStr.upper_ascii s.
Proof. induction s as [|x s IH]; simpl; [done|]. by rewrite IH. Qed.

Lemma lower_map_chars (s : string) : PyStr.lower s = map_chars PyStr.lower_ascii s.
Proof. induction s as [|x s IH]; simpl; [done|]. by rewrite IH. Qed.

Lemma lstrip_map_chars f (s : string) :
  (∀ a, PyStr.is_space (f a) = PyStr.is_space a) →
  PyStr.lstrip (map_chars f s) = map_chars f (PyStr.lstrip s).
Proof.
  intros H. induction s as [|x s IH]; simpl; [done|].
  rewrite H. by destruct (PyStr.is_space x).
Qed.

Lemma strip_map_chars f (s : string) :
  (∀ a, PyStr.is_space (f a) = PyStr.is_space a) →
  PyStr.strip (map_chars f s) = map_chars f (PyStr.strip s).
Proof.
  intros H. unfold PyStr.strip, PyStr.rstrip.
  by rewrite !lstrip_map_chars, <-map_chars_rev, lstrip_map_chars, map_chars_rev.
Qed.

Lemma is_space_upper (a : ascii) :
  PyStr.is_space (PyStr.upper_ascii a) = PyStr.is_space a.
Proof. by destruct a as [[] [] [] [] [] [] [] []]. Qed.

Lemma is_space_lower (a : ascii) :
  PyStr.is_space (PyStr.lower_ascii a) = PyStr.is_space a.
Proof. by destruct a as [[] [] [] [] [] [] [] []]. Qed.

Lemma upper_upper_ascii (a : ascii) :
  PyStr.upper_ascii (PyStr.upper_ascii a) = PyStr.upper_ascii a.
Proof. by destruct a as [[] [] [] [] [] [] [] []]. Qed.

Lemma upper_lower_ascii (a : ascii) :
  PyStr.upper_ascii (PyStr.lower_ascii a) = PyStr.upper_ascii a.
Proof. by destruct a as [[] [] [] [] [] [] [] []]. Qed.

Lemma upper_append (a b : string) :
  PyStr.upper (a +:+ b) = PyStr.upper a +:+ PyStr.upper b.
Proof. by rewrite !upper_map_chars, map_chars_append. Qed.

Lemma upper_idem (s : string) : PyStr.upper (PyStr.upper s) = PyStr.upper s.
Proof.
  rewrite !upper_map_chars, map_chars_compose.
  apply map_chars_ext, upper_upper_ascii.
Qed.

Lemma upper_lower (s : string) : PyStr.upper (PyStr.lower s) = PyStr.upper s.
Proof.
  rewrite !upper_map_chars, lower_map_chars, map_chars_compose.
  apply map_chars_ext, upper_lower_ascii.
Qed.

Lemma strip_upper_comm (s : string) :
  PyStr.strip (PyStr.upper s) = PyStr.upper (PyStr.strip s).
Proof. rewrite !upper_map_chars. apply strip_map_chars, is_space_upper. Qed.

Lemma strip_lower_comm (s : string) :
  PyStr.strip (PyStr.lower s) = PyStr.lower (PyStr.strip s).
Proof. rewrite !lower_map_chars. apply strip_map_chars, is_space_lower. Qed.

(** Whitespace-only strings are those [lstrip] empties. *)
Lemma lstrip_append_blank (pre s : string) :
  PyStr.lstrip pre = "" → PyStr.lstrip (pre +:+ s) = PyStr.lstrip s.
Proof.
  induction pre as [|a pre IH]; [done|]. rewrite string_app_cons. simpl.
  destruct (PyStr.is_space a); [done|discriminate].
Qed.

Lemma lstrip_append (s post : string) :
  PyStr.lstrip s ≠ "" → PyStr.lstrip (s +:+ post) = PyStr.lstrip s +:+ post.
Proof.
  induction s as [|a s IH]; [done|]. rewrite string_app_cons. simpl.
  by destruct (PyStr.is_space a).
Qed.

Lemma blank_append (a b : string) :
  PyStr.lstrip (a +:+ b) = "" ↔ PyStr.lstrip a = "" ∧ PyStr.lstrip b = "".
Proof.
  induction a as [|x a IH]; [rewrite string_app_nil_l; simpl; split; [by intros ->|by intros [_ ->]]|].
  rewrite string_app_cons. simpl.
  destruct (PyStr.is_space x); [done|]. split; [done|by intros [? _]].
Qed.

Lemma blank_rev (s : string) :
  PyStr.lstrip s = "" → PyStr.lstrip (String.rev s) = "".
Proof.
  induction s as [|a s IH]; [done|].
  simpl. rewrite rev_cons. destruct (PyStr.is_space a) eqn:E; [|done].
  intros H. apply blank_append. split; [by apply IH|]. simpl. by rewrite E.
Qed.

Lemma rstrip_append_blank (s post : string) :
  PyStr.lstrip post = "" → PyStr.rstrip (s +:+ post) = PyStr.rstrip s.
Proof.
  intros H. unfold PyStr.rstrip.
  by rewrite rev_append, lstrip_append_blank by by apply blank_rev.
Qed.

Lemma strip_pad (pre s post : string) :
  PyStr.lstrip pre = "" → PyStr.lstrip post = "" →
  PyStr.strip (pre +:+ s +:+ post) = PyStr.strip s.
Proof.
  intros Hpre Hpost. unfold PyStr.strip.
  rewrite (lstrip_append_blank pre) by done.
  destruct (decide (PyStr.lstrip s = "")) as [E|E].
  - assert (PyStr.lstrip (s +:+ post) = "") as -> by by apply blank_append.
    by rewrite E.
  - by rewrite lstrip_append, rstrip_append_blank.
Qed.

Lemma lstrip_length (s : string) :
  Strings.String.length (PyStr.lstrip s) ≤ Strings.String.length s.
Proof.
  induction s as [|a s IH]; simpl; [done|].
  destruct (PyStr.is_space a); simpl; lia.
Qed.

Lemma lstrip_fixed (s : string) :
  PyStr.lstrip s = s → s ≠ "" →
  ∃ a s', s = String a s' ∧ PyStr.is_space a = false.
Proof.
  destruct s as [|a s]; [done|]. intros H _. exists a, s. split; [done|].
  simpl in H. destruct (PyStr.is_space a); [|done].
  pose proof (lstrip_length s) as Hl. rewrite H in Hl. simpl in Hl. lia.
Qed.

Lemma startswith_append (p s : string) : PyStr.startswith (p +:+ s) p = true.
Proof.
  induction p as [|a p IH]; [by destruct s|].
  rewrite string_app_cons. simpl. by rewrite decide_True.
Qed.

Lemma endswith_append (s suffix : string) : PyStr.endswith (s +:+ suffix) suffix = true.
Proof. unfold PyStr.endswith. rewrite rev_append. apply startswith_append. Qed.

Lemma substring_prefix (s t : string) :
  Strings.String.substring 0 (Strings.String.length s) (s +:+ t) = s.
Proof.
  induction s as [|a s IH]; [by destruct t|].
  rewrite string_app_cons. simpl. by rewrite IH.
Qed.

Lemma drop_last_append (s suffix : string) :
  PyStr.drop_last (Strings.String.length suffix) (s +:+ suffix) = s.
Proof.
  unfold PyStr.drop_last. rewrite string_app_length.
  replace (Strings.String.length s + Strings.String.length suffix
           - Strings.String.length suffix) with (Strings.String.length s) by lia.
  apply substring_prefix.
Qed.

(** ** Normalization of county and state names *)

Lemma normalize_county_Str (s : string) :
  normalize_county (Str s)
  = let s0 := PyStr.strip (PyStr.upper s) in
    let s1 := if PyStr.endswith s0 " COUNTY" then PyStr.drop_last 7 s0 else s0 in
    if PyStr.endswith s1 " PARISH" then PyStr.drop_last 7 s1 else s1.
Proof. done. Qed.

(** X1.  The normalizers of the Geographic Filter do not see the case of the
    letters nor whitespace around the name: a county (a state) written in
    lower case, in upper case or padded with blanks normalizes to the
    same text.  A blank string is one [lstrip] empties. *)
Theorem normalizers_ignore_case_and_padding (s pre post : string) :
  PyStr.lstrip pre = "" → PyStr.lstrip post = "" →
  normalize_county (Str (pre +:+ s +:+ post)) = normalize_county (Str s) ∧
  normalize_county (Str (PyStr.lower s)) = normalize_county (Str s) ∧
  normalize_county (Str (PyStr.upper s)) = normalize_county (Str s) ∧
  strip_upper (Str (pre +:+ s +:+ post)) = strip_upper (Str s) ∧
  strip_upper (Str (PyStr.lower s)) = strip_upper (Str s) ∧
  strip_upper (Str (PyStr.upper s)) = strip_upper (Str s).
Proof.
  intros Hpre Hpost.
  assert (PyStr.strip (PyStr.upper (pre +:+ s +:+ post)) = PyStr.strip (PyStr.upper s))
    as Hpad.
  { rewrite !strip_upper_comm. by rewrite strip_pad. }
  rewrite !normalize_county_Str. unfold strip_upper. cbn [py_str].
  rewrite Hpad, upper_lower, upper_idem.
  rewrite <-!strip_upper_comm, Hpad, upper_lower, upper_idem. done.
Qed.

Lemma rstrip_nonblank_end (s : string) (a : ascii) :
  PyStr.is_space a = false →
  PyStr.rstrip (s +:+ String a "") = s +:+ String a "".
Proof.
  intros Ha. unfold PyStr.rstrip. rewrite rev_append.
  change (String.rev (String a "")) with (String a "").
  rewrite string_app_cons, string_app_nil_l. simpl. rewrite Ha.
  by rewrite rev_cons, rev_involutive.
Qed.

Lemma lstrip_upper_fixed (u : string) :
  PyStr.lstrip u = u → u ≠ "" →
  ∀ suffix, PyStr.lstrip (PyStr.upper u +:+ suffix) = PyStr.upper u +:+ suffix.
Proof.
  intros H Hne suffix. destruct (lstrip_fixed u H Hne) as (a & u' & -> & Ha).
  simpl. by rewrite is_space_upper, Ha.
Qed.

(** X2.  A trailing COUNTY or PARISH word is removed, in any case of the
    letters, from a name that is not empty and does not start with
    whitespace: the PARISH word alone, the COUNTY word together with a
    PARISH word that precedes it. *)
Theorem normalize_county_drops_suffix (u suffix : string) :
  PyStr.lstrip u = u → u ≠ "" →
  (PyStr.upper suffix = " PARISH" →
   normalize_county (Str (u +:+ suffix)) = PyStr.upper u) ∧
  (PyStr.upper suffix = " COUNTY" →
   normalize_county (Str (u +:+ suffix))
   = if PyStr.endswith (PyStr.upper u) " PARISH"
     then PyStr.drop_last 7 (PyStr.upper u) else PyStr.upper u).
Proof.
  intros Hu Hne. split; intros Hs.
  - rewrite normalize_county_Str, upper_append, Hs. cbv zeta.
    assert (PyStr.strip (PyStr.upper u +:+ " PARISH") = PyStr.upper u +:+ " PARISH")
      as ->.
    { unfold PyStr.strip. rewrite lstrip_upper_fixed by done.
      change " PARISH" with (" PARIS" +:+ "H").
      rewrite <-string_app_assoc. by apply rstrip_nonblank_end. }
    assert (PyStr.endswith (PyStr.upper u +:+ " PARISH") " COUNTY" = false) as ->.
    { unfold PyStr.endswith. by rewrite rev_append. }
    rewrite endswith_append. apply (drop_last_append _ " PARISH").
  - rewrite normalize_county_Str, upper_append, Hs. cbv zeta.
    assert (PyStr.strip (PyStr.upper u +:+ " COUNTY") = PyStr.upper u +:+ " COUNTY")
      as ->.
    { unfold PyStr.strip. rewrite lstrip_upper_fixed by done.
      change " COUNTY" with (" COUNT" +:+ "Y").
      rewrite <-string_app_assoc. by apply rstrip_nonblank_end. }
    rewrite endswith_append. by rewrite (drop_last_append _ " COUNTY").
Qed.

Lemma lstrip_split (s : string) :
  ∃ pre, PyStr.lstrip pre = "" ∧ s = pre +:+ PyStr.lstrip s.
Proof.
  induction s as [|a s (pre & Hpre & IH)]; [by exists ""|].
  simpl. destruct (PyStr.is_space a) eqn:E.
  - exists (String a pre). split; [simpl; by rewrite E|].
    by rewrite string_app_cons, <-IH.
  - by exists "".
Qed.

Lemma rstrip_split (s : string) :
  ∃ post, PyStr.lstrip post = "" ∧ s = PyStr.rstrip s +:+ post.
Proof.
  destruct (lstrip_split (String.rev s)) as (pre & Hpre & E).
  exists (String.rev pre). split; [by apply blank_rev|].
  unfold PyStr.rstrip. by rewrite <-rev_append, <-E, rev_involutive.
Qed.

Lemma strip_idem (s : string) : PyStr.strip (PyStr.strip s) = PyStr.strip s.
Proof.
  destruct (lstrip_split s) as (pre & Hpre & E1).
  destruct (rstrip_split (PyStr.lstrip s)) as (post & Hpost & E2).
  fold (PyStr.strip s) in E2.
  assert (s = pre +:+ PyStr.strip s +:+ post) as E by (by rewrite <-E2).
  rewrite <-(strip_pad pre (PyStr.strip s) post) by done. by rewrite <-E.
Qed.

Lemma normalize_county_loaded (s : string) :
  normalize_county (Str (PyStr.upper (PyStr.strip s))) = normalize_county (Str s).
Proof.
  rewrite !normalize_county_Str.
  by rewrite upper_idem, strip_upper_comm, strip_idem, <-strip_upper_comm.
Qed.

Lemma strip_upper_loaded (s : string) :
  strip_upper (Str (PyStr.upper (PyStr.strip s))) = strip_upper (Str s).
Proof.
  unfold strip_upper. cbn [py_str].
  by rewrite strip_upper_comm, strip_idem, upper_idem.
Qed.

(** ** Loading the county file *)

Lemma get_cell_fmap_row (f : cell → cell) cols c r :
  f NA = NA → get_cell cols c (f <$> r) = f (get_cell cols c r).
Proof.
  intros Hf. unfold get_cell. destruct (col_index c cols) as [i|]; [|done].
  rewrite list_lookup_fmap. by destruct (r !! i).
Qed.

Lemma get_set_present_eq cols c v r :
  c ∈ cols → length r = length cols → get_cell cols c (set_cell cols c v r) = v.
Proof.
  intros Hc Hlen. pose proof (get_set_eq cols c v r Hlen) as H.
  by rewrite add_label_present in H.
Qed.

Lemma get_set_present_ne cols c d v r :
  c ∈ cols → d ≠ c → length r = length cols →
  get_cell cols d (set_cell cols c v r) = get_cell cols d r.
Proof.
  intros Hc Hne Hlen. pose proof (get_set_ne cols c d v r Hne Hlen) as H.
  by rewrite add_label_present in H.
Qed.

Lemma set_cell_present_length cols c v r :
  c ∈ cols → length r = length cols → length (set_cell cols c v r) = length cols.
Proof.
  intros Hc Hlen. pose proof (set_cell_length cols c v r Hlen) as H.
  by rewrite add_label_present in H.
Qed.

(** The rows [load_counties] returns, one per input row. *)
Lemma load_counties_rows csv counties :
  rectangular csv →
  load_counties csv = Ok counties →
  let labels := PyStr.strip <$> columns csv in
  let strip_cell x := match x with Str s => Str (PyStr.strip s) | _ => x end in
  "County" ∈ labels ∧ "StateCode" ∈ labels ∧
  columns counties = labels ∧
  rectangular counties ∧
  series counties "County"
  = (λ r, str_upper (strip_cell (get_cell labels "County" r))) <$> rows csv ∧
  series counties "StateCode"
  = (λ r, str_upper (strip_cell (get_cell labels "StateCode" r))) <$> rows csv.
Proof.
  intros Hrect Hload labels strip_cell. unfold load_counties in Hload.
  cbn [columns rows] in Hload. fold labels in Hload.
  set (rows1 := (λ r : list cell, _ <$> r) <$> rows csv) in Hload.
  apply bind_Ok in Hload as (c & [HC ->]%getitem_inv & Hload).
  apply bind_Ok in Hload as (s & [HS ->]%getitem_inv & Hload).
  apply Ok_inj in Hload. cbn [columns] in HC.
  set (df0 := mkDF labels rows1) in *.
  assert ("StateCode" ∈ labels) as HS'.
  { unfold set_column in HS. cbn [columns] in HS.
    by rewrite add_label_present in HS. }
  clear HS.
  assert (rectangular df0) as Hr0.
  { unfold rectangular, df0, rows1, labels. cbn [rows columns].
    apply Forall_fmap. eapply Forall_impl; [exact Hrect|].
    intros r Hr. simpl. by rewrite !length_fmap. }
  set (df1 := set_column "County" (str_upper <$> series df0 "County") df0) in *.
  assert (columns df1 = labels) as Hc1.
  { unfold df1, set_column. cbn [columns]. by rewrite add_label_present. }
  assert (rectangular df1) as Hr1 by by apply set_column_rectangular.
  assert (rows df1 = (λ r, set_cell labels "County"
                             (str_upper (get_cell labels "County" r)) r) <$> rows1)
    as Hrows1.
  { unfold df1, series. rewrite <-list_fmap_compose.
    by rewrite (set_column_rows_fmap "County" (str_upper ∘ get_cell (columns df0) "County")). }
  assert (rows counties
          = (λ r, set_cell labels "StateCode"
                    (str_upper (get_cell labels "StateCode" r)) r) <$> rows df1)
    as Hrows2.
  { subst counties. unfold series. rewrite <-list_fmap_compose.
    rewrite (set_column_rows_fmap "StateCode" (str_upper ∘ get_cell (columns df1) "StateCode")).
    by rewrite Hc1. }
  assert (columns counties = labels) as Hc2.
  { subst counties. unfold set_column. cbn [columns].
    by rewrite Hc1, add_label_present. }
  split_and!; [done|done|done| | |].
  - subst counties. by apply set_column_rectangular.
  - unfold series. rewrite Hc2, Hrows2, Hrows1. unfold rows1.
    rewrite <-!list_fmap_compose. apply list_fmap_ext.
    intros i r Hr%list_elem_of_lookup_2. cbn [compose].
    assert (length (strip_cell <$> r) = length labels) as Hlen.
    { rewrite length_fmap. unfold labels. rewrite length_fmap.
      by eapply (proj1 (Forall_forall _ _) Hrect). }
    rewrite get_set_present_ne; [|done|done|by apply set_cell_present_length].
    rewrite get_set_present_eq by done. by rewrite get_cell_fmap_row.
  - unfold series. rewrite Hc2, Hrows2, Hrows1. unfold rows1.
    rewrite <-!list_fmap_compose. apply list_fmap_ext.
    intros i r Hr%list_elem_of_lookup_2. cbn [compose].
    assert (length (strip_cell <$> r) = length labels) as Hlen.
    { rewrite length_fmap. unfold labels. rewrite length_fmap.
      by eapply (proj1 (Forall_forall _ _) Hrect). }
    rewrite get_set_present_eq; [|done|by apply set_cell_present_length].
    rewrite get_set_present_ne by done. by rewrite get_cell_fmap_row.
Qed.


(** X4.  Loading the county file does not change the allow-list the
    Geographic Filter derives from it: the trimming and upper-casing of
    [load_counties] is absorbed by the filter's own normalization. *)
Theorem load_counties_keeps_allow_list csv counties :
  rectangular csv →
  text_column (stripped_headers csv) "County" →
  text_column (stripped_headers csv) "StateCode" →
  load_counties csv = Ok counties →
  normalized_allow_list counties = normalized_allow_list (stripped_headers csv).
Proof.
  intros Hrect HtC HtS Hload.
  destruct (load_counties_rows csv counties Hrect Hload)
    as (_ & _ & _ & _ & HsC & HsS).
  unfold normalized_allow_list. rewrite HsC, HsS. f_equal.
  unfold series. cbn [stripped_headers columns rows].
  rewrite !zip_fmap_same, <-!list_fmap_compose. apply list_fmap_ext.
  intros i r Hr%list_elem_of_lookup_2. cbn [compose fst snd].
  destruct (HtC r Hr) as [c Hc]. destruct (HtS r Hr) as [s Hs].
  cbn [stripped_headers columns] in Hc, Hs. rewrite Hc, Hs. cbn [str_upper].
  by rewrite normalize_county_loaded, strip_upper_loaded.
Qed.

(** ** Loading the archives *)

Lemma contains_cons needle a (s : string) :
  PyStr.contains needle (String a s)
  = PyStr.startswith (String a s) needle || PyStr.contains needle s.
Proof. done. Qed.

Lemma no_underscore_cons a (s : string) :
  PyStr.contains "_" (String a s) = false →
  a ≠ "_"%char ∧ PyStr.contains "_" s = false.
Proof.
  rewrite contains_cons. intros [H1 H2]%orb_false_elim. split; [|done].
  intros ->. simpl in H1. by destruct s.
Qed.

Lemma last_token_no_sep acc (s : string) :
  PyStr.contains "_" s = false → last_token acc s = String.rev acc +:+ s.
Proof.
  revert acc. induction s as [|a s IH]; intros acc H.
  - simpl. by rewrite string_app_nil_r.
  - apply no_underscore_cons in H as [Ha Hs]. simpl.
    rewrite decide_False by done. rewrite IH by done.
    by rewrite rev_cons, string_app_assoc.
Qed.

Lemma last_token_sep acc (p t : string) :
  last_token acc (p +:+ String "_" t) = last_token "" t.
Proof.
  revert acc. induction p as [|a p IH]; intros acc.
  - rewrite string_app_nil_l. done.
  - rewrite string_app_cons. simpl. destruct (decide (a = "_"%char)); apply IH.
Qed.

Lemma substring_all n (s : string) :
  Strings.String.length s ≤ n → Strings.String.substring 0 n s = s.
Proof.
  revert n. induction s as [|a s IH]; intros [|n] H; simpl in *; try done; try lia.
  rewrite IH; [done|lia].
Qed.

Lemma substring_suffix (m y : string) :
  Strings.String.substring (Strings.String.length m) (Strings.String.length y) (m +:+ y)
  = y.
Proof.
  induction m as [|a m IH].
  - rewrite string_app_nil_l. by apply substring_all.
  - rewrite string_app_cons. simpl. apply IH.
Qed.

Lemma last4_suffix (m y : string) :
  Strings.String.length y = 4 → last4 (m +:+ y) = y.
Proof.
  intros H. unfold last4. rewrite string_app_length, H.
  replace (Strings.String.length m + 4 - 4) with (Strings.String.length m) by lia.
  rewrite <-H. apply substring_suffix.
Qed.

Lemma last4_short (t : string) : Strings.String.length t ≤ 4 → last4 t = t.
Proof.
  intros H. unfold last4.
  replace (Strings.String.length t - 4) with 0 by lia. by apply substring_all.
Qed.

(** X5.  The snapshot year of an archive is read from its file name: the text
    between the last underscore and the [.csv] ending, and of that text
    the last four characters (all of it when it is shorter); the frame is
    tagged with that year, missing when the text is not an integer, and
    with the file name as label. *)
Theorem load_archives_reads_year files i (p token : string) df :
  let name := p +:+ "_" +:+ token +:+ ".csv" in
  files !! i = Some (name, df) →
  PyStr.contains "_" token = false →
  load_archives files !! i
  = Some (tag_snapshot (year_cell (last4 token)) name df) ∧
  (∀ m y, token = m +:+ y → Strings.String.length y = 4 → last4 token = y) ∧
  (Strings.String.length token ≤ 4 → last4 token = token).
Proof.
  intros name Hfile Htok. split_and!.
  - unfold load_archives. rewrite list_lookup_fmap, Hfile. simpl. do 2 f_equal.
    unfold year_cell. subst name.
    assert (p +:+ "_" +:+ token +:+ ".csv" = (p +:+ String "_" token) +:+ ".csv") as ->.
    { rewrite string_app_assoc. f_equal. }
    rewrite (drop_last_append _ ".csv"), last_token_sep, last_token_no_sep by done.
    done.
  - intros m y -> Hy. by apply last4_suffix.
  - apply last4_short.
Qed.

Lemma zip_with_replicate_r {A B C} (f : A → B → C) (l : list A) (v : B) :
  zip_with f l (replicate (length l) v) = (λ x, f x v) <$> l.
Proof. induction l as [|x l IH]; simpl; [done|]. by rewrite IH. Qed.

Lemma set_scalar_rows c v df :
  rows (set_scalar c v df) = (λ r, set_cell (columns df) c v r) <$> rows df.
Proof. unfold set_scalar, set_column. simpl. apply zip_with_replicate_r. Qed.

Lemma set_scalar_rectangular c v df :
  rectangular df → rectangular (set_scalar c v df).
Proof. apply set_column_rectangular. Qed.

Lemma tag_snapshot_rows year label df :
  rows (tag_snapshot year label df)
  = (λ r, set_cell (add_label "snapshot_year" (columns df)) "snapshot_label" (Str label)
            (set_cell (columns df) "snapshot_year" year r)) <$> rows df.
Proof.
  unfold tag_snapshot. rewrite set_scalar_rows, set_scalar_rows.
  by rewrite <-list_fmap_compose.
Qed.

Lemma tag_snapshot_cells year label df r :
  length r = length (columns df) →
  let t := tag_snapshot year label df in
  let r' := set_cell (add_label "snapshot_year" (columns df)) "snapshot_label" (Str label)
              (set_cell (columns df) "snapshot_year" year r) in
  length r' = length (columns t) ∧
  get_cell (columns t) "snapshot_year" r' = year ∧
  get_cell (columns t) "snapshot_label" r' = Str label ∧
  ∀ c, c ≠ "snapshot_year" → c ≠ "snapshot_label" →
    get_cell (columns t) c r' = get_cell (columns df) c r.
Proof.
  intros Hlen t r'.
  assert (columns t
          = add_label "snapshot_label" (add_label "snapshot_year" (columns df)))
    as -> by done.
  pose proof (set_cell_length (columns df) "snapshot_year" year r Hlen) as Hlen1.
  unfold r'. split_and!.
  - by apply set_cell_length.
  - rewrite get_set_ne by done. by apply get_set_eq.
  - by apply get_set_eq.
  - intros c H1 H2. rewrite get_set_ne by done. by apply get_set_ne.
Qed.

(** X6.  [load_archives] returns one frame per file, in order.  Every row of
    the frame of a file carries the file name as [snapshot_label] and one
    and the same [snapshot_year]; the rows are those of the file, in
    order, and no other cell is changed. *)
Theorem load_archives_tags_rows files i name df :
  files !! i = Some (name, df) →
  rectangular df →
  length (load_archives files) = length files ∧
  ∃ f y, load_archives files !! i = Some f ∧
    rectangular f ∧
    length (rows f) = length (rows df) ∧
    (∀ r, r ∈ rows f →
       get_cell (columns f) "snapshot_year" r = y ∧
       get_cell (columns f) "snapshot_label" r = Str name) ∧
    (∀ j r c, rows df !! j = Some r →
       c ≠ "snapshot_year" → c ≠ "snapshot_label" →
       ∃ r', rows f !! j = Some r' ∧
             get_cell (columns f) c r' = get_cell (columns df) c r).
Proof.
  intros Hfile Hrect. split; [by unfold load_archives; rewrite length_fmap|].
  unfold load_archives. rewrite list_lookup_fmap, Hfile. simpl.
  set (y := year_cell (last4 (last_token "" (PyStr.drop_last 4 name)))).
  exists (tag_snapshot y name df), y. split; [done|].
  assert (∀ r, r ∈ rows df → length r = length (columns df)) as Hlen.
  { intros r Hr. by eapply (proj1 (Forall_forall _ _) Hrect). }
  split_and!.
  - unfold tag_snapshot. by apply set_scalar_rectangular, set_scalar_rectangular.
  - by rewrite tag_snapshot_rows, length_fmap.
  - intros r. rewrite tag_snapshot_rows.
    intros (r0 & -> & Hr0)%list_elem_of_fmap.
    destruct (tag_snapshot_cells y name df r0 (Hlen _ Hr0)) as (_ & H1 & H2 & _).
    split; [exact H1|exact H2].
  - intros j r c Hr Hc1 Hc2. rewrite tag_snapshot_rows, list_lookup_fmap, Hr.
    eexists. split; [done|].
    destruct (tag_snapshot_cells y name df r) as (_ & _ & _ & H).
    + apply Hlen. by eapply list_elem_of_lookup_2.
    + by apply H.
Qed.

(** ** Concatenating the snapshots *)

Lemma get_cell_select cols cs c r :
  c ∈ cs → get_cell cs c (select_cells cols cs r) = get_cell cols c r.
Proof.
  intros Hc. unfold select_cells.
  pose proof (get_cell_fmap id (λ c, get_cell cols c r) cs c Hc) as H.
  rewrite list_fmap_id in H. apply H. by intros y _ E.
Qed.

Lemma select_cells_length cols cs r : length (select_cells cols cs r) = length cs.
Proof. unfold select_cells. by rewrite length_fmap. Qed.

Lemma length_bind_rows {A B} (f : A → list B) (l : list A) :
  length (l ≫= f) = sum_list (length ∘ f <$> l).
Proof.
  induction l as [|x l IH]; [done|].
  rewrite bind_cons, length_app, IH. done.
Qed.

(** X7.  The concatenated table has every label of every snapshot once, in
    order of first appearance, and all the rows of all the snapshots, in
    order; a row keeps its cells, and is missing in the columns its own
    snapshot does not have. *)
Theorem concat_frames_keeps_cells frames :
  let all := concat_frames frames in
  NoDup (columns all) ∧
  rectangular all ∧
  (∀ c, c ∈ columns all ↔ ∃ f, f ∈ frames ∧ c ∈ columns f) ∧
  length (rows all) = sum_list ((λ f, length (rows f)) <$> frames) ∧
  (∀ f r, f ∈ frames → r ∈ rows f →
     ∃ r', r' ∈ rows all ∧
       ∀ c, c ∈ columns all →
         get_cell (columns all) c r' = get_cell (columns f) c r) ∧
  (∀ r', r' ∈ rows all →
     ∃ f r, f ∈ frames ∧ r ∈ rows f ∧
       ∀ c, c ∈ columns all →
         get_cell (columns all) c r' = get_cell (columns f) c r).
Proof.
  intros all. unfold all, concat_frames. cbn [columns rows].
  set (cols := remove_dups (frames ≫= columns)).
  split_and!.
  - apply NoDup_remove_dups.
  - unfold rectangular. cbn [columns rows]. apply Forall_forall.
    intros r (f & (r0 & -> & _)%list_elem_of_fmap & _)%list_elem_of_bind.
    apply select_cells_length.
  - intros c. unfold cols. rewrite elem_of_remove_dups, list_elem_of_bind.
    split; intros (f & H1 & H2); by exists f.
  - rewrite length_bind_rows. f_equal. apply list_fmap_ext.
    intros i f _. simpl. by rewrite length_fmap.
  - intros f r Hf Hr. exists (select_cells (columns f) cols r). split.
    + apply list_elem_of_bind. exists f. split; [|done].
      apply list_elem_of_fmap. by exists r.
    + intros c Hc. by apply get_cell_select.
  - intros r' (f & (r & -> & Hr)%list_elem_of_fmap & Hf)%list_elem_of_bind.
    exists f, r. split_and!; [done|done|].
    intros c Hc. by apply get_cell_select.
Qed.

(** ** The Geographic Filter: outcomes *)

(** X8.  The four outcomes of [filter_to_counties].  A table without a county
    column or without a state column is returned as it is, whatever the
    allow-list holds.  Otherwise the allow-list must have a [County] and
    a [StateCode] column: [KeyError] on the first one that is absent;
    with both, the filter returns a table with the three helper columns
    added. *)
Theorem filter_to_counties_outcome df counties :
  (county_cols df = [] ∨ state_cols df = [] →
   filter_to_counties df counties = Ok df) ∧
  (county_cols df ≠ [] → state_cols df ≠ [] →
   ("County" ∉ columns counties →
    filter_to_counties df counties = Raise (KeyError "County")) ∧
   ("County" ∈ columns counties → "StateCode" ∉ columns counties →
    filter_to_counties df counties = Raise (KeyError "StateCode")) ∧
   ("County" ∈ columns counties → "StateCode" ∈ columns counties →
    ∃ out, filter_to_counties df counties = Ok out ∧
           columns out = filtered_columns df)).
Proof.
  split.
  - intros H. unfold filter_to_counties. by rewrite decide_True.
  - intros Hc Hs.
    assert (¬ (county_cols df = [] ∨ state_cols df = [])) as Hn by (by intros [?|?]).
    split_and!.
    + intros H. unfold filter_to_counties. rewrite decide_False by done.
      unfold getitem. by rewrite decide_False.
    + intros H1 H2. unfold filter_to_counties. rewrite decide_False by done.
      rewrite getitem_Ok by done. cbn [mbind result_bind].
      unfold getitem at 1. rewrite decide_False; [done|].
      unfold set_column. cbn [columns]. by rewrite (add_label_present "County").
    + intros H1 H2. unfold filter_to_counties. rewrite decide_False by done.
      rewrite getitem_Ok by done. cbn [mbind result_bind].
      rewrite getitem_Ok.
      * cbn [mbind result_bind]. eexists. split; [done|]. done.
      * unfold set_column. cbn [columns]. by rewrite (add_label_present "County").
Qed.

Lemma sublist_filter_impl {A} (P Q : A → Prop)
    `{!∀ x, Decision (P x)} `{!∀ x, Decision (Q x)} (l : list A) :
  (∀ x, P x → Q x) → filter P l `sublist_of` filter Q l.
Proof.
  intros Himpl. induction l as [|x l IH]; [done|].
  rewrite !filter_cons. destruct (decide (P x)) as [HP|HP].
  - rewrite decide_True by auto. by constructor.
  - destruct (decide (Q x)); [by constructor|done].
Qed.

(** X9.  Widening the allow-list never loses a row: when every normalized
    pair of one allow-list belongs to another, the rows the filter keeps
    under the first are, in order, among those it keeps under the second.
    With an allow-list without rows, a table that has county and state
    columns is filtered down to no row. *)
Theorem filter_to_counties_monotone df counties1 counties2 out1 out2 :
  rectangular df → rectangular counties1 → rectangular counties2 →
  normalized_allow_list counties1 ⊆ normalized_allow_list counties2 →
  filter_to_counties df counties1 = Ok out1 →
  filter_to_counties df counties2 = Ok out2 →
  rows out1 `sublist_of` rows out2 ∧
  (rows counties1 = [] → county_cols df ≠ [] → state_cols df ≠ [] → rows out1 = []).
Proof.
  intros Hrect Hr1 Hr2 Hsub H1 H2.
  destruct (decide (county_cols df = [] ∨ state_cols df = [])) as [Hskip|Hn].
  - unfold filter_to_counties in H1, H2. rewrite decide_True in H1, H2 by done.
    apply Ok_inj in H1, H2. subst. split; [done|]. intros _ Hc Hs. by destruct Hskip.
  - assert (county_cols df ≠ []) as Hc by (intros E; apply Hn; by left).
    assert (state_cols df ≠ []) as Hs by (intros E; apply Hn; by right).
    destruct (filter_to_counties_rows _ _ _ Hrect Hr1 Hc Hs H1) as [_ ->].
    destruct (filter_to_counties_rows _ _ _ Hrect Hr2 Hc Hs H2) as [_ ->].
    split.
    + apply fmap_sublist, sublist_filter_impl. intros r Hr.
      by apply (proj1 (elem_of_subseteq _ _) Hsub).
    + intros Hnil _ _. unfold normalized_allow_list, series. rewrite Hnil.
      simpl. rewrite filter_Forall_nil; [done|].
      apply Forall_forall. intros r _. apply not_elem_of_empty.
Qed.

(** ** The pivot: order, outcomes, irrelevant rows *)

Lemma cell_leb_refl a : cell_leb a a = true.
Proof.
  destruct a as [|x|x|x1 x2]; simpl; try done.
  - by apply bool_decide_eq_true.
  - by apply bool_decide_eq_true.
  - rewrite decide_True by done. by apply bool_decide_eq_true.
Qed.

Lemma cell_le_total_rel : Total cell_le.
Proof.
  intros a b. unfold cell_le. destruct (decide (a = b)) as [->|Hne].
  - left. by rewrite cell_leb_refl.
  - destruct (cell_leb a b) eqn:E; [by left|].
    right. by rewrite (cell_leb_total a b).
Qed.

Lemma Sorted_fmap_elem {A B} (f : A → B) (R1 : relation A) (R2 : relation B) l :
  (∀ x y, x ∈ l → y ∈ l → R1 x y → R2 (f x) (f y)) →
  Sorted R1 l → Sorted R2 (f <$> l).
Proof.
  intros Hf Hs. induction Hs as [|x l Hs IH Hhd]; [constructor|].
  rewrite fmap_cons. constructor.
  - apply IH. intros a b Ha Hb. apply Hf; by right.
  - destruct Hhd as [|y l' Hxy]; constructor.
    apply Hf; [by left|by right; left|done].
Qed.

Lemma Sorted_fmap_inv {A B} (f : A → B) (R1 : relation A) (R2 : relation B) l :
  (∀ x y, R2 (f x) (f y) → R1 x y) →
  Sorted R2 (f <$> l) → Sorted R1 l.
Proof.
  intros Hf. induction l as [|x l IH]; [constructor|].
  rewrite fmap_cons. intros Hs. apply Sorted_inv in Hs as [Hs Hhd].
  constructor; [by apply IH|].
  destruct l as [|y l]; constructor.
  apply HdRel_inv in Hhd. by apply Hf.
Qed.

Lemma pivot_labels_all recs :
  pivot_labels (pivot_agged recs)
  = merge_sort cell_le (remove_dups ((λ x, x.1.2) <$> pivot_agged recs)).
Proof.
  unfold pivot_labels. apply filter_Forall_id, Forall_forall. intros ck Hck.
  rewrite merge_sort_Permutation, elem_of_remove_dups in Hck.
  apply list_elem_of_fmap in Hck as ([[ik ck'] v] & -> & Hx).
  apply elem_of_pivot_agged in Hx as [-> Hv]. cbn [fst snd].
  assert (ck' ∈ pivot_labels (pivot_agged recs)) as Hin
    by (apply elem_of_pivot_labels; eauto).
  unfold pivot_labels in Hin. by apply list_elem_of_filter in Hin as [Hin _].
Qed.

Lemma Sorted_pivot_labels recs : Sorted cell_le (pivot_labels (pivot_agged recs)).
Proof.
  rewrite pivot_labels_all.
  pose proof cell_le_total_rel as Htot. apply (Sorted_merge_sort _).
Qed.

Lemma Sorted_pivot_index agged : Sorted key_le (pivot_index agged).
Proof. unfold pivot_index. apply (Sorted_merge_sort _). Qed.


(** X10.  The pivot output is ordered: its rows ascend by (provider, year,
    label), and its measure columns follow the ascending order of their
    measure codes, not of the labels they are renamed to. *)
Theorem pivot_measures_sorted df out mcol pcol scol :
  rectangular df →
  locate "Measure Code" measure_fallback (columns df) = Some mcol →
  locate CCN provider_fallback (columns df) = Some pcol →
  locate "Score" score_fallback (columns df) = Some scol →
  pivot_measures df = Ok out →
  Sorted (λ r1 r2, key_le (select_cells (columns out) join_key r1)
                          (select_cells (columns out) join_key r2)) (rows out) ∧
  ∃ codes labels,
    columns out = join_key ++ labels ∧
    Sorted String.le codes ∧
    Forall2 (λ code label, (code, label) ∈ MEASURE_MAP) codes labels.
Proof.
  intros Hrect Hm Hp Hs Hout.
  pose proof (provider_col_fresh _ _ Hp) as Hfresh.
  pose proof (measure_col_fresh _ _ Hm) as Hmne.
  destruct (pivot_measures_inv _ _ _ _ _ Hm Hp Hs Hout) as [Hcols Hrows].
  rewrite (pivot_recs_source df mcol pcol scol Hrect Hfresh Hmne) in Hcols, Hrows.
  set (recs := source_recs df pcol mcol scol) in *.
  set (cks := pivot_labels (pivot_agged recs)) in *.
  split.
  - rewrite Hrows, Hcols.
    apply (Sorted_fmap_elem _ key_le); [|apply Sorted_pivot_index].
    intros x y Hx Hy Hxy.
    destruct (source_index_key _ _ _ _ _ Hx) as [Hlx _].
    destruct (source_index_key _ _ _ _ _ Hy) as [Hly _].
    by rewrite !select_join_key_row.
  - set (text := λ c, match c with Str s => s | _ => "" end).
    assert (Str ∘ text <$> cks = cks) as Hstr.
    { rewrite <-(list_fmap_id cks) at 2. apply list_fmap_ext.
      intros i ck Hck%list_elem_of_lookup_2.
      by destruct (pivot_labels_codes _ _ _ _ _ Hck) as (code & -> & _). }
    exists (text <$> cks), (pivot_rename pcol ∘ py_str <$> cks). split_and!.
    + done.
    + apply (Sorted_fmap_inv Str _ cell_le).
      * intros x y H. unfold cell_le in H. simpl in H.
        by apply bool_decide_unpack in H.
      * rewrite <-list_fmap_compose, Hstr. apply Sorted_pivot_labels.
    + apply Forall2_fmap, Forall_Forall2_diag, Forall_forall.
      intros ck Hck.
      destruct (pivot_label_of_code _ _ _ _ _ Hfresh Hck)
        as (code & label & -> & Hin & E).
      cbn [compose text]. by rewrite E.
Qed.

Lemma list_find_cons_True {A} (P : A → Prop) `{!∀ x, Decision (P x)} x (l : list A) :
  P x → list_find P (x :: l) = Some (0, x).
Proof. intros HP. simpl. by rewrite decide_True. Qed.

Lemma list_find_cons_False {A} (P : A → Prop) `{!∀ x, Decision (P x)} x (l : list A) :
  ¬ P x → list_find P (x :: l) = prod_map S id <$> list_find P l.
Proof. intros HP. simpl. by rewrite decide_False. Qed.

Lemma measure_subset_columns df mcol scol :
  columns (measure_subset df mcol scol) = add_label "score_numeric" (columns df).
Proof. done. Qed.

Lemma pivot_measures_located df mcol pcol scol :
  locate "Measure Code" measure_fallback (columns df) = Some mcol →
  locate CCN provider_fallback (columns df) = Some pcol →
  locate "Score" score_fallback (columns df) = Some scol →
  ("snapshot_year" ∉ columns df →
   pivot_measures df = Raise (KeyError "snapshot_year")) ∧
  ("snapshot_year" ∈ columns df → "snapshot_label" ∉ columns df →
   pivot_measures df = Raise (KeyError "snapshot_label")) ∧
  ("snapshot_year" ∈ columns df → "snapshot_label" ∈ columns df →
   ∃ out, pivot_measures df = Ok out).
Proof.
  intros Hm Hp Hs.
  pose proof (locate_inv _ _ _ _ Hm) as [Hmin _].
  pose proof (locate_inv _ _ _ _ Hp) as [Hpin _].
  set (cols := add_label "score_numeric" (columns df)).
  assert (∀ c, c ∈ columns df → c ∈ cols) as Hsub
    by (intros c Hc; by apply add_label_subseteq).
  assert (∀ c, c ≠ "score_numeric" → c ∉ columns df → c ∉ cols) as Hnot.
  { intros c Hne Hc [H| ->]%elem_of_add_label; done. }
  assert ("score_numeric" ∈ cols) as Hsc by apply add_label_elem.
  assert (pivot_measures df
          = pivot ← match list_find (λ c, c ∉ cols)
                           ["score_numeric"; pcol; "snapshot_year"; "snapshot_label"; mcol]
                    with
                    | Some (_, c) => Raise (KeyError c)
                    | None =>
                        let subset := measure_subset df mcol scol in
                        let agged := pivot_agged (pivot_recs subset (pivot_index_cols pcol)
                                                    mcol "score_numeric") in
                        let cks := pivot_labels agged in
                        Ok (mkDF (pivot_index_cols pcol ++ (py_str <$> cks))
                              ((λ ik, ik ++ (lookup_agg agged ik <$> cks))
                               <$> pivot_index agged))
                    end;
            Ok (rename_columns {[ pcol := "provider_id" ]}
                  (rename_columns (list_to_map MEASURE_MAP) pivot))) as Hpm.
  { unfold pivot_measures. by rewrite Hm, Hp, Hs. }
  split_and!.
  - intros Hy. rewrite Hpm.
    rewrite list_find_cons_False by (by intros H; apply H).
    rewrite list_find_cons_False by (intros H; apply H; by apply Hsub).
    rewrite list_find_cons_True by (by apply Hnot).
    done.
  - intros Hy Hl. rewrite Hpm.
    rewrite list_find_cons_False by (by intros H; apply H).
    rewrite list_find_cons_False by (intros H; apply H; by apply Hsub).
    rewrite list_find_cons_False by (intros H; apply H; by apply Hsub).
    rewrite list_find_cons_True by (by apply Hnot).
    done.
  - intros Hy Hl. rewrite Hpm.
    rewrite list_find_cons_False by (by intros H; apply H).
    rewrite list_find_cons_False by (intros H; apply H; by apply Hsub).
    rewrite list_find_cons_False by (intros H; apply H; by apply Hsub).
    rewrite list_find_cons_False by (intros H; apply H; by apply Hsub).
    rewrite list_find_cons_False by (intros H; apply H; by apply Hsub).
    cbn [list_find fmap option_fmap option_map mbind result_bind]. by eexists.
Qed.


(** X12.  Rows of measures outside [MEASURE_MAP] never reach the pivot:
    removing them from the input changes nothing. *)
Theorem pivot_measures_ignores_other_measures df mcol :
  locate "Measure Code" measure_fallback (columns df) = Some mcol →
  pivot_measures
    (mkDF (columns df)
          (filter (λ r, is_measure_code (get_cell (columns df) mcol r)) (rows df)))
  = pivot_measures df.
Proof.
  intros Hm. unfold pivot_measures. cbn [columns]. rewrite Hm.
  destruct (locate CCN provider_fallback (columns df)) as [pcol|]; [|done].
  destruct (locate "Score" score_fallback (columns df)) as [scol|]; [|done].
  set (df' := mkDF _ _).
  assert (measure_subset df' mcol scol = measure_subset df mcol scol) as ->; [|done].
  assert (columns (measure_subset df' mcol scol) = columns (measure_subset df mcol scol))
    as Hc by done.
  assert (rows (measure_subset df' mcol scol) = rows (measure_subset df mcol scol))
    as Hr.
  { rewrite !measure_subset_rows. unfold df'. cbn [columns rows]. f_equal.
    apply filter_Forall_id, Forall_forall. by intros r [H _]%list_elem_of_filter. }
  destruct (measure_subset df' mcol scol), (measure_subset df mcol scol).
  simpl in *. by subst.
Qed.

(** ** The facility attributes: outcomes and the rows that are kept *)

Lemma assoc_is_Some k v (m : list (string * string)) :
  (k, v) ∈ m → is_Some (assoc k m).
Proof.
  intros Hin. unfold assoc.
  destruct (list_find_elem_of (λ kv : string * string, kv.1 = k) m (k, v) Hin eq_refl)
    as [x ->].
  by eexists.
Qed.

Lemma provider_candidates_mapping cands :
  ("provider_id", cands) ∈ mapping → cands = provider_candidates.
Proof.
  intros Hin.
  assert (("provider_id", provider_candidates) ∈ mapping) as H0 by left.
  pose proof mapping_targets_unique as HU. rewrite Forall_forall in HU.
  specialize (HU _ Hin). rewrite Forall_forall in HU.
  by specialize (HU _ H0 eq_refl).
Qed.

Lemma provider_column_located df :
  is_Some (assoc "provider_id" (col_map df)) ↔
  ∃ c, c ∈ provider_candidates ∧ c ∈ columns df.
Proof.
  split.
  - intros [pcol H%assoc_Some]. exists pcol.
    destruct (col_map_elem _ _ _ H) as (Hc & cands & Hm & Hin).
    apply provider_candidates_mapping in Hm as ->. done.
  - intros (c & Hc & Hin).
    destruct (list_find_elem_of (λ c, c ∈ columns df) provider_candidates c Hc Hin)
      as [[i c'] Hf].
    apply (assoc_is_Some _ c'). apply col_map_spec.
    exists provider_candidates, i. split; [left|done].
Qed.

Lemma facility_keep_elem df c :
  c ∈ facility_keep df ↔
  c ∈ columns df ∧ ((∃ t, (t, c) ∈ col_map df) ∨ c = "snapshot_year" ∨ c = "snapshot_label").
Proof.
  unfold facility_keep. rewrite list_elem_of_filter, elem_of_app, list_elem_of_fmap.
  split.
  - intros [Hc [([t c'] & -> & Hin)|Hk]]; split; try done; [left; by exists t|right].
    apply elem_of_cons in Hk as [->|Hk]; [by left|].
    apply elem_of_cons in Hk as [->|Hk]; [by right|by apply elem_of_nil in Hk].
  - intros [Hc [[t Hin]|[->| ->]]]; split; try done.
    + left. by exists (t, c).
    + right. by left.
    + right. right. by left.
Qed.

Lemma build_facility_table_inv df f pcol :
  assoc "provider_id" (col_map df) = Some pcol →
  build_facility_table df = Ok f →
  columns f = facility_rename df <$> facility_keep df ∧
  rows f = drop_duplicates_from
             (select_cells (facility_keep df) [pcol; "snapshot_year"]) []
             (select_cells (columns df) (facility_keep df) <$> rows df) ∧
  (pcol ∈ facility_keep df) ∧ ("snapshot_year" ∈ facility_keep df).
Proof.
  intros E. unfold build_facility_table. rewrite E. fold (facility_keep df).
  intros (fac & Hd & Hf%Ok_inj)%bind_Ok. subst f.
  assert (pcol ∈ facility_keep df ∧ "snapshot_year" ∈ facility_keep df) as [Hp Hy].
  { unfold drop_duplicates in Hd. cbn [select columns] in Hd.
    destruct (list_find _ _) as [[??]|] eqn:Hfind; [done|].
    apply list_find_None in Hfind. rewrite Forall_forall in Hfind. split.
    - apply dec_stable, Hfind. by left.
    - apply dec_stable, Hfind. right. by left. }
  apply drop_duplicates_inv in Hd. subst fac.
  unfold rename_columns. cbn [columns rows select]. done.
Qed.

Lemma facility_get_target df t c r :
  (t, c) ∈ col_map df →
  get_cell (facility_rename df <$> facility_keep df) t r
  = get_cell (facility_keep df) c r.
Proof.
  intros Hin. rewrite <-(facility_rename_Some df c t Hin).
  apply get_cell_rename. intros c' Hc' Hren.
  rewrite (facility_rename_Some df c t Hin) in Hren.
  destruct (facility_rename_cases df c') as [Hin'|[Hid Hout]].
  - rewrite Hren in Hin'. by eapply col_map_target_unique.
  - rewrite Hid in Hren. subst c'.
    apply facility_keep_elem in Hc' as [_ [[t' Ht']|Hk]]; [by destruct (Hout t')|].
    apply col_map_avoids_keys in Hin as [Ht _]. destruct Ht.
    destruct Hk as [->| ->]; [by left|right; by left].
Qed.

Lemma facility_get_key df k r :
  k = "snapshot_year" ∨ k = "snapshot_label" →
  get_cell (facility_rename df <$> facility_keep df) k r
  = get_cell (facility_keep df) k r.
Proof.
  intros Hk.
  assert (k ∈ join_key) as Hjk by (destruct Hk as [->| ->]; [right; left|right; right; left]).
  assert (facility_rename df k = k) as Rk.
  { apply facility_rename_None. intros t [_ H]%col_map_avoids_keys. by apply H. }
  rewrite <-Rk at 1. apply get_cell_rename. intros c Hc Hren. rewrite Rk in Hren.
  destruct (facility_rename_cases df c) as [Hin|[Hid Hout]].
  - rewrite Hren in Hin. apply col_map_avoids_keys in Hin as [Ht _].
    destruct Ht. destruct Hk as [->| ->]; [by left|right; by left].
  - by rewrite Hid in Hren.
Qed.


Lemma drop_duplicates_from_first {K} `{EqDecision K} (key : list cell → K) seen l x :
  x ∈ drop_duplicates_from key seen l ↔
  ∃ i, l !! i = Some x ∧ (key x ∉ seen) ∧
       ∀ j y, j < i → l !! j = Some y → key y ≠ key x.
Proof.
  revert seen. induction l as [|r l IH]; intros seen; simpl.
  - split; [by intros ?%elem_of_nil|by intros (i & ? & _)].
  - destruct (decide (key r ∈ seen)) as [Hr|Hr].
    + rewrite IH. split.
      * intros (i & Hi & Hx & Hfirst). exists (S i). split_and!; [done|done|].
        intros [|j] y Hj Hy; simpl in Hy.
        -- injection Hy as ->. by intros E; rewrite E in Hr.
        -- apply (Hfirst j); [lia|done].
      * intros ([|i] & Hi & Hx & Hfirst); simpl in Hi.
        -- injection Hi as ->. done.
        -- exists i. split_and!; [done|done|].
           intros j y Hj Hy. apply (Hfirst (S j)); [lia|done].
    + rewrite elem_of_cons, IH. split.
      * intros [->|(i & Hi & Hx & Hfirst)].
        -- exists 0. split_and!; [done|done|]. intros j y Hj. lia.
        -- exists (S i). split_and!; [done| |].
           ++ intros Hin. apply Hx. by right.
           ++ intros [|j] y Hj Hy; simpl in Hy.
              ** injection Hy as ->. intros E. apply Hx. rewrite E. by left.
              ** apply (Hfirst j); [lia|done].
      * intros ([|i] & Hi & Hx & Hfirst); simpl in Hi.
        -- injection Hi as ->. by left.
        -- right. exists i. split_and!; [done| |].
           ++ intros [E|Hin]%elem_of_cons; [|done].
              by apply (Hfirst 0 r); [lia|done|].
           ++ intros j y Hj Hy. apply (Hfirst (S j)); [lia|done].
Qed.

(** X14.  The facility table holds exactly the first row of every (provider,
    year) pair of the input: that row's attributes under their target
    names, with its year and label; later rows of the pair, whatever
    their label or attributes, are dropped. *)
Theorem build_facility_table_first_row_wins df f pcol :
  assoc "provider_id" (col_map df) = Some pcol →
  build_facility_table df = Ok f →
  ∀ row, row ∈ rows f ↔
    ∃ i r, first_of_key df pcol i r ∧
      row = select_cells (columns df) (facility_keep df) r ∧
      (∀ t c, (t, c) ∈ col_map df →
         get_cell (columns f) t row = get_cell (columns df) c r) ∧
      get_cell (columns f) "snapshot_year" row
      = get_cell (columns df) "snapshot_year" r ∧
      get_cell (columns f) "snapshot_label" row
      = get_cell (columns df) "snapshot_label" r.
Proof.
  intros E Hf row.
  destruct (build_facility_table_inv df f pcol E Hf) as (Hcols & Hrows & Hpk & Hyk).
  rewrite Hrows, Hcols, drop_duplicates_from_first.
  assert (∀ r, select_cells (facility_keep df) [pcol; "snapshot_year"]
                 (select_cells (columns df) (facility_keep df) r)
               = facility_key df pcol r) as Hkey.
  { intros r. unfold select_cells at 1. unfold facility_key. simpl.
    by rewrite !get_cell_select. }
  assert (∀ r, (∀ t c, (t, c) ∈ col_map df →
                  get_cell (facility_rename df <$> facility_keep df) t
                    (select_cells (columns df) (facility_keep df) r)
                  = get_cell (columns df) c r) ∧
               get_cell (facility_rename df <$> facility_keep df) "snapshot_year"
                 (select_cells (columns df) (facility_keep df) r)
               = get_cell (columns df) "snapshot_year" r ∧
               get_cell (facility_rename df <$> facility_keep df) "snapshot_label"
                 (select_cells (columns df) (facility_keep df) r)
               = get_cell (columns df) "snapshot_label" r) as Hcells.
  { intros r. split_and!.
    - intros t c Hin. rewrite (facility_get_target df t c) by done.
      apply get_cell_select, facility_keep_elem.
      split; [by apply (col_map_elem _ _ _ Hin)|]. left. by exists t.
    - rewrite facility_get_key by (by left). by apply get_cell_select.
    - rewrite facility_get_key by (by right).
      destruct (decide ("snapshot_label" ∈ columns df)) as [Hl|Hl].
      + apply get_cell_select, facility_keep_elem. split; [done|]. right. by right.
      + rewrite (get_cell_absent (columns df)) by done.
        apply get_cell_absent. by intros [H _]%facility_keep_elem. }
  split.
  - intros (i & Hi & _ & Hfirst).
    apply list_lookup_fmap_Some in Hi as (r & -> & Hr).
    exists i, r. split; [|split; [done|apply Hcells]].
    split; [done|]. intros j r' Hj Hr'. rewrite <-!Hkey.
    apply (Hfirst j); [done|]. by rewrite list_lookup_fmap, Hr'.
  - intros (i & r & [Hr Hfirst] & -> & _).
    exists i. split_and!.
    + by rewrite list_lookup_fmap, Hr.
    + apply not_elem_of_nil.
    + intros j y Hj Hy. apply list_lookup_fmap_Some in Hy as (r' & -> & Hr').
      rewrite !Hkey. by apply (Hfirst j).
Qed.

(** ** The shape of the pivot output *)

Lemma to_numeric_numeric v : numeric_cell (to_numeric v) = true.
Proof.
  destruct v as [|s|q|a b]; try done.
  simpl. by destruct (to_float s).
Qed.

Lemma hd_filter_numeric (l : list cell) :
  Forall (λ v, numeric_cell v = true) l →
  numeric_cell (hd NA (filter (λ v, notna v) l)) = true.
Proof.
  induction 1 as [|v l Hv _ IH]; [done|].
  rewrite filter_cons. by destruct (decide (notna v)).
Qed.

Lemma group_first_numeric recs g :
  (∀ x, x ∈ recs → numeric_cell x.2 = true) →
  numeric_cell (group_first recs g) = true.
Proof.
  intros H. unfold group_first. apply hd_filter_numeric, Forall_forall.
  intros v (x & -> & [_ Hx]%list_elem_of_filter)%list_elem_of_fmap. by apply H.
Qed.

Lemma source_recs_numeric df pcol mcol scol x :
  x ∈ source_recs df pcol mcol scol → numeric_cell x.2 = true.
Proof.
  intros [_ (r & -> & _)%list_elem_of_fmap]%list_elem_of_filter.
  apply to_numeric_numeric.
Qed.

Lemma pivot_cells_numeric df out mcol pcol scol mcols :
  rectangular df →
  locate "Measure Code" measure_fallback (columns df) = Some mcol →
  locate CCN provider_fallback (columns df) = Some pcol →
  locate "Score" score_fallback (columns df) = Some scol →
  pivot_measures df = Ok out →
  columns out = join_key ++ mcols →
  ∀ r m, r ∈ rows out → m ∈ mcols →
    numeric_cell (get_cell (columns out) m r) = true ∧
    Forall (λ v, notna v) (select_cells (columns out) join_key r).
Proof.
  intros Hrect Hm Hp Hs Hout Hmc.
  pose proof (provider_col_fresh _ _ Hp) as Hfresh.
  pose proof (measure_col_fresh _ _ Hm) as Hmne.
  destruct (pivot_measures_inv _ _ _ _ _ Hm Hp Hs Hout) as [Hcols Hrows].
  rewrite (pivot_recs_source df mcol pcol scol Hrect Hfresh Hmne) in Hcols, Hrows.
  set (recs := source_recs df pcol mcol scol) in *.
  set (cks := pivot_labels (pivot_agged recs)) in *.
  rewrite Hcols in Hmc. apply app_inv_head in Hmc. subst mcols.
  intros r m Hr Hmin. rewrite Hrows in Hr.
  apply list_elem_of_fmap in Hr as (ik & -> & Hik).
  destruct (source_index_key _ _ _ _ _ Hik) as [Hlen Hna].
  rewrite Hcols. split; [|by rewrite select_join_key_row].
  pose proof measure_labels_not_keys as Hkeys. rewrite Forall_forall in Hkeys.
  apply list_elem_of_fmap in Hmin as (ck & -> & Hck).
  destruct (pivot_label_of_code _ _ _ _ _ Hfresh Hck) as (code & label & -> & Hin & E).
  assert (label ∈ measure_labels) as Hlab
    by (apply list_elem_of_fmap; by exists (code, label)).
  cbn [compose]. rewrite E.
  destruct (decide (label ∈ (pivot_rename pcol ∘ py_str <$> cks))) as [Hl|Hl].
  - rewrite get_cell_app_r; [|by apply Hkeys|done].
    unfold get_cell. destruct (col_index _ _) as [i|]; [|done].
    rewrite list_lookup_fmap. destruct (cks !! i) as [ck'|]; [|done]. simpl.
    rewrite lookup_agg_first. apply group_first_numeric.
    intros x Hx. by eapply source_recs_numeric.
  - destruct Hl. apply list_elem_of_fmap. exists (Str code). by rewrite <-E.
Qed.

(** X15.  The shape of the pivot output.  Its labels are the join key followed
    by distinct labels of [MEASURE_MAP]; in every row the three key cells
    are present, every measure cell is a number or missing, and at least
    one measure cell holds a number: a (provider, year, label) group
    without any usable score does not make a row. *)
Theorem pivot_output_shape df out mcol pcol scol :
  rectangular df →
  locate "Measure Code" measure_fallback (columns df) = Some mcol →
  locate CCN provider_fallback (columns df) = Some pcol →
  locate "Score" score_fallback (columns df) = Some scol →
  pivot_measures df = Ok out →
  ∃ mcols, wide_quality out mcols ∧
    (∀ c, c ∈ mcols → c ∈ measure_labels) ∧
    ∀ r, r ∈ rows out →
      Forall (λ v, notna v) (select_cells (columns out) join_key r) ∧
      (∀ m, m ∈ mcols → numeric_cell (get_cell (columns out) m r) = true) ∧
      ∃ c q, c ∈ mcols ∧ get_cell (columns out) c r = Num q.
Proof.
  intros Hrect Hm Hp Hs Hout.
  destruct (pivot_measures_wide_quality df out mcol pcol scol Hrect Hm Hp Hs Hout)
    as (mcols & Hwide & Hlab & Hscore).
  exists mcols. split_and!; [done|done|]. intros r Hr.
  pose proof (pivot_cells_numeric df out mcol pcol scol mcols Hrect Hm Hp Hs Hout
                (proj1 Hwide) r) as Hnum.
  destruct (Hscore r Hr) as (c & Hc & Hv).
  destruct (Hnum c Hr Hc) as [Hn Hkey].
  split_and!; [done| |].
  - intros m Hmm. by apply Hnum.
  - exists c. destruct (get_cell (columns out) c r) as [|s|q|a b]; try done.
    by exists q.
Qed.

(** ** The trend aggregation never fails on a pivot output *)

Lemma summarize_trends_Ok qw mcols :
  wide_quality qw mcols →
  (∀ r m, r ∈ rows qw → m ∈ mcols →
     numeric_cell (get_cell (columns qw) m r) = true) →
  ∃ t, summarize_trends qw = Ok t.
Proof.
  intros Hwide Hnum. unfold summarize_trends.
  destruct (df_empty qw); [by eexists|].
  rewrite (wide_quality_melt qw mcols Hwide).
  unfold agg_trends. cbn [columns rows].
  destruct (list_find _ _) as [[i c]|] eqn:E.
  { apply list_find_Some in E as (Hc%list_elem_of_lookup_2 & Hn & _).
    assert (Forall (λ c, c ∈ long_columns)
              ["measure"; "snapshot_year"; "provider_id"; "score"]) as F
      by (apply (bool_decide_unpack _); by vm_compute).
    rewrite Forall_forall in F. by destruct (Hn (F c Hc)). }
  rewrite long_rows_keyed.
  fold (numeric_scores long_columns (long_rows qw mcols)).
  assert (numeric_scores long_columns (long_rows qw mcols) = true) as ->.
  { unfold numeric_scores. apply forallb_forall.
    intros lr (m & r & Hm & Hr & _ & ->)%list_elem_of_In%elem_of_long_rows.
    destruct (long_row_cells qw m r) as (_ & _ & ->). by apply Hnum. }
  cbn [mbind result_bind]. by eexists.
Qed.

(** X16.  Whatever table [pivot_measures] returns, [summarize_trends] accepts
    it: the trend aggregation raises no exception on a pivot output. *)
Theorem summarize_trends_accepts_pivot_output df quality :
  rectangular df →
  pivot_measures df = Ok quality →
  ∃ t, summarize_trends quality = Ok t.
Proof.
  intros Hrect Hout.
  destruct (locate "Measure Code" measure_fallback (columns df)) as [mcol|] eqn:Hm;
    [|unfold pivot_measures in Hout; rewrite Hm in Hout;
      apply Ok_inj in Hout; subst quality; by eexists].
  destruct (locate CCN provider_fallback (columns df)) as [pcol|] eqn:Hp;
    [|unfold pivot_measures in Hout; rewrite Hm, Hp in Hout;
      apply Ok_inj in Hout; subst quality; by eexists].
  destruct (locate "Score" score_fallback (columns df)) as [scol|] eqn:Hs;
    [|unfold pivot_measures in Hout; rewrite Hm, Hp, Hs in Hout;
      apply Ok_inj in Hout; subst quality; by eexists].
  destruct (pivot_measures_wide_quality df quality mcol pcol scol Hrect Hm Hp Hs Hout)
    as (mcols & Hwide & _ & _).
  apply (summarize_trends_Ok quality mcols Hwide).
  intros r m Hr Hmm.
  by apply (pivot_cells_numeric df quality mcol pcol scol mcols Hrect Hm Hp Hs Hout
              (proj1 Hwide) r m).
Qed.

(** ** The orchestrator: files, aborts and the complete run *)



Lemma concat_frames_rectangular frames : rectangular (concat_frames frames).
Proof.
  unfold rectangular, concat_frames. cbn [columns rows]. apply Forall_forall.
  intros r (f & (r0 & -> & _)%list_elem_of_fmap & _)%list_elem_of_bind.
  apply select_cells_length.
Qed.

Lemma boolean_index_Forall {A} (P : A → Prop) mask (l : list A) :
  Forall P l → Forall P (boolean_index mask l).
Proof.
  intros H. revert mask. induction H as [|x l Hx _ IH]; intros [|[] mask]; simpl;
    try constructor; auto.
Qed.

Lemma filter_to_counties_rectangular df counties out :
  rectangular df → filter_to_counties df counties = Ok out → rectangular out.
Proof.
  intros Hrect. unfold filter_to_counties. case_decide; [by intros <-%Ok_inj|].
  intros (c & _ & (s & _ & <-%Ok_inj)%bind_Ok)%bind_Ok.
  unfold rectangular. cbn [columns rows]. apply boolean_index_Forall.
  by do 3 apply set_column_rectangular.
Qed.

Lemma filtered_columns_elem df c :
  c ∈ filtered_columns df ↔ c ∈ columns df ∨ c ∈ std_labels.
Proof.
  unfold filtered_columns, std_labels. rewrite !elem_of_add_label, !elem_of_cons.
  split.
  - intros [[[?| ->]| ->]| ->]; auto.
  - intros [?|[->|[->|[->|[]%elem_of_nil]]]]; auto.
Qed.



Lemma merge_left_empty_right left :
  join_key ⊆ columns left →
  merge_left left empty_frame join_key = Raise (KeyError "provider_id").
Proof.
  intros Hl. unfold merge_left.
  assert (list_find (λ c, c ∉ columns left) join_key = None) as ->.
  { apply list_find_None, Forall_forall. intros c Hc Hn. by apply Hn, Hl. }
  unfold join_key. cbn [empty_frame columns].
  rewrite list_find_cons_True; [done|]. apply not_elem_of_nil.
Qed.


Lemma pivot_measures_join_key df out :
  pivot_measures df = Ok out → out = empty_frame ∨ join_key ⊆ columns out.
Proof.
  intros Hout.
  destruct (locate "Measure Code" measure_fallback (columns df)) as [mcol|] eqn:Hm;
    [|unfold pivot_measures in Hout; rewrite Hm in Hout;
      apply Ok_inj in Hout; by left].
  destruct (locate CCN provider_fallback (columns df)) as [pcol|] eqn:Hp;
    [|unfold pivot_measures in Hout; rewrite Hm, Hp in Hout;
      apply Ok_inj in Hout; by left].
  destruct (locate "Score" score_fallback (columns df)) as [scol|] eqn:Hs;
    [|unfold pivot_measures in Hout; rewrite Hm, Hp, Hs in Hout;
      apply Ok_inj in Hout; by left].
  destruct (pivot_measures_inv _ _ _ _ _ Hm Hp Hs Hout) as [-> _].
  right. intros c Hc. apply elem_of_app. by left.
Qed.

Lemma pivot_measures_tagged_Ok df :
  "snapshot_year" ∈ columns df → "snapshot_label" ∈ columns df →
  ∃ out, pivot_measures df = Ok out.
Proof.
  intros Hy Hl.
  destruct (locate "Measure Code" measure_fallback (columns df)) as [mcol|] eqn:Hm;
    [|unfold pivot_measures; rewrite Hm; by eexists].
  destruct (locate CCN provider_fallback (columns df)) as [pcol|] eqn:Hp;
    [|unfold pivot_measures; rewrite Hm, Hp; by eexists].
  destruct (locate "Score" score_fallback (columns df)) as [scol|] eqn:Hs;
    [|unfold pivot_measures; rewrite Hm, Hp, Hs; by eexists].
  destruct (pivot_measures_located df mcol pcol scol Hm Hp Hs) as (_ & _ & H).
  by apply H.
Qed.

(** The tables of a run up to the filter: the snapshots are tagged, so
    the filtered table has the two snapshot columns. *)
Lemma run_filtered_tagged county_csv archive include_live live now_year counties :
  load_counties county_csv = Ok counties →
  load_frames archive include_live live now_year ≠ [] →
  let raw := concat_frames (load_frames archive include_live live now_year) in
  ∃ filtered, filter_to_counties raw counties = Ok filtered ∧
    rectangular filtered ∧
    ("snapshot_year" ∈ columns raw) ∧
    ("snapshot_year" ∈ columns filtered) ∧ ("snapshot_label" ∈ columns filtered) ∧
    (∀ c, c ∈ columns raw → c ∈ columns filtered) ∧
    (∀ c, c ∈ columns filtered → c ∈ columns raw ∨ c ∈ std_labels).
Proof.
  intros Hcn Hfr raw.
  destruct (load_counties_columns _ _ Hcn) as [HC HS].
  destruct (filter_to_counties_Ok raw counties HC HS) as [filtered Hfilt].
  exists filtered. split; [done|].
  destruct (load_frames archive include_live live now_year) as [|f frames] eqn:E;
    [done|].
  assert (f ∈ load_frames archive include_live live now_year) as Hf
    by (rewrite E; left).
  destruct (load_frames_tagged _ _ _ _ _ Hf) as [Hy Hl].
  assert ("snapshot_year" ∈ columns raw) as Hy'.
  { unfold raw. eapply concat_frames_columns; [|exact Hy]. left. }
  assert ("snapshot_label" ∈ columns raw) as Hl'.
  { unfold raw. eapply concat_frames_columns; [|exact Hl]. left. }
  split_and!.
  - eapply filter_to_counties_rectangular; [|exact Hfilt].
    apply concat_frames_rectangular.
  - done.
  - by eapply filter_to_counties_keeps_labels.
  - by eapply filter_to_counties_keeps_labels.
  - intros c Hc. by eapply filter_to_counties_keeps_labels.
  - intros c Hc.
    destruct (filter_to_counties_columns _ _ _ Hfilt) as [Heq|Heq];
      rewrite Heq in Hc; [by left|]. by apply filtered_columns_elem.
Qed.

(** X18.  When no snapshot has one of the four provider headers the facility
    extractor knows, it returns the empty frame, and the join that
    follows raises [KeyError] on [provider_id]: the run ends with a
    non-zero status and writes nothing, also when the pivot found its
    provider column through its wider fallback. *)
Theorem run_aborts_without_provider_header county_csv archive output_dir
    include_live live now_year (fs : file_system) counties :
  load_counties county_csv = Ok counties →
  load_frames archive include_live live now_year ≠ [] →
  (∀ f c, f ∈ load_frames archive include_live live now_year →
          c ∈ provider_candidates → c ∉ columns f) →
  run county_csv archive output_dir include_live live now_year fs
  = (Raise (KeyError "provider_id"), fs).
Proof.
  intros Hcn Hfr Hnone.
  destruct (run_filtered_tagged _ _ _ _ _ _ Hcn Hfr)
    as (filtered & Hfilt & Hrect & Hy & Hy' & Hl' & _ & Hback).
  assert (build_facility_table filtered = Ok empty_frame) as Hfac.
  { unfold build_facility_table.
    destruct (assoc "provider_id" (col_map filtered)) as [pcol|] eqn:E; [|done].
    assert (is_Some (assoc "provider_id" (col_map filtered))) as Hs by (by eexists).
    apply provider_column_located in Hs as (c & Hc & Hin).
    destruct (Hback c Hin) as [Hraw|Hstd].
    - unfold concat_frames in Hraw. cbn [columns] in Hraw.
      apply elem_of_remove_dups, list_elem_of_bind in Hraw as (f & Hcf & Hf).
      by destruct (Hnone f c).
    - exfalso. revert Hc Hstd. unfold provider_candidates, std_labels, CCN.
      rewrite !elem_of_cons, !elem_of_nil.
      intros [->|[->|[->|[->|[]]]]]; intros [?|[?|[?|[]]]]; discriminate. }
  destruct (pivot_measures_tagged_Ok filtered Hy' Hl') as [quality Hq].
  apply run_raises. unfold run_tables. rewrite Hcn. cbn [mbind result_bind].
  rewrite decide_False by done.
  rewrite (getitem_Ok _ _ Hy). cbn [mbind result_bind].
  rewrite Hfilt. cbn [mbind result_bind].
  rewrite (getitem_Ok _ _ Hy'). cbn [mbind result_bind].
  rewrite Hfac. cbn [mbind result_bind]. rewrite Hq. cbn [mbind result_bind].
  destruct (pivot_measures_join_key _ _ Hq) as [->|Hk].
  - by rewrite merge_left_empty_frame.
  - by rewrite merge_left_empty_right.
Qed.


(** ** The composite scorer: order of the values and of the rows *)

Lemma length_filter_two_le {A} (P Q R : A → Prop)
    `{!∀ x, Decision (P x)} `{!∀ x, Decision (Q x)} `{!∀ x, Decision (R x)}
    (l : list A) :
  (∀ x, P x → Q x → False) → (∀ x, P x → R x) → (∀ x, Q x → R x) →
  length (filter P l) + length (filter Q l) ≤ length (filter R l).
Proof.
  intros Hdis HP HQ. induction l as [|x l IH]; [done|].
  rewrite !filter_cons.
  destruct (decide (P x)) as [p|p], (decide (Q x)) as [q|q],
           (decide (R x)) as [r|r]; simpl; try lia;
    try (by destruct (Hdis x)); exfalso; auto.
Qed.

Lemma average_rank_mono s a b :
  rank_le a b → (average_rank s a <= average_rank s b)%Q.
Proof.
  unfold rank_le, average_rank.
  set (present := omap num_of s).
  pose proof (length_omap_le num_of s) as Hk. fold present in Hk.
  destruct (num_of a) as [x|], (num_of b) as [y|]; try done.
  - intros Hxy%bool_decide_unpack.
    destruct (decide (x = y)) as [->|Hne]; [apply Qle_refl|].
    assert (x < y)%Qc as Hlt.
    { apply Qcle_lt_or_eq in Hxy as [?|?]; [done|by destruct Hne]. }
    pose proof (length_filter_two_le (λ z, (z < x)%Qc) (λ z, z = x) (λ z, (z < y)%Qc)
                  present) as Hd.
    assert (length (filter (λ z, (z < x)%Qc) present)
            + length (filter (λ z, z = x) present)
            ≤ length (filter (λ z, (z < y)%Qc) present)) as Hle.
    { apply Hd.
      - intros z Hz ->. by apply Qclt_not_eq in Hz.
      - intros z Hz. by eapply Qclt_trans.
      - by intros z ->. }
    set (bx := length (filter (λ z, (z < x)%Qc) present)) in *.
    set (tx := length (filter (λ z, z = x) present)) in *.
    set (b_y := length (filter (λ z, (z < y)%Qc) present)) in *.
    set (ty := length (filter (λ z, z = y) present)) in *.
    pose proof (Qn_le _ _ Hle) as H1. rewrite Qn_plus in H1.
    pose proof (Qn_nonneg tx). pose proof (Qn_nonneg ty). half_lra.
  - intros _.
    pose proof (length_filter_disjoint (λ z, (z < x)%Qc) (λ z, z = x) present) as Hd.
    assert (∀ z : Qc, (z < x)%Qc → z = x → False) as Hex.
    { intros z Hz ->. by apply Qclt_not_eq in Hz. }
    specialize (Hd Hex).
    set (bx := length (filter (λ z, (z < x)%Qc) present)) in *.
    set (tx := length (filter (λ z, z = x) present)) in *.
    pose proof (Qn_le _ _ Hd) as H1. rewrite Qn_plus in H1.
    pose proof (Qn_nonneg tx). pose proof (Qn_nonneg (length s - length present)).
    half_lra.
  - intros _. apply Qle_refl.
Qed.

Lemma Qdiv_le_mono (a b c : Q) : (a <= b)%Q → (0 <= c)%Q → (a / c <= b / c)%Q.
Proof.
  intros Hab Hc. unfold Qdiv. apply Qmult_le_compat_r; [done|].
  by apply Qinv_le_0_compat.
Qed.

Lemma pct_rank_mono s a b : rank_le a b → (pct_rank s a <= pct_rank s b)%Q.
Proof.
  intros H. unfold pct_rank. apply Qdiv_le_mono; [by apply average_rank_mono|].
  apply Qn_nonneg.
Qed.

Lemma sumQ_mono {A} (f g : A → Q) (l : list A) :
  (∀ x, x ∈ l → (f x <= g x)%Q) → (sumQ (f <$> l) <= sumQ (g <$> l))%Q.
Proof.
  induction l as [|x l IH]; intros H; simpl; [apply Qle_refl|].
  apply Qplus_le_compat; [apply H; by left|].
  apply IH. intros y Hy. apply H. by right.
Qed.

Lemma meanQ_mono {A} (f g : A → Q) (l : list A) :
  (∀ x, x ∈ l → (f x <= g x)%Q) → (meanQ (f <$> l) <= meanQ (g <$> l))%Q.
Proof.
  intros H. unfold meanQ. rewrite !length_fmap.
  apply Qdiv_le_mono; [by apply sumQ_mono|apply Qn_nonneg].
Qed.

(** X20.  The composite respects the ranking: a row that is at least as
    favourable as another one in every measure column (lower or equal
    value, a missing value counting as the least favourable) has a
    composite that is lower or equal. *)
Theorem composite_monotone merged i j r r' :
  rows merged !! i = Some r →
  rows merged !! j = Some r' →
  (∀ c, c ∈ measure_cols merged →
     rank_le (get_cell (columns merged) c r) (get_cell (columns merged) c r')) →
  ∃ qi qj,
    composite merged (measure_cols merged) !! i = Some qi ∧
    composite merged (measure_cols merged) !! j = Some qj ∧
    (qi <= qj)%Q.
Proof.
  intros Hi Hj Hle.
  rewrite (composite_lookup merged _ i r Hi), (composite_lookup merged _ j r' Hj).
  eexists _, _. split_and!; [done|done|].
  apply meanQ_mono. intros c Hc. by apply pct_rank_mono, Hle.
Qed.

Lemma average_rank_Permutation s s' v :
  s ≡ₚ s' → average_rank s v = average_rank s' v.
Proof.
  intros Hp. unfold average_rank.
  assert (omap num_of s ≡ₚ omap num_of s') as Ho by (by rewrite Hp).
  destruct (num_of v) as [x|].
  - by rewrite Ho.
  - by rewrite Ho, Hp.
Qed.

Lemma pct_rank_Permutation s s' v : s ≡ₚ s' → pct_rank s v = pct_rank s' v.
Proof.
  intros Hp. unfold pct_rank.
  by rewrite (average_rank_Permutation s s' v Hp), Hp.
Qed.

(** X21.  The composite of a row does not depend on where the row stands:
    in a table with the same labels and the same rows in another order,
    every row has the composite it had. *)
Theorem composite_ignores_row_order merged merged' i j r :
  columns merged' = columns merged →
  rows merged' ≡ₚ rows merged →
  rows merged !! i = Some r →
  rows merged' !! j = Some r →
  measure_cols merged' = measure_cols merged ∧
  composite merged' (measure_cols merged') !! j
  = composite merged (measure_cols merged) !! i.
Proof.
  intros Hcols Hperm Hi Hj.
  assert (measure_cols merged' = measure_cols merged) as Hm
    by (unfold measure_cols; by rewrite Hcols).
  split; [done|].
  rewrite Hm, (composite_lookup merged _ i r Hi), (composite_lookup merged' _ j r Hj).
  do 2 f_equal. apply list_fmap_ext. intros k c _. simpl. rewrite Hcols.
  apply pct_rank_Permutation. unfold series. by rewrite Hcols, Hperm.
Qed.

(** ** The joined rows and the scored table *)

(** X22.  The joined table row by row.  Every pivot row is followed by the
    attribute cells of the facility row that has its (provider_id,
    snapshot_year, snapshot_label), and by missing values when the
    facility table has no row with that key. *)
Theorem merged_row_attributes df quality facilities merged :
  build_facility_table df = Ok facilities →
  merge_left quality facilities join_key = Ok merged →
  rows merged
  = (λ q, q ++ joined_cells quality facilities join_key q) <$> rows quality ∧
  ∀ q, q ∈ rows quality →
    (∀ f, f ∈ rows facilities →
       select_cells (columns facilities) join_key f
       = select_cells (columns quality) join_key q →
       joined_cells quality facilities join_key q
       = select_cells (columns facilities)
           (filter (λ c, c ∉ join_key) (columns facilities)) f) ∧
    ((∀ f, f ∈ rows facilities →
        select_cells (columns facilities) join_key f
        ≠ select_cells (columns quality) join_key q) →
     Forall (λ v, v = NA) (joined_cells quality facilities join_key q)).
Proof.
  intros Hfac Hmerge.
  pose proof (build_facility_table_keys df facilities Hfac) as Hnd.
  split; [by apply merge_left_rows|].
  intros q Hq. unfold joined_cells. split.
  - intros f Hf Hkey.
    pose proof (filter_key_unique (select_cells (columns facilities) join_key)
                  (rows facilities) (select_cells (columns quality) join_key q) Hnd)
      as Hlen.
    assert (f ∈ filter (λ r, select_cells (columns facilities) join_key r
                             = select_cells (columns quality) join_key q)
                       (rows facilities)) as Hin by (by apply list_elem_of_filter).
    destruct (filter _ (rows facilities)) as [|r [|r' rs]]; simpl in Hlen.
    + by apply elem_of_nil in Hin.
    + by apply list_elem_of_singleton in Hin as ->.
    + lia.
  - intros Hnone. rewrite filter_Forall_nil.
    + by apply Forall_replicate.
    + apply Forall_forall. intros f Hf. by apply Hnone.
Qed.

(** X23.  Scoring changes no other cell: [add_composite] keeps the rows in
    order and every cell of every column other than [composite_raw]. *)
Theorem add_composite_keeps_cells merged :
  rectangular merged →
  length (rows (add_composite merged)) = length (rows merged) ∧
  ∀ i r, rows merged !! i = Some r →
    ∃ r', rows (add_composite merged) !! i = Some r' ∧
      ∀ c, c ≠ "composite_raw" →
        get_cell (columns (add_composite merged)) c r' = get_cell (columns merged) c r.
Proof.
  intros Hrect. unfold add_composite.
  destruct (measure_cols merged) as [|c0 cs] eqn:E.
  { split; [done|]. intros i r Hr. by exists r. }
  rewrite <-E. clear E c0 cs. unfold set_column. cbn [rows columns].
  assert (length (Num ∘ Q2Qc <$> composite merged (measure_cols merged))
          = length (rows merged)) as Hlen
    by (by rewrite length_fmap, composite_length).
  split; [rewrite length_zip_with; lia|].
  intros i r Hr.
  destruct (lookup_lt_is_Some_2 (Num ∘ Q2Qc <$> composite merged (measure_cols merged)) i)
    as [v Hv].
  { rewrite Hlen. by eapply lookup_lt_Some. }
  exists (set_cell (columns merged) "composite_raw" v r). split.
  - rewrite lookup_zip_with, Hr. simpl. by rewrite Hv.
  - intros c Hc. apply get_set_ne; [done|].
    eapply (proj1 (Forall_forall _ _) Hrect). by eapply list_elem_of_lookup_2.
Qed.

(** ** The trend figures lie within the range of the scores *)








(** ** The percentile ranks of a column add up to a constant *)
















(** ** The trend aggregation: outcomes on an arbitrary table *)


End Pipeline.

(** * Worked examples

    Each property with a precondition is applied to a concrete input. *)

Ltac by_computation := apply (bool_decide_unpack _); vm_compute; exact I.

(** C1, as stated, fails on a column holding one value and one missing
    value: the row without a value gets percentile rank 1, the row with
    the value gets 1/2, so the missing value is not ranked first. *)
Lemma missing_not_ranked_most_favorable :
  ¬ missing_ranked_most_favorable example_merged.
Proof.
  intros H.
  specialize (H "Pressure Ulcer Rate"
                [Str "B2"; Num (Qc_of_Z 2023); Str "f"; NA]
                [Str "A1"; Num (Qc_of_Z 2023); Str "f"; Num (Qc_of_Z 1)]).
  assert ("Pressure Ulcer Rate" ∈ measure_cols example_merged) as H1 by by_computation.
  specialize (H H1). clear H1.
  assert ([Str "B2"; Num (Qc_of_Z 2023); Str "f"; NA] ∈ rows example_merged) as H2
    by (right; left).
  specialize (H H2). clear H2.
  assert ([Str "A1"; Num (Qc_of_Z 2023); Str "f"; Num (Qc_of_Z 1)] ∈ rows example_merged) as H3
    by left.
  specialize (H H3 eq_refl). clear H3.
  vm_compute in H. by apply H.
Qed.

Lemma missing_measure_ranked_last_witness :
  let s := series example_merged "Pressure Ulcer Rate" in
  rank_pct_bottom s !! 1 = Some (pct_rank s NA) ∧
  (pct_rank s (Num (Qc_of_Z 1)) < pct_rank s NA)%Q ∧
  (pct_rank s NA == 1)%Q.
Proof.
  destruct (missing_measure_ranked_last example_merged "Pressure Ulcer Rate" 1
              [Str "B2"; Num (Qc_of_Z 2023); Str "f"; NA])
    as (H1 & H2 & H3 & H4 & H5).
  - by_computation.
  - reflexivity.
  - reflexivity.
  - split; [exact H1|]. split.
    + apply (H4 [Str "A1"; Num (Qc_of_Z 2023); Str "f"; Num (Qc_of_Z 1)]).
      * left.
      * reflexivity.
    + reflexivity.
Defined.

(** C2 on an extract without its Score column. *)
Lemma unlocated_pivot_aborts_run_witness :
  run example_repr example_float example_int example_counties
      [(example_file, example_raw_no_score)] "outputs" false None 2026%Z ∅
  = (Raise (KeyError "provider_id"), ∅).
Proof.
  eapply (proj2 (unlocated_pivot_aborts_run example_repr example_float example_int
            example_counties [(example_file, example_raw_no_score)] "outputs"
            false None 2026%Z ∅ _ _ _ _ _ _)).
  Unshelve.
  all: cycle 2.
  - vm_compute. reflexivity.
  - vm_compute. discriminate.
  - vm_compute. reflexivity.
  - vm_compute. reflexivity.
Defined.

(** C9 with an empty archive directory and the live snapshot disabled. *)
Lemma run_without_sources_aborts_witness :
  let out := run example_repr example_float example_int example_counties []
               "outputs" false None 2026%Z ∅ in
  out.1 = Raise (SystemExit no_data) ∧ out.2 = ∅ ∧
  out.2 !! quality_csv "outputs" = None ∧ out.2 !! trend_csv "outputs" = None.
Proof.
  destruct (run_without_sources_aborts example_repr example_float example_int
              example_counties "outputs" false None 2026%Z ∅ (or_introl eq_refl))
    as (H1 & H2 & H3 & H4 & H5).
  cbv zeta. split_and!.
  - apply (H5 example_counties). vm_compute. reflexivity.
  - exact H2.
  - destruct H3 as [[x Hx]|H3]; [vm_compute in Hx; discriminate|exact H3].
  - destruct H4 as [[x Hx]|H4]; [vm_compute in Hx; discriminate|exact H4].
Defined.

(** C3, read on every table, fails on a table without a state column:
    the filter is skipped, so the row of Knox County survives although
    its normalized pair is not in the allow-list [(SULLIVAN, TN)]. *)
Lemma stateless_table_passes_unfiltered :
  ¬ membership_decides_survival example_repr knox_stateless example_counties.
Proof.
  intros H.
  destruct (H knox_stateless knox_row) as [Hin _].
  - vm_compute. reflexivity.
  - left.
  - assert (survives knox_stateless knox_stateless knox_row) as Hs.
    { exists knox_row. split; [left|]. intros c _ _. reflexivity. }
    apply Hin in Hs. revert Hs. by_computation.
Qed.

(** C3, the scenario of the specification: the row of Sullivan County,
    TN is retained under the allow-list [(SULLIVAN, TN)]; the row of
    Knox County is not. *)
Lemma geographic_filter_membership_witness :
  ∃ out, filter_to_counties example_repr sullivan_table example_counties = Ok out ∧
         survives sullivan_table out sullivan_row ∧
         ¬ survives sullivan_table out [Str "445002"; Str "Knox County"; Str "TN"].
Proof.
  assert (∃ out, filter_to_counties example_repr sullivan_table example_counties = Ok out)
    as [out Hout] by (eexists; vm_compute; reflexivity).
  exists out. split; [exact Hout|].
  destruct (geographic_filter_membership example_repr sullivan_table
              example_counties out) as [_ Hiff].
  - repeat constructor.
  - repeat constructor.
  - vm_compute. discriminate.
  - vm_compute. discriminate.
  - exact Hout.
  - split.
    + apply Hiff; [left|by_computation].
    + intros H. apply Hiff in H; [|right; left]. revert H. by_computation.
Defined.

(** C8 on the same table. *)
Lemma geographic_filter_idempotent_witness :
  ∃ out, filter_to_counties example_repr sullivan_table example_counties = Ok out ∧
         filter_to_counties example_repr out example_counties = Ok out.
Proof.
  assert (∃ out, filter_to_counties example_repr sullivan_table example_counties = Ok out)
    as [out Hout] by (eexists; vm_compute; reflexivity).
  exists out. split; [exact Hout|].
  apply (geographic_filter_idempotent example_repr sullivan_table example_counties out).
  - repeat constructor.
  - repeat constructor.
  - exact Hout.
Defined.

(** C4: provider A1 has two source rows for the pressure ulcer measure,
    with scores 2 and 9 in that order; its cell holds 2. *)
Lemma pivot_cell_is_first_score_witness :
  ∃ out r, pivot_measures example_repr example_float example_tagged = Ok out ∧
           r ∈ rows out ∧
           select_cells (columns out) join_key r
           = [Str "A1"; Num (Qc_of_Z 2023); Str example_file] ∧
           get_cell (columns out) "Pressure Ulcer Rate" r = Num (Qc_of_Z 2).
Proof.
  assert (∃ out, pivot_measures example_repr example_float example_tagged = Ok out)
    as [out Hout] by (eexists; vm_compute; reflexivity).
  destruct (pivot_cell_is_first_score example_repr example_float example_tagged out
              "Measure Code" CCN "Score") as (Hcell & Hgroup & _).
  - repeat constructor.
  - reflexivity.
  - reflexivity.
  - reflexivity.
  - exact Hout.
  - destruct (Hgroup [Str "A1"; Num (Qc_of_Z 2023); Str example_file]
                "S_038_02_ADJ_RATE" "Pressure Ulcer Rate")
      as (Hlabel & r & Hr & Hkey).
    + left.
    + repeat constructor.
    + vm_compute. exact I.
    + exists out, r. split_and!; [exact Hout|exact Hr|exact Hkey|].
      rewrite (Hcell r "S_038_02_ADJ_RATE" "Pressure Ulcer Rate" Hr
                 ltac:(left) Hlabel).
      rewrite Hkey. vm_compute. reflexivity.
Defined.

(** C7 on the worked extract. *)
Lemma join_key_unique_before_join_witness :
  ∃ quality facilities,
    pivot_measures example_repr example_float example_tagged = Ok quality ∧
    build_facility_table example_tagged = Ok facilities ∧
    NoDup (select_cells (columns quality) join_key <$> rows quality) ∧
    NoDup (select_cells (columns facilities) join_key <$> rows facilities).
Proof.
  assert (∃ q, pivot_measures example_repr example_float example_tagged = Ok q)
    as [q Hq] by (eexists; vm_compute; reflexivity).
  assert (∃ f, build_facility_table example_tagged = Ok f)
    as [f Hf] by (eexists; vm_compute; reflexivity).
  exists q, f.
  destruct (join_key_unique_before_join example_repr example_float example_tagged
              q f Hq Hf) as [H1 H2].
  split_and!; [exact Hq|exact Hf|exact H1|exact H2].
Defined.

(** C10 on the worked extract. *)
Lemma left_join_one_row_per_pivot_row_witness :
  ∃ quality facilities merged,
    pivot_measures example_repr example_float example_tagged = Ok quality ∧
    build_facility_table example_tagged = Ok facilities ∧
    merge_left quality facilities join_key = Ok merged ∧
    length (rows merged) = length (rows quality).
Proof.
  eexists _, _, _. split; [vm_compute; reflexivity|].
  split; [vm_compute; reflexivity|].
  split; [vm_compute; reflexivity|].
  eapply (left_join_one_row_per_pivot_row example_tagged).
  - vm_compute. reflexivity.
  - vm_compute. reflexivity.
Defined.



(** ** Worked examples of the further properties *)

(** A padded lower-case name normalizes like the plain one. *)
Lemma normalizers_ignore_case_and_padding_witness :
  normalize_county example_repr (Str ("  " +:+ "sullivan county" +:+ " "))
  = normalize_county example_repr (Str "sullivan county") ∧
  strip_upper example_repr (Str (PyStr.lower "Tn")) = strip_upper example_repr (Str "Tn").
Proof.
  destruct (normalizers_ignore_case_and_padding example_repr "sullivan county" "  " " ")
    as (H1 & _); [reflexivity|reflexivity|].
  destruct (normalizers_ignore_case_and_padding example_repr "Tn" "" "")
    as (_ & _ & _ & _ & H5 & _); [reflexivity|reflexivity|].
  split; [exact H1|exact H5].
Defined.

(** Sullivan County and St. Bernard Parish. *)
Lemma normalize_county_drops_suffix_witness :
  normalize_county example_repr (Str ("Sullivan" +:+ " County")) = "SULLIVAN" ∧
  normalize_county example_repr (Str ("St. Bernard" +:+ " Parish")) = "ST. BERNARD".
Proof.
  split.
  - apply (proj2 (normalize_county_drops_suffix example_repr "Sullivan" " County"
                    eq_refl ltac:(discriminate)) eq_refl).
  - apply (proj1 (normalize_county_drops_suffix example_repr "St. Bernard" " Parish"
                    eq_refl ltac:(discriminate)) eq_refl).
Defined.

(** The allow-list of a county file with padded headers and values. *)
Lemma load_counties_keeps_allow_list_witness :
  ∃ counties, load_counties example_county_csv = Ok counties ∧
    normalized_allow_list example_repr counties
    = normalized_allow_list example_repr (stripped_headers example_county_csv).
Proof.
  assert (∃ counties, load_counties example_county_csv = Ok counties)
    as [counties Hload] by (eexists; vm_compute; reflexivity).
  exists counties. split; [exact Hload|].
  apply (load_counties_keeps_allow_list example_repr example_county_csv counties).
  - repeat constructor.
  - intros r Hr. apply list_elem_of_singleton in Hr as ->. by eexists.
  - intros r Hr. apply list_elem_of_singleton in Hr as ->. by eexists.
  - exact Hload.
Defined.

(** The archive of October 2023 is tagged with the year 2023. *)
Lemma load_archives_reads_year_witness :
  load_archives example_int [(example_file, example_raw)] !! 0
  = Some (tag_snapshot (Num (Qc_of_Z 2023)) example_file example_raw).
Proof.
  exact (proj1 (load_archives_reads_year example_int [(example_file, example_raw)] 0
                  "Skilled_Nursing_Facility_Quality_Reporting_Program_Provider_Data"
                  "Oct2023" example_raw eq_refl eq_refl)).
Defined.

Lemma load_archives_tags_rows_witness :
  length (load_archives example_int [(example_file, example_raw)]) = 1.
Proof.
  apply (load_archives_tags_rows example_int [(example_file, example_raw)] 0
           example_file example_raw).
  - reflexivity.
  - repeat constructor.
Defined.

(** Sullivan alone against Sullivan and Knox. *)
Lemma filter_to_counties_monotone_witness :
  ∃ out1 out2,
    filter_to_counties example_repr sullivan_table example_counties = Ok out1 ∧
    filter_to_counties example_repr sullivan_table example_counties_two = Ok out2 ∧
    rows out1 `sublist_of` rows out2.
Proof.
  assert (∃ out, filter_to_counties example_repr sullivan_table example_counties = Ok out)
    as [out1 H1] by (eexists; vm_compute; reflexivity).
  assert (∃ out, filter_to_counties example_repr sullivan_table example_counties_two
                 = Ok out)
    as [out2 H2] by (eexists; vm_compute; reflexivity).
  exists out1, out2. split_and!; [exact H1|exact H2|].
  apply (filter_to_counties_monotone example_repr sullivan_table example_counties
           example_counties_two out1 out2).
  - repeat constructor.
  - repeat constructor.
  - repeat constructor.
  - by_computation.
  - exact H1.
  - exact H2.
Defined.

Lemma pivot_measures_sorted_witness :
  ∃ out, pivot_measures example_repr example_float example_tagged = Ok out ∧
    Sorted (λ r1 r2, key_le (select_cells (columns out) join_key r1)
                            (select_cells (columns out) join_key r2)) (rows out).
Proof.
  assert (∃ out, pivot_measures example_repr example_float example_tagged = Ok out)
    as [out Hout] by (eexists; vm_compute; reflexivity).
  exists out. split; [exact Hout|].
  apply (pivot_measures_sorted example_repr example_float example_tagged out
           "Measure Code" CCN "Score").
  - repeat constructor.
  - reflexivity.
  - reflexivity.
  - reflexivity.
  - exact Hout.
Defined.


Lemma pivot_measures_ignores_other_measures_witness :
  pivot_measures example_repr example_float
    (mkDF (columns example_tagged)
          (filter (λ r, is_measure_code (get_cell (columns example_tagged) "Measure Code" r))
                  (rows example_tagged)))
  = pivot_measures example_repr example_float example_tagged.
Proof.
  apply (pivot_measures_ignores_other_measures example_repr example_float example_tagged
           "Measure Code").
  reflexivity.
Defined.

(** The first row of the worked extract is kept. *)
Lemma build_facility_table_first_row_wins_witness :
  ∃ f row, build_facility_table example_tagged = Ok f ∧ row ∈ rows f ∧
    ∃ i r, first_of_key example_tagged CCN i r ∧
           row = select_cells (columns example_tagged) (facility_keep example_tagged) r.
Proof.
  pose (f := match build_facility_table example_tagged with
             | Ok f => f
             | Raise _ => empty_frame
             end).
  assert (build_facility_table example_tagged = Ok f) as Hf
    by (vm_compute; reflexivity).
  exists f, (hd [] (rows f)). split; [exact Hf|].
  assert (hd [] (rows f) ∈ rows f) as Hrow by by_computation.
  split; [exact Hrow|].
  destruct (proj1 (build_facility_table_first_row_wins example_tagged f CCN
                     ltac:(vm_compute; reflexivity) Hf (hd [] (rows f))) Hrow)
    as (i & r & Hfirst & Hsel & _).
  by exists i, r.
Defined.

Lemma pivot_output_shape_witness :
  ∃ out mcols, pivot_measures example_repr example_float example_tagged = Ok out ∧
               wide_quality out mcols.
Proof.
  assert (∃ out, pivot_measures example_repr example_float example_tagged = Ok out)
    as [out Hout] by (eexists; vm_compute; reflexivity).
  destruct (pivot_output_shape example_repr example_float example_tagged out
              "Measure Code" CCN "Score") as (mcols & Hwide & _).
  - repeat constructor.
  - reflexivity.
  - reflexivity.
  - reflexivity.
  - exact Hout.
  - by exists out, mcols.
Defined.

Lemma summarize_trends_accepts_pivot_output_witness :
  ∃ quality t, pivot_measures example_repr example_float example_tagged = Ok quality ∧
               summarize_trends quality = Ok t.
Proof.
  assert (∃ out, pivot_measures example_repr example_float example_tagged = Ok out)
    as [out Hout] by (eexists; vm_compute; reflexivity).
  destruct (summarize_trends_accepts_pivot_output example_repr example_float
              example_tagged out) as [t Ht].
  - repeat constructor.
  - exact Hout.
  - by exists out, t.
Defined.

(** A run over an extract whose provider column is none of the four
    headers the facility extractor knows. *)
Lemma run_aborts_without_provider_header_witness :
  run example_repr example_float example_int example_counties
      [(example_file, example_raw_fallback)] "outputs" false None 2026%Z ∅
  = (Raise (KeyError "provider_id"), ∅).
Proof.
  assert (∃ counties, load_counties example_counties = Ok counties)
    as [counties Hload] by (eexists; vm_compute; reflexivity).
  apply (run_aborts_without_provider_header example_repr example_float example_int
           example_counties [(example_file, example_raw_fallback)] "outputs" false None
           2026%Z ∅ counties Hload).
  - vm_compute. discriminate.
  - assert (Forall (λ f, Forall (λ c, c ∉ columns f) provider_candidates)
              (load_frames example_int [(example_file, example_raw_fallback)]
                 false None 2026%Z)) as F by by_computation.
    intros f c Hf Hc. rewrite Forall_forall in F. specialize (F f Hf).
    rewrite Forall_forall in F. by apply F.
Defined.


(** The row with a value against the row without one. *)
Lemma composite_monotone_witness :
  ∃ qi qj,
    composite example_merged (measure_cols example_merged) !! 0 = Some qi ∧
    composite example_merged (measure_cols example_merged) !! 1 = Some qj ∧
    (qi <= qj)%Q.
Proof.
  apply (composite_monotone example_merged 0 1
           [Str "A1"; Num (Qc_of_Z 2023); Str "f"; Num (Qc_of_Z 1)]
           [Str "B2"; Num (Qc_of_Z 2023); Str "f"; NA]).
  - reflexivity.
  - reflexivity.
  - assert (Forall (λ c, rank_le
                      (get_cell (columns example_merged) c
                         [Str "A1"; Num (Qc_of_Z 2023); Str "f"; Num (Qc_of_Z 1)])
                      (get_cell (columns example_merged) c
                         [Str "B2"; Num (Qc_of_Z 2023); Str "f"; NA]))
              (measure_cols example_merged)) as F by by_computation.
    intros c Hc. rewrite Forall_forall in F. by apply F.
Defined.

Lemma composite_ignores_row_order_witness :
  composite example_merged_swapped (measure_cols example_merged_swapped) !! 1
  = composite example_merged (measure_cols example_merged) !! 0.
Proof.
  apply (composite_ignores_row_order example_merged example_merged_swapped 0 1
           [Str "A1"; Num (Qc_of_Z 2023); Str "f"; Num (Qc_of_Z 1)]).
  - reflexivity.
  - apply Permutation_swap.
  - reflexivity.
  - reflexivity.
Defined.

(** The join of the worked extract, row by row. *)
Lemma merged_row_attributes_witness :
  ∃ quality facilities merged,
    pivot_measures example_repr example_float example_tagged = Ok quality ∧
    build_facility_table example_tagged = Ok facilities ∧
    merge_left quality facilities join_key = Ok merged ∧
    rows merged
    = (λ q, q ++ joined_cells quality facilities join_key q) <$> rows quality.
Proof.
  eexists _, _, _. split; [vm_compute; reflexivity|].
  split; [vm_compute; reflexivity|].
  split; [vm_compute; reflexivity|].
  eapply (proj1 (merged_row_attributes example_tagged _ _ _ _ _)).
  Unshelve.
  - vm_compute. reflexivity.
  - vm_compute. reflexivity.
Defined.

Lemma add_composite_keeps_cells_witness :
  length (rows (add_composite example_merged)) = length (rows example_merged).
Proof.
  apply (add_composite_keeps_cells example_merged). repeat constructor.
Defined.


